(** * Audacious plugins: the UNIX transport (unix-io.c) and the playlist
      view helpers (playlist_util.c)

    A shallow embedding of the two adapters and of the part of their
    environment they talk to: POSIX descriptors for the transport, the host
    playlist and the GTK selection for the view helpers.  C integers are
    [Z] with the conversions of the C code written out.  Each function
    takes the state of its environment and returns the new one.  The
    diagnostics written to stderr and the allocation of the [VFSFile] and of
    the file name are left out. *)

From Stdlib Require Import ZArith List Lia Bool Ascii String.
From Stdlib.Strings Require Import Byte.
From stdpp Require Import base option list gmap strings.

Local Open Scope Z_scope.

(** ** Machine integers (LP64: [gint] is 32 bits, [size_t], [glong] and
    [off_t] are 64 bits) *)
Module CInt.

Definition wrap_unsigned (bits x : Z) : Z := x mod 2 ^ bits.

Definition wrap_signed (bits x : Z) : Z :=
  (x + 2 ^ (bits - 1)) mod 2 ^ bits - 2 ^ (bits - 1).

Definition to_gint : Z -> Z := wrap_signed 32.
Definition to_size_t : Z -> Z := wrap_unsigned 64.

Definition G_MAXINT : Z := 2147483647.
Definition G_MININT : Z := -2147483648.
Definition SIZE_MAX : Z := 18446744073709551615.

(** [EOF] of <stdio.h>. *)
Definition EOF : Z := -1.

(** [(gint) c] for a [guchar c]. *)
Definition guchar_to_gint (c : byte) : Z := Z.of_N (Byte.to_N c).

End CInt.

(** ** The operating system seen through a descriptor

    unix-io.c calls open, fcntl, read, write, lseek, fsync, ftruncate and
    close.  The model keeps the files by path, the table of open
    descriptors, the log of the calls issued so far, and an oracle that fixes
    in advance how each device access goes: all of the requested bytes, a
    part of them, or an error. *)
Module Posix.

(** <fcntl.h>, <unistd.h> (Linux values). *)
Definition O_RDONLY : Z := 0.
Definition O_WRONLY : Z := 1.
Definition O_RDWR : Z := 2.
Definition O_ACCMODE : Z := 3.
Definition O_CREAT : Z := 64.
Definition O_TRUNC : Z := 512.
Definition O_APPEND : Z := 1024.

Definition SEEK_SET : Z := 0.
Definition SEEK_CUR : Z := 1.
Definition SEEK_END : Z := 2.

Definition has_flag (flags f : Z) : bool := negb (Z.land flags f =? 0).
Definition can_read (flags : Z) : bool :=
  let acc := Z.land flags O_ACCMODE in (acc =? O_RDONLY) || (acc =? O_RDWR).
Definition can_write (flags : Z) : bool :=
  let acc := Z.land flags O_ACCMODE in (acc =? O_WRONLY) || (acc =? O_RDWR).

(** A regular file can be repositioned, truncated and synced; a FIFO
    cannot (ESPIPE, EINVAL). *)
Inductive file_kind := Regular | Fifo.

Record inode := { i_kind : file_kind; i_data : list byte }.

(** An open file description. *)
Record ofd := { o_path : string; o_pos : Z; o_flags : Z; o_cloexec : bool }.

(** How the next device access goes. [Short k] transfers at most [k]
    bytes ([Short 0] transfers nothing), [Fault] fails with -1. *)
Inductive os_event := Normal | Short (k : nat) | Fault.

Inductive syscall :=
| SysOpen (path : string) (flags : Z) (perm : option Z)
| SysFcntl (fd : Z)
| SysRead (fd count : Z)
| SysWrite (fd count : Z)
| SysLseek (fd offset whence : Z)
| SysFsync (fd : Z)
| SysFtruncate (fd length : Z)
| SysClose (fd : Z).

Record world := {
  w_fs : gmap string inode;
  w_fds : gmap Z ofd;
  w_oracle : nat -> os_event;
  w_clock : nat;
  w_trace : list syscall
}.

Definition log (c : syscall) (w : world) : world :=
  {| w_fs := w_fs w; w_fds := w_fds w; w_oracle := w_oracle w;
     w_clock := w_clock w; w_trace := w_trace w ++ [c] |}.

Definition next_event (w : world) : os_event * world :=
  (w_oracle w (w_clock w),
   {| w_fs := w_fs w; w_fds := w_fds w; w_oracle := w_oracle w;
      w_clock := S (w_clock w); w_trace := w_trace w |}).

Definition set_fs (fs : gmap string inode) (w : world) : world :=
  {| w_fs := fs; w_fds := w_fds w; w_oracle := w_oracle w;
     w_clock := w_clock w; w_trace := w_trace w |}.

Definition set_fds (fds : gmap Z ofd) (w : world) : world :=
  {| w_fs := w_fs w; w_fds := fds; w_oracle := w_oracle w;
     w_clock := w_clock w; w_trace := w_trace w |}.

Definition set_pos (p : Z) (o : ofd) : ofd :=
  {| o_path := o_path o; o_pos := p; o_flags := o_flags o;
     o_cloexec := o_cloexec o |}.

Definition set_data (d : list byte) (i : inode) : inode :=
  {| i_kind := i_kind i; i_data := d |}.

(** The open description behind [fd] together with its file. *)
Definition resolve (fd : Z) (w : world) : option (ofd * inode) :=
  match w_fds w !! fd with
  | Some o =>
      match w_fs w !! o_path o with
      | Some i => Some (o, i)
      | None => None
      end
  | None => None
  end.

(** Bytes the event lets through, out of [want]. *)
Definition allowed (e : os_event) (want : Z) : Z :=
  match e with
  | Normal => want
  | Short k => Z.min want (Z.of_nat k)
  | Fault => 0
  end.

Definition is_fault (e : os_event) : bool :=
  match e with Fault => true | _ => false end.

(** The lowest descriptor not in use. *)
Definition lowest_free (fds : gmap Z ofd) : option Z :=
  List.find (fun i => bool_decide (fds !! i = None))
            (seqZ 0 (Z.of_nat (size fds) + 1)).

(** [open (path, flags)] and [open (path, flags, perm)]: ENOENT without
    O_CREAT, or whatever the oracle makes fail (EACCES, EMFILE, ...). *)
Definition sys_open (path : string) (flags : Z) (perm : option Z)
    (w : world) : Z * world :=
  let w := log (SysOpen path flags perm) w in
  let '(e, w) := next_event w in
  if is_fault e then (-1, w) else
  let found :=
    match w_fs w !! path with
    | Some i => Some i
    | None => if has_flag flags O_CREAT
              then Some {| i_kind := Regular; i_data := [] |} else None
    end in
  match found, lowest_free (w_fds w) with
  | Some i, Some fd =>
      let i := match i_kind i with
               | Regular => if has_flag flags O_TRUNC && can_write flags
                            then set_data [] i else i
               | Fifo => i
               end in
      let o := {| o_path := path; o_pos := 0; o_flags := flags;
                  o_cloexec := false |} in
      (fd, set_fds (<[fd := o]> (w_fds w)) (set_fs (<[path := i]> (w_fs w)) w))
  | _, _ => (-1, w)
  end.

(** [fcntl (fd, F_SETFD, FD_CLOEXEC)]. *)
Definition sys_fcntl_cloexec (fd : Z) (w : world) : Z * world :=
  let w := log (SysFcntl fd) w in
  match w_fds w !! fd with
  | Some o =>
      let o := {| o_path := o_path o; o_pos := o_pos o;
                  o_flags := o_flags o; o_cloexec := true |} in
      (0, set_fds (<[fd := o]> (w_fds w)) w)
  | None => (-1, w)
  end.

(** [read (fd, buf, count)]: the number of bytes read (0 at end of file)
    or -1, and the bytes. *)
Definition sys_read (fd count : Z) (w : world) : Z * list byte * world :=
  let w := log (SysRead fd count) w in
  match resolve fd w with
  | Some (o, i) =>
      if negb (can_read (o_flags o)) then (-1, [], w) else
      let '(e, w) := next_event w in
      if is_fault e then (-1, [], w) else
      let rest := drop (Z.to_nat (o_pos o)) (i_data i) in
      let n := allowed e (Z.min count (Z.of_nat (length rest))) in
      let got := take (Z.to_nat n) rest in
      (n, got, set_fds (<[fd := set_pos (o_pos o + n) o]> (w_fds w)) w)
  | None => (-1, [], w)
  end.

(** The file contents after writing [bs] at offset [pos] (a hole is
    filled with zero bytes). *)
Definition overwrite (pos : nat) (bs data : list byte) : list byte :=
  resize pos "000"%byte data ++ bs ++ drop (pos + length bs)%nat data.

(** [write (fd, buf, count)] with [bs] the [count] bytes at [buf]. *)
Definition sys_write (fd : Z) (bs : list byte) (w : world) : Z * world :=
  let w := log (SysWrite fd (Z.of_nat (length bs))) w in
  match resolve fd w with
  | Some (o, i) =>
      if negb (can_write (o_flags o)) then (-1, w) else
      let '(e, w) := next_event w in
      if is_fault e then (-1, w) else
      let n := allowed e (Z.of_nat (length bs)) in
      let put := take (Z.to_nat n) bs in
      match i_kind i with
      | Regular =>
          let at_ := if has_flag (o_flags o) O_APPEND
                     then Z.of_nat (length (i_data i)) else o_pos o in
          let i := set_data (overwrite (Z.to_nat at_) put (i_data i)) i in
          (n, set_fds (<[fd := set_pos (at_ + n) o]> (w_fds w))
                (set_fs (<[o_path o := i]> (w_fs w)) w))
      | Fifo =>
          let i := set_data (i_data i ++ put) i in
          (n, set_fs (<[o_path o := i]> (w_fs w)) w)
      end
  | None => (-1, w)
  end.

(** The offset a seek aims at; [None] for a [whence] that is none of
    SEEK_SET, SEEK_CUR, SEEK_END. *)
Definition seek_target (whence offset : Z) (o : ofd) (i : inode) : option Z :=
  if whence =? SEEK_SET then Some offset
  else if whence =? SEEK_CUR then Some (o_pos o + offset)
  else if whence =? SEEK_END then Some (Z.of_nat (length (i_data i)) + offset)
  else None.

(** [lseek (fd, offset, whence)]: the new offset, or -1 (EBADF, ESPIPE on a
    FIFO, EINVAL on a bad [whence] or a negative result).  It does not
    touch the device, so the oracle has no say.  The upper limits of the
    system (EOVERFLOW, the largest offset the file system takes) and the
    Linux values SEEK_DATA and SEEK_HOLE are not modelled: the properties
    seek to offsets within the file or to offsets the descriptor had. *)
Definition sys_lseek (fd offset whence : Z) (w : world) : Z * world :=
  let w := log (SysLseek fd offset whence) w in
  match resolve fd w with
  | Some (o, i) =>
      match i_kind i with
      | Fifo => (-1, w)
      | Regular =>
          match seek_target whence offset o i with
          | Some p =>
              if p <? 0 then (-1, w)
              else (p, set_fds (<[fd := set_pos p o]> (w_fds w)) w)
          | None => (-1, w)
          end
      end
  | None => (-1, w)
  end.

(** [fsync (fd)]. *)
Definition sys_fsync (fd : Z) (w : world) : Z * world :=
  let w := log (SysFsync fd) w in
  match resolve fd w with
  | Some (o, i) =>
      match i_kind i with
      | Fifo => (-1, w)
      | Regular =>
          let '(e, w) := next_event w in
          if is_fault e then (-1, w) else (0, w)
      end
  | None => (-1, w)
  end.

(** [ftruncate (fd, length)]: cuts or zero-extends the file; the offset
    of the descriptor stays. *)
Definition sys_ftruncate (fd length : Z) (w : world) : Z * world :=
  let w := log (SysFtruncate fd length) w in
  match resolve fd w with
  | Some (o, i) =>
      match i_kind i with
      | Fifo => (-1, w)
      | Regular =>
          if negb (can_write (o_flags o)) || (length <? 0) then (-1, w) else
          let '(e, w) := next_event w in
          if is_fault e then (-1, w) else
          let i := set_data (resize (Z.to_nat length) "000"%byte (i_data i)) i in
          (0, set_fs (<[o_path o := i]> (w_fs w)) w)
      end
  | None => (-1, w)
  end.

(** [close (fd)]: the descriptor is released whatever happens. *)
Definition sys_close (fd : Z) (w : world) : Z * world :=
  let w := log (SysClose fd) w in
  match w_fds w !! fd with
  | Some _ => (0, set_fds (delete fd (w_fds w)) w)
  | None => (-1, w)
  end.

(** Observations on a descriptor. *)
Definition is_open (fd : Z) (w : world) : Prop := is_Some (w_fds w !! fd).

Definition position (fd : Z) (w : world) : option Z :=
  o_pos <$> (w_fds w !! fd).

Definition contents (fd : Z) (w : world) : option (list byte) :=
  (fun p => i_data p.2) <$> resolve fd w.

Definition seekable (fd : Z) (w : world) : Prop :=
  exists o i, resolve fd w = Some (o, i) /\ i_kind i = Regular.

(** The oracle lets every access from now on go through in full. *)
Definition quiet (w : world) : Prop :=
  forall n, (w_clock w <= n)%nat -> w_oracle w n = Normal.

(** A descriptor open for writing on which every access transfers
    nothing. *)
Definition stalled (fd : Z) (w : world) : Prop :=
  (exists o i, resolve fd w = Some (o, i) /\ can_write (o_flags o) = true)
  /\ forall n, w_oracle w n = Short 0.

(** The calls logged by a run from [w] to [w']. *)
Definition issued (w w' : world) : list syscall :=
  drop (length (w_trace w)) (w_trace w').

End Posix.

(** ** unix-io.c *)
Module UnixIO.
Import CInt Posix.

(** [VFSFile]: the descriptor is kept in the [handle] pointer
    (GINT_TO_POINTER, GPOINTER_TO_INT). *)
Record VFSFile := { handle : Z }.

(** S_IRUSR | S_IWUSR | S_IRGRP | S_IROTH *)
Definition S_IRUSR : Z := 256.
Definition S_IWUSR : Z := 128.
Definition S_IRGRP : Z := 32.
Definition S_IROTH : Z := 4.

(** [mode[0]] of a C string. *)
Definition first_char (mode : string) : ascii :=
  match mode with
  | EmptyString => "000"%char
  | String c _ => c
  end.

(** [strchr (s, c) != NULL] for [c] other than NUL: the scan ends at the
    terminator. *)
Fixpoint strchr (s : string) (c : ascii) : bool :=
  match s with
  | EmptyString => false
  | String a rest =>
      if Ascii.eqb a "000" then false
      else if Ascii.eqb a c then true
      else strchr rest c
  end.

(** The [switch (mode[0])] of unix_fopen: the flags, or [None] where the
    function returns NULL. *)
Definition mode_flag (mode : string) : option Z :=
  let update := strchr mode "+" in
  let c := first_char mode in
  if Ascii.eqb c "r" then
    Some (if update then O_RDWR else O_RDONLY)
  else if Ascii.eqb c "w" then
    Some (Z.lor (Z.lor (if update then O_RDWR else O_WRONLY) O_CREAT) O_TRUNC)
  else if Ascii.eqb c "a" then
    Some (Z.lor (Z.lor (if update then O_RDWR else O_WRONLY) O_CREAT) O_APPEND)
  else None.

(** The permission argument of the open call unix_fopen makes: 0644 with
    O_CREAT, none without. *)
Definition open_perm (flags : Z) : option Z :=
  if negb (Z.land flags O_CREAT =? 0)
  then Some (Z.lor (Z.lor (Z.lor S_IRUSR S_IWUSR) S_IRGRP) S_IROTH)
  else None.

Section Open.
(** [g_filename_from_uri] of GLib: the path, or NULL. *)
Variable g_filename_from_uri : string -> option string.

Definition unix_fopen (uri mode : string) (w : world)
  : option VFSFile * world :=
  match mode_flag mode with
  | None => (None, w)
  | Some flags =>
      match g_filename_from_uri uri with
      | None => (None, w)
      | Some filename =>
          let '(fd, w) :=
            if negb (Z.land flags O_CREAT =? 0)
            then sys_open filename flags
                   (Some (Z.lor (Z.lor (Z.lor S_IRUSR S_IWUSR) S_IRGRP) S_IROTH)) w
            else sys_open filename flags None w in
          if fd =? -1 then (None, w)
          else
            let '(_, w) := sys_fcntl_cloexec fd w in
            (Some {| handle := fd |}, w)
      end
  end.
End Open.

Definition unix_fclose (file : VFSFile) (w : world) : Z * world :=
  let '(r, w) := sys_fsync (handle file) w in
  let result := if r =? -1 then EOF else 0 in
  let '(_, w) := sys_close (handle file) w in
  (result, w).

(** The [while (total < goal)] of unix_fread; [buf] is what has been
    stored at [ptr] so far.  [None]: out of fuel. *)
Fixpoint fread_loop (fuel : nat) (fd goal total : Z) (buf : list byte)
    (w : world) : option (Z * list byte * world) :=
  if total <? goal then
    match fuel with
    | O => None
    | S fuel =>
        let '(r, got, w) := sys_read fd (to_size_t (to_gint (goal - total))) w in
        let readed := to_gint r in
        if readed =? -1 then Some (total, buf, w)
        else if readed =? 0 then Some (total, buf, w)
        else fread_loop fuel fd goal (to_gint (total + readed)) (buf ++ got) w
    end
  else Some (total, buf, w).

(** [gint goal = size * nitems]. *)
Definition byte_goal (size nitems : Z) : Z :=
  to_gint (to_size_t (size * nitems)).

(** [(size > 0) ? total / size : 0], in [size_t]. *)
Definition whole_items (size total : Z) : Z :=
  if 0 <? size then to_size_t total / size else 0.

(** unix_fread: the items read, the bytes stored at [ptr], the world.
    The loop runs with [goal] iterations of fuel, which it never uses up
    (every turn that goes on has read at least one byte). *)
Definition unix_fread (size nitems : Z) (file : VFSFile) (w : world)
  : Z * list byte * world :=
  let goal := byte_goal size nitems in
  match fread_loop (Z.to_nat goal) (handle file) goal 0 [] w with
  | Some (total, buf, w') => (whole_items size total, buf, w')
  | None => (0, [], w)
  end.

(** The [while (total < goal)] of unix_fwrite; [ptr] holds the bytes of
    the caller's buffer. *)
Fixpoint fwrite_loop (fuel : nat) (fd goal total : Z) (ptr : list byte)
    (w : world) : option (Z * world) :=
  if total <? goal then
    match fuel with
    | O => None
    | S fuel =>
        let count := to_size_t (to_gint (goal - total)) in
        let '(r, w) :=
          sys_write fd (take (Z.to_nat count) (drop (Z.to_nat total) ptr)) w in
        let written := to_gint r in
        if written =? -1 then Some (total, w)
        else fwrite_loop fuel fd goal (to_gint (total + written)) ptr w
    end
  else Some (total, w).

(** unix_fwrite, run for at most [fuel] iterations. *)
Definition unix_fwrite (fuel : nat) (ptr : list byte) (size nitems : Z)
    (file : VFSFile) (w : world) : option (Z * world) :=
  let goal := byte_goal size nitems in
  match fwrite_loop fuel (handle file) goal 0 ptr w with
  | Some (total, w') => Some (whole_items size total, w')
  | None => None
  end.

Definition unix_fseek (file : VFSFile) (offset whence : Z) (w : world)
  : Z * world :=
  let '(r, w) := sys_lseek (handle file) offset whence w in
  if r =? -1 then (-1, w) else (0, w).

Definition unix_ftell (file : VFSFile) (w : world) : Z * world :=
  sys_lseek (handle file) 0 SEEK_CUR w.

Definition unix_getc (file : VFSFile) (w : world) : Z * world :=
  let '(n, buf, w) := unix_fread 1 1 file w in
  if n =? 1 then (guchar_to_gint (hd "000"%byte buf), w) else (EOF, w).

Definition unix_ungetc (c : Z) (file : VFSFile) (w : world) : Z * world :=
  let '(r, w) := unix_fseek file (-1) SEEK_CUR w in
  if r =? 0 then (c, w) else (EOF, w).

Definition unix_rewind (file : VFSFile) (w : world) : world :=
  (unix_fseek file 0 SEEK_SET w).2.

Definition unix_feof (file : VFSFile) (w : world) : bool * world :=
  let '(test, w) := unix_getc file w in
  if test =? EOF then (true, w)
  else
    let '(_, w) := unix_ungetc test file w in
    (false, w).

Definition unix_truncate (file : VFSFile) (length : Z) (w : world)
  : bool * world :=
  let '(r, w) := sys_ftruncate (handle file) length w in
  let result := to_gint r in
  if result =? -1 then (false, w) else (true, w).

Definition unix_fsize (file : VFSFile) (w : world) : Z * world :=
  let '(position, w) := unix_ftell file w in
  if position =? -1 then (-1, w)
  else
    let '(_, w) := unix_fseek file 0 SEEK_END w in
    let '(length, w) := unix_ftell file w in
    if length =? -1 then (-1, w)
    else
      let '(_, w) := unix_fseek file position SEEK_SET w in
      (length, w).

End UnixIO.

(** ** playlist_util.c *)
Module Playlist.
Import CInt.

(** [l[i]] for a [gint] index. *)
Definition at_index {A} (l : list A) (i : Z) : option A :=
  if i <? 0 then None else l !! Z.to_nat i.

(** *** The host playlist (the aud_playlist_... calls of the plugin API)

    Each playlist is the list of the selected flags of its entries.  A
    call that names a playlist or an entry that does not exist changes
    nothing and answers 0 or FALSE.  Whether an update is pending is what
    the host reports: the model keeps the flag as it is across the
    selection calls and does not say whether the host queues an update on
    them, so the properties of the functions that ask for the flag after
    such a call are stated for the flag as the host then reports it. *)
Record host := { h_playlists : list (list bool); h_update_pending : bool }.

Definition set_playlists (ps : list (list bool)) (h : host) : host :=
  {| h_playlists := ps; h_update_pending := h_update_pending h |}.

Definition aud_playlist_entry_count (list : Z) (h : host) : Z :=
  match at_index (h_playlists h) list with
  | Some es => Z.of_nat (length es)
  | None => 0
  end.

Definition aud_playlist_entry_get_selected (list entry : Z) (h : host) : bool :=
  match at_index (h_playlists h) list with
  | Some es => default false (at_index es entry)
  | None => false
  end.

Definition aud_playlist_entry_set_selected (list entry : Z) (selected : bool)
    (h : host) : host :=
  match at_index (h_playlists h) list with
  | Some es =>
      if entry <? 0 then h
      else set_playlists
             (<[Z.to_nat list := <[Z.to_nat entry := selected]> es]> (h_playlists h)) h
  | None => h
  end.

Definition aud_playlist_select_all (list : Z) (selected : bool) (h : host)
  : host :=
  match at_index (h_playlists h) list with
  | Some es =>
      set_playlists
        (<[Z.to_nat list := replicate (length es) selected]> (h_playlists h)) h
  | None => h
  end.

Definition aud_playlist_update_pending (h : host) : bool := h_update_pending h.

(** *** playlist_select_range, playlist_count_selected_in_range

    [for (count = 0; count < length; count ++)] visits [seqZ 0 length]. *)
Definition playlist_select_range (list top length : Z) (h : host) : host :=
  foldl (fun h count =>
           aud_playlist_entry_set_selected list (to_gint (top + count)) true h)
        (aud_playlist_select_all list false h)
        (seqZ 0 length).

Definition playlist_count_selected_in_range (list top length : Z) (h : host)
  : Z :=
  foldl (fun selected count =>
           if aud_playlist_entry_get_selected list (to_gint (top + count)) h
           then to_gint (selected + 1) else selected)
        0
        (seqZ 0 length).

(** *** The tree view *)

(** Modelled from the spec: the UiPlaylistModel record of
    ui_playlist_model.h, "a per-view record tracking (a) a reference to
    which playlist (by index) the view displays, (b) deferred focus
    changed and selection changed flags, (c) a pending target focus
    row". *)
Record UiPlaylistModel := {
  playlist : Z;
  focus_changed : bool;
  selection_changed : bool;
  focus : Z
}.

(** What the toolkit and the widget were asked to do, in order. *)
Inductive ui_event :=
| EvBlockUpdates (block : bool)
| EvSetCursor (row : Z)
| EvScrollToCell (row : Z)
| EvSelectRow (row : Z)
| EvUnselectRow (row : Z).

(** A GtkTreeView in multiple-selection mode over its model: the visual
    selected state of each row (one per row of the tree model), the cursor
    row, the row last scrolled to. *)
Record tree_view := {
  tv_model : UiPlaylistModel;
  tv_selected : list bool;
  tv_cursor : option Z;
  tv_scrolled : option Z;
  tv_blocked : bool;
  tv_log : list ui_event
}.

(** The plugin's state: the host and one tree view. *)
Record ui := { ui_host : host; ui_tree : tree_view }.

Definition with_model (m : UiPlaylistModel) (t : tree_view) : tree_view :=
  {| tv_model := m; tv_selected := tv_selected t; tv_cursor := tv_cursor t;
     tv_scrolled := tv_scrolled t; tv_blocked := tv_blocked t;
     tv_log := tv_log t |}.

Definition ui_log (e : ui_event) (t : tree_view) : tree_view :=
  {| tv_model := tv_model t; tv_selected := tv_selected t;
     tv_cursor := tv_cursor t; tv_scrolled := tv_scrolled t;
     tv_blocked := tv_blocked t; tv_log := tv_log t ++ [e] |}.

Definition with_selected (s : list bool) (t : tree_view) : tree_view :=
  {| tv_model := tv_model t; tv_selected := s; tv_cursor := tv_cursor t;
     tv_scrolled := tv_scrolled t; tv_blocked := tv_blocked t;
     tv_log := tv_log t |}.

Definition row_exists (t : tree_view) (row : Z) : bool :=
  (0 <=? row) && (row <? Z.of_nat (length (tv_selected t))).

(** Modelled from the spec: the iterator of the tree model
    (ui_playlist_model.c), "Row path: toolkit-specific addressing of a
    tree row, here always a single flat index".  [None] is the iterator
    that stopped being valid. *)
Definition gtk_tree_model_get_iter_first (t : tree_view) : option Z :=
  if row_exists t 0 then Some 0 else None.

Definition gtk_tree_model_iter_next (t : tree_view) (iter : option Z)
  : option Z :=
  match iter with
  | Some row => if row_exists t (row + 1) then Some (row + 1) else None
  | None => None
  end.

(** gtk_tree_selection_select_iter, gtk_tree_selection_unselect_iter. *)
Definition gtk_tree_selection_set_iter (selected : bool) (iter : option Z)
    (t : tree_view) : tree_view :=
  match iter with
  | Some row =>
      ui_log (if selected then EvSelectRow row else EvUnselectRow row)
             (with_selected (<[Z.to_nat row := selected]> (tv_selected t)) t)
  | None => t
  end.

(** gtk_tree_view_set_cursor (tree, path, NULL, FALSE): the cursor moves
    to the row, which becomes the only selected one.  What the toolkit does
    to the cursor when the path names no row is not modelled (the model
    keeps it): the properties speak of the cursor only after a call on a
    row that is there. *)
Definition gtk_tree_view_set_cursor (row : Z) (t : tree_view) : tree_view :=
  let t := ui_log (EvSetCursor row) t in
  if row_exists t row then
    {| tv_model := tv_model t;
       tv_selected :=
         <[Z.to_nat row := true]> (replicate (length (tv_selected t)) false);
       tv_cursor := Some row; tv_scrolled := tv_scrolled t;
       tv_blocked := tv_blocked t; tv_log := tv_log t |}
  else t.

Definition gtk_tree_view_scroll_to_cell (row : Z) (t : tree_view) : tree_view :=
  let t := ui_log (EvScrollToCell row) t in
  if row_exists t row then
    {| tv_model := tv_model t; tv_selected := tv_selected t;
       tv_cursor := tv_cursor t; tv_scrolled := Some row;
       tv_blocked := tv_blocked t; tv_log := tv_log t |}
  else t.

(** Modelled from the spec: ui_playlist_widget_block_updates of
    ui_playlist_widget.c, "UI update notifications suppressed during the
    direct-apply path". *)
Definition ui_playlist_widget_block_updates (block : bool) (t : tree_view)
  : tree_view :=
  let t := ui_log (EvBlockUpdates block) t in
  {| tv_model := tv_model t; tv_selected := tv_selected t;
     tv_cursor := tv_cursor t; tv_scrolled := tv_scrolled t;
     tv_blocked := block; tv_log := tv_log t |}.

Definition on_tree (f : tree_view -> tree_view) (s : ui) : ui :=
  {| ui_host := ui_host s; ui_tree := f (ui_tree s) |}.

Definition on_host (f : host -> host) (s : ui) : ui :=
  {| ui_host := f (ui_host s); ui_tree := ui_tree s |}.

(** *** The view helpers *)

Definition treeview_get_focus (s : ui) : Z :=
  match tv_cursor (ui_tree s) with
  | Some row => row
  | None => -1
  end.

(** One turn of the [for] of treeview_refresh_selection_now: the tree and
    the iterator. *)
Definition refresh_row (h : host) (list : Z) (st : tree_view * option Z)
    (count : Z) : tree_view * option Z :=
  let '(t, iter) := st in
  let t := gtk_tree_selection_set_iter
             (aud_playlist_entry_get_selected list count h) iter t in
  (t, gtk_tree_model_iter_next t iter).

Definition treeview_refresh_selection_now (s : ui) : ui :=
  let model := tv_model (ui_tree s) in
  let entries := aud_playlist_entry_count (playlist model) (ui_host s) in
  if entries =? 0 then s
  else
    let iter := gtk_tree_model_get_iter_first (ui_tree s) in
    on_tree (fun t =>
               (foldl (refresh_row (ui_host s) (playlist model)) (t, iter)
                      (seqZ 0 entries)).1) s.

Definition treeview_set_focus_now (focus : Z) (s : ui) : ui :=
  let model := tv_model (ui_tree s) in
  let go (focus : Z) :=
    let s := on_tree (gtk_tree_view_set_cursor focus) s in
    let s := on_tree (gtk_tree_view_scroll_to_cell focus) s in
    treeview_refresh_selection_now s in
  if focus <? 0 then
    if aud_playlist_entry_count (playlist model) (ui_host s) =? 0 then s
    else go 0
  else go focus.

Definition treeview_set_focus (focus : Z) (s : ui) : ui :=
  let model := tv_model (ui_tree s) in
  if aud_playlist_update_pending (ui_host s) then
    on_tree (with_model {| playlist := playlist model; focus_changed := true;
                           selection_changed := selection_changed model;
                           focus := focus |}) s
  else
    let s := on_tree (ui_playlist_widget_block_updates true) s in
    let s := treeview_set_focus_now focus s in
    on_tree (ui_playlist_widget_block_updates false) s.

Definition treeview_refresh_selection (s : ui) : ui :=
  let model := tv_model (ui_tree s) in
  if aud_playlist_update_pending (ui_host s) then
    on_tree (with_model {| playlist := playlist model;
                           focus_changed := focus_changed model;
                           selection_changed := true;
                           focus := focus model |}) s
  else
    let s := on_tree (ui_playlist_widget_block_updates true) s in
    let s := treeview_refresh_selection_now s in
    on_tree (ui_playlist_widget_block_updates false) s.

Definition playlist_scroll_to_row (row : Z) (s : ui) : ui :=
  let list := playlist (tv_model (ui_tree s)) in
  let s := on_host (aud_playlist_select_all list false) s in
  let s := on_host (aud_playlist_entry_set_selected list row true) s in
  treeview_set_focus row s.

(** The events logged by a run from [s] to [s']. *)
Definition ui_issued (s s' : ui) : list ui_event :=
  drop (length (tv_log (ui_tree s))) (tv_log (ui_tree s')).

(** The selected flags the host holds for playlist [pl], row by row. *)
Definition authoritative_flags (pl : Z) (h : host) : list bool :=
  (fun row => aud_playlist_entry_get_selected pl row h)
    <$> seqZ 0 (aud_playlist_entry_count pl h).

(** What shows: the host, the model record, the selection, the cursor,
    the scroll position. *)
Definition visible (s : ui)
  : host * UiPlaylistModel * list bool * option Z * option Z :=
  (ui_host s, tv_model (ui_tree s), tv_selected (ui_tree s),
   tv_cursor (ui_tree s), tv_scrolled (ui_tree s)).

(** The same tree with the blocked flag set to [b] and [pre] put in front
    of its log. *)
Definition rebase (pre : list ui_event) (b : bool) (t : tree_view) : tree_view :=
  {| tv_model := tv_model t; tv_selected := tv_selected t;
     tv_cursor := tv_cursor t; tv_scrolled := tv_scrolled t;
     tv_blocked := b; tv_log := pre ++ tv_log t |}.

Definition is_block_event (e : ui_event) : bool :=
  match e with EvBlockUpdates _ => true | _ => false end.

(** No block event in the log. *)
Definition quiet_log (t : tree_view) : Prop :=
  Forall (fun e => is_block_event e = false) (tv_log t).

(** The same tree with an empty log. *)
Definition clear_log (t : tree_view) : tree_view :=
  {| tv_model := tv_model t; tv_selected := tv_selected t;
     tv_cursor := tv_cursor t; tv_scrolled := tv_scrolled t;
     tv_blocked := tv_blocked t; tv_log := [] |}.

End Playlist.

(** ** The seek pattern the specification names *)
Module SeekPattern.
Import Posix.

(** The (offset, whence) pairs of the lseek calls on [fd] among [evs]. *)
Definition seek_steps (fd : Z) (evs : list syscall) : list (Z * Z) :=
  omap (fun c =>
          match c with
          | SysLseek fd' offset whence =>
              if fd' =? fd then Some (offset, whence) else None
          | _ => None
          end) evs.

(** "save-position / seek-to-end / seek-back": the seeks start with a
    query of the current offset and a seek to the end and finish with an
    absolute seek. *)
Definition save_end_back (fd : Z) (evs : list syscall) : bool :=
  match seek_steps fd evs with
  | (o1, w1) :: (o2, w2) :: rest =>
      (o1 =? 0) && (w1 =? SEEK_CUR) && (o2 =? 0) && (w2 =? SEEK_END)
      && match last rest with
         | Some (_, w3) => w3 =? SEEK_SET
         | None => false
         end
  | _ => false
  end.

End SeekPattern.

(** ** The open modes as the specification lists them *)
Module OpenModes.
Import Posix.

(** r: read-only; r+: read-write; w: write-only with create and truncate;
    w+: read-write with create and truncate; a: write-only with create and
    append; a+: read-write with create and append. *)
Definition documented_flags : list (string * Z) :=
  [ ("r"%string,  O_RDONLY);
    ("r+"%string, O_RDWR);
    ("w"%string,  Z.lor O_WRONLY (Z.lor O_CREAT O_TRUNC));
    ("w+"%string, Z.lor O_RDWR (Z.lor O_CREAT O_TRUNC));
    ("a"%string,  Z.lor O_WRONLY (Z.lor O_CREAT O_APPEND));
    ("a+"%string, Z.lor O_RDWR (Z.lor O_CREAT O_APPEND)) ].

End OpenModes.

(** ** Concrete worlds and playlists used to run the functions *)
Module Samples.
Import Posix UnixIO.

Definition calm : nat -> os_event := fun _ => Normal.

(** One file at /tmp/a, open on descriptor 3 at offset [pos]. *)
Definition one_file (kind : file_kind) (data : list byte) (flags pos : Z)
    (oracle : nat -> os_event) : world :=
  {| w_fs := {[ "/tmp/a"%string := {| i_kind := kind; i_data := data |} ]};
     w_fds := {[ 3 := {| o_path := "/tmp/a"; o_pos := pos; o_flags := flags;
                         o_cloexec := true |} ]};
     w_oracle := oracle; w_clock := 0%nat; w_trace := [] |}.

Definition abc : list byte := ["a"%byte; "b"%byte; "c"%byte].

Definition fd3 : VFSFile := {| handle := 3 |}.

(** A host with one playlist of six entries, the first and the last
    selected, and no update pending. *)
Definition six_rows : Playlist.host :=
  {| Playlist.h_playlists := [[true; false; false; false; false; true]];
     Playlist.h_update_pending := false |}.

(** The file there, nothing open. *)
Definition closed_world (oracle : nat -> os_event) : world :=
  {| w_fs := {[ "/tmp/a"%string := {| i_kind := Regular; i_data := abc |} ]};
     w_fds := ∅; w_oracle := oracle; w_clock := 0%nat; w_trace := [] |}.

(** A stand-in for g_filename_from_uri: the path after "file://". *)
Definition strip_scheme (uri : string) : option string :=
  if String.prefix "file://" uri
  then Some (String.substring 7 (String.length uri - 7) uri)
  else None.


(** A tree over that playlist showing the selection [sel]. *)
Definition six_view (sel : list bool) (pending : bool) : Playlist.ui :=
  {| Playlist.ui_host :=
       {| Playlist.h_playlists := Playlist.h_playlists six_rows;
          Playlist.h_update_pending := pending |};
     Playlist.ui_tree :=
       {| Playlist.tv_model :=
            {| Playlist.playlist := 0; Playlist.focus_changed := false;
               Playlist.selection_changed := false; Playlist.focus := -1 |};
          Playlist.tv_selected := sel; Playlist.tv_cursor := None;
          Playlist.tv_scrolled := None; Playlist.tv_blocked := false;
          Playlist.tv_log := [] |} |}.

End Samples.

(** ** playlist_util.c: paths and the selection as a list *)
Module PlaylistPaths.
Import CInt Playlist.

(** A GtkTreePath is its list of indices; a [GtkTreePath *] may be NULL. *)
Definition GtkTreePath := list Z.

(** gtk_tree_path_new_from_indices (pos, -1): the indices up to the first
    -1; an index below 0 is not appended. *)
Definition gtk_tree_path_new_from_indices (pos : Z) : GtkTreePath :=
  if pos <? 0 then [] else [pos].

(** gtk_tree_path_get_indices: NULL for a path without indices. *)
Definition gtk_tree_path_get_indices (path : GtkTreePath) : option (list Z) :=
  match path with
  | [] => None
  | _ => Some path
  end.

Definition playlist_get_index_from_path (path : option GtkTreePath) : Z :=
  match path with
  | None => -1
  | Some path =>
      match gtk_tree_path_get_indices path with
      | None => -1
      | Some pos => hd 0 pos
      end
  end.

(** The row a path names in the flat model, if it names one. *)
Definition path_row (t : tree_view) (path : option GtkTreePath) : option Z :=
  match path with
  | Some [row] => if row_exists t row then Some row else None
  | _ => None
  end.

(** gtk_tree_selection_unselect_all. *)
Definition gtk_tree_selection_unselect_all (t : tree_view) : tree_view :=
  with_selected (replicate (length (tv_selected t)) false) t.

(** gtk_tree_selection_select_path: nothing for NULL or for a path that
    names no row. *)
Definition gtk_tree_selection_select_path (path : option GtkTreePath)
    (t : tree_view) : tree_view :=
  match path_row t path with
  | Some row => gtk_tree_selection_set_iter true (Some row) t
  | None => t
  end.

(** gtk_tree_view_set_cursor (tree, path, NULL, FALSE) with a path:
    nothing for NULL or for a path that is not one index long. *)
Definition gtk_tree_view_set_cursor_path (path : option GtkTreePath)
    (t : tree_view) : tree_view :=
  match path with
  | Some [row] => gtk_tree_view_set_cursor row t
  | _ => t
  end.

(** gtk_tree_selection_get_selected_rows: the paths of the selected rows,
    top down. *)
Definition gtk_tree_selection_get_selected_rows (t : tree_view)
  : list (option GtkTreePath) :=
  omap (fun '(row, sel) => if sel : bool then Some (Some [Z.of_nat row]) else None)
       (imap (fun row sel => (row, sel)) (tv_selected t)).

Definition playlist_set_selected (path : option GtkTreePath) (s : ui) : ui :=
  let s := on_tree gtk_tree_selection_unselect_all s in
  let s := on_tree (gtk_tree_selection_select_path path) s in
  on_tree (gtk_tree_view_set_cursor_path path) s.

(** One turn of the [for] of playlist_set_selected_list; [first] says
    whether [target->prev] is NULL. *)
Definition select_shifted (distance : Z) (first : bool)
    (data : option GtkTreePath) (t : tree_view) : tree_view :=
  match data with
  | None => t
  | Some _ =>
      let pos := to_gint (playlist_get_index_from_path data + distance) in
      let path := Some (gtk_tree_path_new_from_indices pos) in
      let t := gtk_tree_selection_select_path path t in
      if first then gtk_tree_view_set_cursor_path path t else t
  end.

(** playlist_set_selected_list, handed the head of the list; [None] where
    the code reads [g_list_first (list)->data] of an empty list. *)
Definition playlist_set_selected_list (list : list (option GtkTreePath))
    (distance : Z) (s : ui) : option ui :=
  let s := on_tree gtk_tree_selection_unselect_all s in
  if distance =? 0 then
    match list with
    | [] => None
    | data :: _ =>
        let s := on_tree (gtk_tree_view_set_cursor_path data) s in
        Some (on_tree (fun t => foldl (fun t path =>
                                         gtk_tree_selection_select_path path t)
                                      t list) s)
    end
  else
    match list with
    | [] => Some s
    | data :: rest =>
        Some (on_tree (fun t => foldl (fun t path =>
                                         select_shifted distance false path t)
                                      (select_shifted distance true data t)
                                      rest) s)
    end.

Definition playlist_get_selected_list (s : ui) : list (option GtkTreePath) :=
  gtk_tree_selection_get_selected_rows (ui_tree s).

Definition playlist_get_selected_length (s : ui) : Z :=
  to_gint (Z.of_nat (length (playlist_get_selected_list s))).

Definition playlist_get_first_selected_path (s : ui) : option GtkTreePath :=
  match playlist_get_selected_list s with
  | [] => None
  | data :: _ => data
  end.

Definition playlist_get_first_selected_index (s : ui) : Z :=
  match playlist_get_first_selected_path s with
  | None => -1
  | Some path => playlist_get_index_from_path (Some path)
  end.

(** The paths of the selected rows of [sel], the rows numbered from [k]
    on. *)
Definition rows_from (k : nat) (sel : list bool) : list (option GtkTreePath) :=
  omap (fun '(row, sel) => if sel : bool then Some (Some [Z.of_nat row]) else None)
       (imap (fun row sel => ((k + row)%nat, sel)) sel).

(** The path one turn of the [for] of playlist_set_selected_list selects
    for the entry [data]; [None] for an entry it skips. *)
Definition shifted_path (distance : Z) (data : option GtkTreePath)
  : option GtkTreePath :=
  match data with
  | None => None
  | Some _ =>
      Some (gtk_tree_path_new_from_indices
              (to_gint (playlist_get_index_from_path data + distance)))
  end.

(** The visual selected state of a row; FALSE for a row that is not
    there. *)
Definition row_selected (s : ui) (row : Z) : bool :=
  default false (at_index (tv_selected (ui_tree s)) row).

End PlaylistPaths.

(** ** Observations used for the further properties *)
Module Observe.
Import Posix UnixIO.

(** From now on no access fails and none transfers nothing: transfers may
    still be short. *)
Definition steady (w : world) : Prop :=
  forall n, (w_clock w <= n)%nat ->
            w_oracle w n <> Fault /\ w_oracle w n <> Short 0.

(** The bytes from the offset of the description to the end of the file. *)
Definition unread (o : ofd) (i : inode) : list byte :=
  drop (Z.to_nat (o_pos o)) (i_data i).


(** The flags, the close-on-exec mark and the path behind a descriptor. *)
Definition open_flags (fd : Z) (w : world) : option Z :=
  o_flags <$> (w_fds w !! fd).

Definition close_on_exec (fd : Z) (w : world) : option bool :=
  o_cloexec <$> (w_fds w !! fd).

Definition open_path (fd : Z) (w : world) : option string :=
  o_path <$> (w_fds w !! fd).

(** The file an open leaves at [path]: the one that was there, emptied
    when O_TRUNC comes with write access, or a new empty one with O_CREAT. *)
Definition opened_file (flags : Z) (found : option inode) : option inode :=
  match found with
  | Some i =>
      Some (match i_kind i with
            | Regular => if has_flag flags O_TRUNC && can_write flags
                         then set_data [] i else i
            | Fifo => i
            end)
  | None => if has_flag flags O_CREAT
            then Some {| i_kind := Regular; i_data := [] |} else None
  end.

(** A world as the system calls keep it: every open description names a
    file that is there and has a non-negative offset. *)
Definition well_formed (w : world) : Prop :=
  forall fd o, w_fds w !! fd = Some o ->
               0 <= o_pos o /\ is_Some (w_fs w !! o_path o).

End Observe.

(** ** More worlds to run the functions in *)
Module MoreSamples.
Import Posix UnixIO.

(** Every access transfers one byte at most. *)
Definition dribble : nat -> os_event := fun _ => Short 1.

(** The first access fails, the later ones go through. *)
Definition fails_once : nat -> os_event :=
  fun n => match n with O => Fault | _ => Normal end.

Definition hello : list byte :=
  ["h"%byte; "e"%byte; "l"%byte; "l"%byte; "o"%byte].

End MoreSamples.

(** * Properties *)

Import CInt Posix UnixIO Playlist.

(** ** Integer conversions *)

(** Closes a bound on a C integer once the limits are numbers. *)
Ltac fits := unfold G_MININT, G_MAXINT, SIZE_MAX in *; lia.

Lemma to_gint_id x : G_MININT <= x <= G_MAXINT -> to_gint x = x.
Proof.
  unfold to_gint, wrap_signed, G_MININT, G_MAXINT. intros H.
  change (2 ^ (32 - 1)) with 2147483648. change (2 ^ 32) with 4294967296.
  rewrite Z.mod_small; lia.
Qed.

Lemma to_size_t_id x : 0 <= x <= SIZE_MAX -> to_size_t x = x.
Proof.
  unfold to_size_t, wrap_unsigned, SIZE_MAX. intros H.
  change (2 ^ 64) with 18446744073709551616.
  rewrite Z.mod_small; lia.
Qed.

Lemma to_gint_range x : G_MININT <= to_gint x <= G_MAXINT.
Proof.
  unfold to_gint, wrap_signed, G_MININT, G_MAXINT.
  change (2 ^ (32 - 1)) with 2147483648. change (2 ^ 32) with 4294967296.
  pose proof (Z.mod_pos_bound (x + 2147483648) 4294967296 ltac:(lia)). lia.
Qed.

Lemma to_size_t_range x : 0 <= to_size_t x <= SIZE_MAX.
Proof.
  unfold to_size_t, wrap_unsigned, SIZE_MAX.
  change (2 ^ 64) with 18446744073709551616.
  pose proof (Z.mod_pos_bound x 18446744073709551616 ltac:(lia)). lia.
Qed.

Lemma byte_goal_small size nitems :
  0 <= size * nitems <= G_MAXINT -> byte_goal size nitems = size * nitems.
Proof.
  intros H. unfold byte_goal. unfold G_MAXINT in H.
  rewrite to_size_t_id by fits.
  apply to_gint_id. unfold G_MININT, G_MAXINT. lia.
Qed.

Lemma guchar_to_gint_range c : 0 <= guchar_to_gint c <= 255.
Proof.
  unfold guchar_to_gint. pose proof (Byte.to_N_bounded c). lia.
Qed.

(** ** The system calls: what they log and what they return *)

Lemma issued_app w w' evs :
  w_trace w' = w_trace w ++ evs -> issued w w' = evs.
Proof. intros H. unfold issued. rewrite H. apply drop_app_length. Qed.

Lemma sys_fsync_trace fd w :
  w_trace (sys_fsync fd w).2 = w_trace w ++ [SysFsync fd].
Proof.
  unfold sys_fsync. destruct (resolve fd _) as [[o i]|]; [|done].
  destruct (i_kind i); [|done]. cbn.
  by destruct (is_fault _).
Qed.

Lemma sys_fsync_result fd w : (sys_fsync fd w).1 = -1 \/ (sys_fsync fd w).1 = 0.
Proof.
  unfold sys_fsync. destruct (resolve fd _) as [[o i]|]; [|by left].
  destruct (i_kind i); [|by left]. cbn.
  destruct (is_fault _); [by left | by right].
Qed.

Lemma sys_close_trace fd w :
  w_trace (sys_close fd w).2 = w_trace w ++ [SysClose fd].
Proof. unfold sys_close. by destruct (w_fds _ !! fd). Qed.

Lemma sys_close_closed fd w : w_fds (sys_close fd w).2 !! fd = None.
Proof.
  unfold sys_close. cbn. destruct (w_fds w !! fd) eqn:E; cbn.
  - apply lookup_delete_eq.
  - exact E.
Qed.

(** ** unix_fclose *)

(** C9. On an open handle unix_fclose issues fsync and then close on the
    descriptor and nothing else; it returns EOF exactly when the fsync
    failed and 0 otherwise; the descriptor is closed afterwards whichever
    way the fsync went. *)
Theorem unix_fclose_sync_then_close file w :
  is_open (handle file) w ->
  issued w (unix_fclose file w).2
    = [SysFsync (handle file); SysClose (handle file)]
  /\ ((unix_fclose file w).1 = EOF <-> (sys_fsync (handle file) w).1 = -1)
  /\ ((unix_fclose file w).1 <> EOF -> (unix_fclose file w).1 = 0)
  /\ ~ is_open (handle file) (unix_fclose file w).2.
Proof.
  intros _. unfold unix_fclose.
  pose proof (sys_fsync_trace (handle file) w) as Ht.
  pose proof (sys_fsync_result (handle file) w) as Hr.
  destruct (sys_fsync (handle file) w) as [r w1] eqn:Es. cbn in Ht, Hr.
  pose proof (sys_close_trace (handle file) w1) as Hc.
  pose proof (sys_close_closed (handle file) w1) as Hd.
  destruct (sys_close (handle file) w1) as [c w2] eqn:Ec. cbn in Hc, Hd. cbn.
  repeat split.
  - apply issued_app. rewrite Hc, Ht. by rewrite <- app_assoc.
  - destruct (r =? -1) eqn:E; [lia | unfold EOF; discriminate].
  - intros ->. reflexivity.
  - destruct Hr as [-> | ->]; cbn; unfold EOF; intros H; [done | reflexivity].
  - unfold is_open. rewrite Hd. by intros [x Hx].
Qed.

(** unix_fclose on an open descriptor of a regular file, no fault: 0, and
    the descriptor is gone. *)
Lemma unix_fclose_sync_then_close_witness :
  let w := Samples.one_file Regular Samples.abc O_RDWR 1 Samples.calm in
  is_open 3 w
  /\ (unix_fclose Samples.fd3 w).1 = 0
  /\ ~ is_open 3 (unix_fclose Samples.fd3 w).2.
Proof.
  cbv zeta.
  assert (Ho : is_open 3 (Samples.one_file Regular Samples.abc O_RDWR 1 Samples.calm)).
  { unfold is_open. vm_compute. eauto. }
  pose proof (unix_fclose_sync_then_close Samples.fd3 _ Ho) as (_ & _ & H0 & Hc).
  split; [exact Ho|]. split; [|exact Hc].
  apply H0. vm_compute. discriminate.
Defined.

(** ** Element size 0 *)


(** ** unix_fopen *)

Lemma sys_open_trace path flags perm w :
  w_trace (sys_open path flags perm w).2
    = w_trace w ++ [SysOpen path flags perm].
Proof.
  unfold sys_open. cbn. destruct (is_fault _); [done|].
  destruct (match w_fs w !! path with Some _ => _ | None => _ end); [|done].
  cbn. by destruct (lowest_free _).
Qed.

Lemma sys_fcntl_cloexec_trace fd w :
  w_trace (sys_fcntl_cloexec fd w).2 = w_trace w ++ [SysFcntl fd].
Proof. unfold sys_fcntl_cloexec. cbn. by destruct (w_fds w !! fd). Qed.

Lemma documented_flags_mode_flag mode flags :
  In (mode, flags) OpenModes.documented_flags -> mode_flag mode = Some flags.
Proof.
  unfold OpenModes.documented_flags. cbn [In].
  intros H. repeat (destruct H as [H|H]; [by inversion H|]). done.
Qed.

Lemma unix_fopen_call conv uri mode flags filename w :
  mode_flag mode = Some flags -> conv uri = Some filename ->
  unix_fopen conv uri mode w
  = (let '(fd, w1) := sys_open filename flags (open_perm flags) w in
     if fd =? -1 then (None, w1)
     else (Some {| handle := fd |}, (sys_fcntl_cloexec fd w1).2)).
Proof.
  intros Hm Hc. unfold unix_fopen, open_perm. rewrite Hm, Hc.
  destruct (negb (Z.land flags O_CREAT =? 0));
    destruct (sys_open _ _ _ w) as [fd w1]; destruct (fd =? -1); try done;
    by destruct (sys_fcntl_cloexec fd w1).
Qed.

Lemma unix_fopen_first_call conv uri mode flags filename w :
  mode_flag mode = Some flags -> conv uri = Some filename ->
  head (issued w (unix_fopen conv uri mode w).2)
    = Some (SysOpen filename flags (open_perm flags)).
Proof.
  intros Hm Hc. rewrite (unix_fopen_call _ _ _ _ _ _ Hm Hc).
  pose proof (sys_open_trace filename flags (open_perm flags) w) as Ht.
  destruct (sys_open filename flags (open_perm flags) w) as [fd w1]. cbn in Ht.
  destruct (fd =? -1).
  - cbn. erewrite issued_app by exact Ht. done.
  - pose proof (sys_fcntl_cloexec_trace fd w1) as Hf. cbn [snd].
    erewrite issued_app; [|rewrite Hf, Ht, <- app_assoc; reflexivity]. done.
Qed.

(** C3. For each of the modes r, r+, w, w+, a, a+ the first call unix_fopen
    issues is open on the converted path with exactly the documented flags.
    A mode whose first character is none of r, w, a, a URI that the
    conversion rejects, and an open that fails each give the NULL handle. *)
Theorem unix_fopen_modes_and_failures
    (conv : string -> option string) (uri mode : string) (w : world) :
  (forall flags filename,
     In (mode, flags) OpenModes.documented_flags ->
     conv uri = Some filename ->
     head (issued w (unix_fopen conv uri mode w).2)
       = Some (SysOpen filename flags (open_perm flags)))
  /\ (first_char mode <> "r"%char -> first_char mode <> "w"%char ->
      first_char mode <> "a"%char ->
      (unix_fopen conv uri mode w).1 = None)
  /\ (conv uri = None -> (unix_fopen conv uri mode w).1 = None)
  /\ (forall flags filename,
        mode_flag mode = Some flags -> conv uri = Some filename ->
        (sys_open filename flags (open_perm flags) w).1 = -1 ->
        (unix_fopen conv uri mode w).1 = None).
Proof.
  split; [|split; [|split]].
  - intros flags filename Hin Hc.
    apply unix_fopen_first_call; [by apply documented_flags_mode_flag | exact Hc].
  - intros Hr Hw Ha. unfold unix_fopen, mode_flag.
    destruct (Ascii.eqb_spec (first_char mode) "r"); [done|].
    destruct (Ascii.eqb_spec (first_char mode) "w"); [done|].
    destruct (Ascii.eqb_spec (first_char mode) "a"); [done|]. reflexivity.
  - intros Hc. unfold unix_fopen. rewrite Hc. by destruct (mode_flag mode).
  - intros flags filename Hm Hc Hfail.
    rewrite (unix_fopen_call _ _ _ _ _ _ Hm Hc).
    destruct (sys_open _ _ _ w) as [fd w1]. cbn in Hfail. subst fd. reflexivity.
Qed.

(** The four parts of C3 at work: "w+" on an existing file, the mode "x",
    a URI without the file scheme, "r" on a file that is not there. *)
Lemma unix_fopen_modes_and_failures_witness :
  let w := Samples.closed_world Samples.calm in
  head (issued w (unix_fopen Samples.strip_scheme "file:///tmp/a" "w+" w).2)
    = Some (SysOpen "/tmp/a" (Z.lor O_RDWR (Z.lor O_CREAT O_TRUNC)) (Some 420))
  /\ (unix_fopen Samples.strip_scheme "file:///tmp/a" "x" w).1 = None
  /\ (unix_fopen Samples.strip_scheme "http://a/b" "r" w).1 = None
  /\ (unix_fopen Samples.strip_scheme "file:///tmp/none" "r" w).1 = None.
Proof.
  cbv zeta. set (w := Samples.closed_world Samples.calm).
  split; [|split; [|split]].
  - destruct (unix_fopen_modes_and_failures Samples.strip_scheme
                "file:///tmp/a" "w+" w) as (H & _).
    apply (H (Z.lor O_RDWR (Z.lor O_CREAT O_TRUNC)) "/tmp/a"%string);
      [vm_compute; tauto | reflexivity].
  - destruct (unix_fopen_modes_and_failures Samples.strip_scheme
                "file:///tmp/a" "x" w) as (_ & H & _).
    apply H; cbn; discriminate.
  - destruct (unix_fopen_modes_and_failures Samples.strip_scheme
                "http://a/b" "r" w) as (_ & _ & H & _).
    apply H. reflexivity.
  - destruct (unix_fopen_modes_and_failures Samples.strip_scheme
                "file:///tmp/none" "r" w) as (_ & _ & _ & H).
    apply (H O_RDONLY "/tmp/none"%string); [reflexivity | reflexivity |].
    vm_compute. reflexivity.
Defined.

(** What the six modes come to, and a run: "a+" opens /tmp/a on the lowest
    free descriptor and sets close-on-exec. *)
Example mode_flag_values :
  mode_flag "r" = Some 0 /\ mode_flag "r+" = Some 2
  /\ mode_flag "w" = Some 577 /\ mode_flag "w+" = Some 578
  /\ mode_flag "a" = Some 1089 /\ mode_flag "a+" = Some 1090
  /\ mode_flag "" = None /\ mode_flag "+r" = None.
Proof. repeat split; reflexivity. Qed.

Example unix_fopen_run :
  let r := unix_fopen Samples.strip_scheme "file:///tmp/a" "a+"
             (Samples.closed_world Samples.calm) in
  r.1 = Some {| handle := 0 |}
  /\ w_trace r.2 = [SysOpen "/tmp/a" 1090 (Some 420); SysFcntl 0].
Proof. cbv zeta. split; vm_compute; reflexivity. Qed.

(** ** Seeking, truncating, measuring *)

Lemma resolve_set_pos fd p o i w w0 :
  w_fs w0 = w_fs w ->
  resolve fd w = Some (o, i) ->
  resolve fd (set_fds (<[fd := set_pos p o]> (w_fds w)) w0)
    = Some (set_pos p o, i).
Proof.
  intros Hfs. unfold resolve. cbn. rewrite lookup_insert_eq, Hfs. cbn.
  destruct (w_fds w !! fd) as [o'|]; [|done].
  destruct (w_fs w !! o_path o') as [i'|] eqn:E; [|done].
  intros [= <- <-]. by rewrite E.
Qed.

Lemma resolve_position fd w o i :
  resolve fd w = Some (o, i) -> position fd w = Some (o_pos o).
Proof.
  unfold resolve, position. destruct (w_fds w !! fd) as [o'|]; [|done].
  destruct (w_fs w !! o_path o'); [|done]. by intros [= <- <-].
Qed.

Lemma position_resolve fd w p :
  seekable fd w -> position fd w = Some p ->
  exists o i, resolve fd w = Some (o, i) /\ i_kind i = Regular /\ o_pos o = p.
Proof.
  intros (o & i & Hr & Hk) Hp. exists o, i. repeat split; try done.
  rewrite (resolve_position _ _ _ _ Hr) in Hp. congruence.
Qed.

Lemma sys_lseek_regular fd offset whence w o i p :
  resolve fd w = Some (o, i) -> i_kind i = Regular ->
  seek_target whence offset o i = Some p -> 0 <= p ->
  sys_lseek fd offset whence w
    = (p, set_fds (<[fd := set_pos p o]> (w_fds w))
            (log (SysLseek fd offset whence) w)).
Proof.
  intros Hr Hk Ht Hp. unfold sys_lseek.
  change (resolve fd (log (SysLseek fd offset whence) w)) with (resolve fd w).
  rewrite Hr, Hk, Ht.
  destruct (p <? 0) eqn:E; [lia | reflexivity].
Qed.

Lemma sys_lseek_trace fd offset whence w :
  w_trace (sys_lseek fd offset whence w).2
    = w_trace w ++ [SysLseek fd offset whence].
Proof.
  unfold sys_lseek. destruct (resolve fd _) as [[o i]|]; [|done].
  destruct (i_kind i); [|done].
  destruct (seek_target _ _ _ _) as [p|]; [|done].
  by destruct (p <? 0).
Qed.

Lemma sys_ftruncate_trace fd len w :
  w_trace (sys_ftruncate fd len w).2 = w_trace w ++ [SysFtruncate fd len].
Proof.
  unfold sys_ftruncate. destruct (resolve fd _) as [[o i]|]; [|done].
  destruct (i_kind i); [|done].
  destruct (negb _ || _); [done|]. cbn. by destruct (is_fault _).
Qed.



(** unix_fsize on a regular file at offset [p]: the four seeks, the
    length, and the offset put back. *)
Lemma unix_fsize_regular file w o i :
  resolve (handle file) w = Some (o, i) -> i_kind i = Regular ->
  0 <= o_pos o ->
  (unix_fsize file w).1 = Z.of_nat (length (i_data i))
  /\ resolve (handle file) (unix_fsize file w).2 = Some (o, i)
  /\ issued w (unix_fsize file w).2
       = [SysLseek (handle file) 0 SEEK_CUR; SysLseek (handle file) 0 SEEK_END;
          SysLseek (handle file) 0 SEEK_CUR;
          SysLseek (handle file) (o_pos o) SEEK_SET].
Proof.
  intros Hr Hk Hp. unfold unix_fsize, unix_ftell, unix_fseek.
  set (fd := handle file) in *.
  set (len := Z.of_nat (length (i_data i))).
  rewrite (sys_lseek_regular fd 0 SEEK_CUR w o i (o_pos o)); try done;
    [|unfold seek_target; cbn; f_equal; lia].
  set (w1 := set_fds _ _).
  assert (Hr1 : resolve fd w1 = Some (set_pos (o_pos o) o, i))
    by (by apply resolve_set_pos).
  destruct (o_pos o =? -1) eqn:E1; [lia|].
  rewrite (sys_lseek_regular fd 0 SEEK_END w1 _ i len Hr1 Hk);
    [|unfold seek_target; cbn; f_equal; lia | lia].
  set (w2 := set_fds _ _).
  assert (Hr2 : resolve fd w2 = Some (set_pos len (set_pos (o_pos o) o), i))
    by (by apply resolve_set_pos).
  assert (Hw2 : (if len =? -1 then (-1, w2) else (0, w2)) = (if len =? -1 then -1 else 0, w2))
    by (by destruct (len =? -1)).
  rewrite Hw2.
  rewrite (sys_lseek_regular fd 0 SEEK_CUR w2 _ i len Hr2 Hk);
    [|unfold seek_target; cbn; f_equal; lia | lia].
  set (w3 := set_fds _ _).
  assert (Hr3 : resolve fd w3 = Some (set_pos len (set_pos len (set_pos (o_pos o) o)), i))
    by (by apply resolve_set_pos).
  destruct (len =? -1) eqn:E2; [lia|].
  rewrite (sys_lseek_regular fd (o_pos o) SEEK_SET w3 _ i (o_pos o) Hr3 Hk);
    [|reflexivity | lia].
  set (w4 := set_fds _ _).
  assert (Hw4 : (if o_pos o =? -1 then (-1, w4) else (0, w4)) = (if o_pos o =? -1 then -1 else 0, w4))
    by (by destruct (o_pos o =? -1)).
  rewrite Hw4. cbn [fst snd]. split; [done|]. split.
  - subst w4. erewrite resolve_set_pos; [|reflexivity|exact Hr3]. f_equal. f_equal.
    destruct o; reflexivity.
  - apply issued_app. subst w4 w3 w2 w1. cbn.
    by rewrite <- !app_assoc.
Qed.




(** On a descriptor that cannot seek (closed, or a FIFO) unix_fsize gives
    up with -1 after its first lseek. *)
Lemma unix_fsize_not_seekable file w :
  ~ seekable (handle file) w ->
  unix_fsize file w = (-1, log (SysLseek (handle file) 0 SEEK_CUR) w).
Proof.
  intros Hns. unfold unix_fsize, unix_ftell, sys_lseek.
  change (resolve (handle file) (log (SysLseek (handle file) 0 SEEK_CUR) w))
    with (resolve (handle file) w).
  destruct (resolve (handle file) w) as [[o i]|] eqn:Hr; [|reflexivity].
  destruct (i_kind i) eqn:Hk; [|reflexivity].
  exfalso. apply Hns. by exists o, i.
Qed.

(** C5, as the code has it. unix_truncate issues one ftruncate and no seek
    at all, on every descriptor.  unix_fsize on a seekable descriptor at
    offset [p] asks for the offset, seeks to the end, asks for the offset
    again (the length) and seeks back to [p]: the save / seek-to-end /
    seek-back pattern; on a descriptor that cannot seek (closed, or a FIFO)
    its first query fails and it returns -1 after that one lseek. *)
Theorem fsize_seeks_truncate_does_not file (L : Z) w :
  (issued w (unix_truncate file L w).2 = [SysFtruncate (handle file) L]
   /\ SeekPattern.save_end_back (handle file)
        (issued w (unix_truncate file L w).2) = false)
  /\ (forall p,
        seekable (handle file) w -> position (handle file) w = Some p ->
        0 <= p ->
        issued w (unix_fsize file w).2
          = [SysLseek (handle file) 0 SEEK_CUR; SysLseek (handle file) 0 SEEK_END;
             SysLseek (handle file) 0 SEEK_CUR; SysLseek (handle file) p SEEK_SET]
        /\ SeekPattern.save_end_back (handle file)
             (issued w (unix_fsize file w).2) = true)
  /\ (~ seekable (handle file) w ->
        (unix_fsize file w).1 = -1
        /\ issued w (unix_fsize file w).2 = [SysLseek (handle file) 0 SEEK_CUR]
        /\ SeekPattern.save_end_back (handle file)
             (issued w (unix_fsize file w).2) = false).
Proof.
  split; [|split].
  - assert (Ht : issued w (unix_truncate file L w).2
                 = [SysFtruncate (handle file) L]).
    { apply issued_app. unfold unix_truncate.
      pose proof (sys_ftruncate_trace (handle file) L w) as Ht.
      destruct (sys_ftruncate (handle file) L w) as [r w1].
      by destruct (to_gint r =? -1). }
    rewrite Ht. split; reflexivity.
  - intros p Hs Hpos Hp.
    destruct (position_resolve _ _ _ Hs Hpos) as (o & i & Hres & Hk & Ho).
    destruct (unix_fsize_regular file w o i Hres Hk ltac:(lia)) as (_ & _ & Hi).
    rewrite Ho in Hi. rewrite Hi. split; [done|].
    unfold SeekPattern.save_end_back, SeekPattern.seek_steps. cbn.
    rewrite Z.eqb_refl. reflexivity.
  - intros Hns. rewrite (unix_fsize_not_seekable file w Hns). cbn [fst snd].
    split; [reflexivity|].
    assert (Hi : issued w (log (SysLseek (handle file) 0 SEEK_CUR) w)
                 = [SysLseek (handle file) 0 SEEK_CUR])
      by (by apply issued_app).
    rewrite Hi. split; [reflexivity|].
    unfold SeekPattern.save_end_back, SeekPattern.seek_steps. cbn.
    rewrite Z.eqb_refl. reflexivity.
Qed.

(** The three bytes of /tmp/a open at offset 1: four seeks for the size,
    one ftruncate for the cut.  The same path as a FIFO: one seek, -1. *)
Lemma fsize_seeks_truncate_does_not_witness :
  let w := Samples.one_file Regular Samples.abc O_RDWR 1 Samples.calm in
  let f := Samples.one_file Fifo Samples.abc O_RDONLY 0 Samples.calm in
  seekable 3 w
  /\ issued w (unix_fsize Samples.fd3 w).2
     = [SysLseek 3 0 SEEK_CUR; SysLseek 3 0 SEEK_END;
        SysLseek 3 0 SEEK_CUR; SysLseek 3 1 SEEK_SET]
  /\ issued w (unix_truncate Samples.fd3 2 w).2 = [SysFtruncate 3 2]
  /\ ~ seekable 3 f
  /\ (unix_fsize Samples.fd3 f).1 = -1
  /\ issued f (unix_fsize Samples.fd3 f).2 = [SysLseek 3 0 SEEK_CUR].
Proof.
  cbv zeta.
  assert (Hs : seekable 3 (Samples.one_file Regular Samples.abc O_RDWR 1 Samples.calm)).
  { eexists _, _. split; [vm_compute; reflexivity | reflexivity]. }
  assert (Hns : ~ seekable 3 (Samples.one_file Fifo Samples.abc O_RDONLY 0 Samples.calm)).
  { intros (o & i & Hr & Hk).
    assert (Hr' : resolve 3 (Samples.one_file Fifo Samples.abc O_RDONLY 0 Samples.calm)
                  = Some ({| o_path := "/tmp/a"; o_pos := 0; o_flags := O_RDONLY;
                             o_cloexec := true |},
                          {| i_kind := Fifo; i_data := Samples.abc |}))
      by (vm_compute; reflexivity).
    rewrite Hr' in Hr. injection Hr as <- <-. discriminate Hk. }
  destruct (fsize_seeks_truncate_does_not Samples.fd3 2
              (Samples.one_file Regular Samples.abc O_RDWR 1 Samples.calm))
    as ((H2 & _) & Hreg & _).
  destruct (Hreg 1 Hs eq_refl ltac:(lia)) as (H1 & _).
  destruct (fsize_seeks_truncate_does_not Samples.fd3 2
              (Samples.one_file Fifo Samples.abc O_RDONLY 0 Samples.calm))
    as (_ & _ & Hfifo).
  destruct (Hfifo Hns) as (H3 & H4 & _).
  split; [exact Hs|]. split; [exact H1|]. split; [exact H2|].
  split; [exact Hns|]. split; [exact H3 | exact H4].
Defined.

(** C5 as the specification words it, at an open regular file: both
    operations would follow the seek pattern.  unix_truncate does not. *)
Lemma truncate_seek_pattern_counterexample :
  let w := Samples.one_file Regular Samples.abc O_RDWR 1 Samples.calm in
  ~ (SeekPattern.save_end_back 3 (issued w (unix_truncate Samples.fd3 2 w).2) = true
     /\ SeekPattern.save_end_back 3 (issued w (unix_fsize Samples.fd3 w).2) = true).
Proof. cbv zeta. intros [H _]. vm_compute in H. discriminate H. Qed.

(** ** Reading *)

Lemma allowed_bounds e want : 0 <= want -> 0 <= allowed e want <= want.
Proof. destruct e; cbn; lia. Qed.

(** What a read does to a resolved descriptor: it fails and leaves the
    offset, or it hands over [r] bytes from the offset on and advances by
    [r]. *)
Lemma sys_read_effect fd count w o i :
  resolve fd w = Some (o, i) -> 0 <= count -> 0 <= o_pos o ->
  exists r got w',
    sys_read fd count w = (r, got, w')
    /\ w_fs w' = w_fs w
    /\ w_oracle w' = w_oracle w /\ (w_clock w <= w_clock w')%nat
    /\ w_trace w' = w_trace w ++ [SysRead fd count]
    /\ ((r = -1 /\ got = [] /\ resolve fd w' = Some (o, i))
        \/ (0 <= r <= count
            /\ got = take (Z.to_nat r) (drop (Z.to_nat (o_pos o)) (i_data i))
            /\ Z.of_nat (length got) = r
            /\ resolve fd w' = Some (set_pos (o_pos o + r) o, i))).
Proof.
  intros Hr Hc Hp. unfold sys_read.
  change (resolve fd (log (SysRead fd count) w)) with (resolve fd w). rewrite Hr.
  destruct (negb (can_read (o_flags o))).
  { eexists _, _, _. split; [reflexivity|]. cbn. repeat split; try done. by left. }
  cbn. destruct (is_fault (w_oracle w (w_clock w))).
  { eexists _, _, _. split; [reflexivity|]. cbn. repeat split; try lia; try done.
    by left. }
  set (rest := drop (Z.to_nat (o_pos o)) (i_data i)).
  set (n := allowed _ _).
  assert (Hn : 0 <= n <= Z.min count (Z.of_nat (length rest)))
    by (apply allowed_bounds; lia).
  eexists _, _, _. split; [reflexivity|]. cbn. repeat split; try lia; try done.
  right. repeat split; try lia.
  - rewrite length_take. lia.
  - by apply resolve_set_pos.
Qed.

Lemma sys_read_result fd count w :
  0 <= count ->
  -1 <= (sys_read fd count w).1.1 <= count.
Proof.
  intros Hc. unfold sys_read.
  destruct (resolve fd _) as [[o i]|]; [|cbn; lia].
  destruct (negb _); [cbn; lia|]. cbn.
  destruct (is_fault _); [cbn; lia|]. cbn.
  match goal with |- context [allowed ?e ?x] =>
    pose proof (allowed_bounds e x ltac:(lia)) end.
  lia.
Qed.

(** unix_fread (ptr, 1, 1, file) is a single read of one byte. *)
Lemma unix_fread_one file w :
  unix_fread 1 1 file w
  = (if (sys_read (handle file) 1 w).1.1 =? 1
     then (1, (sys_read (handle file) 1 w).1.2, (sys_read (handle file) 1 w).2)
     else (0, [], (sys_read (handle file) 1 w).2)).
Proof.
  unfold unix_fread. change (byte_goal 1 1) with 1.
  change (Z.to_nat 1) with 1%nat. cbn [fread_loop].
  change (0 <? 1) with true. cbv iota.
  change (to_size_t (to_gint (1 - 0))) with 1.
  pose proof (sys_read_result (handle file) 1 w ltac:(lia)) as Hb.
  destruct (sys_read (handle file) 1 w) as [[r got] w1]. cbn in Hb |- *.
  rewrite (to_gint_id r) by fits.
  destruct (r =? -1) eqn:E1; [replace r with (-1) by lia; reflexivity|].
  destruct (r =? 0) eqn:E0; [replace r with 0 by lia; reflexivity|].
  replace r with 1 by lia. reflexivity.
Qed.

(** unix_feof is the probe read, followed by a seek one byte back when the
    probe got its byte. *)
Lemma unix_feof_unfold file w :
  unix_feof file w
  = (if (sys_read (handle file) 1 w).1.1 =? 1
     then (false, (sys_lseek (handle file) (-1) SEEK_CUR
                     (sys_read (handle file) 1 w).2).2)
     else (true, (sys_read (handle file) 1 w).2)).
Proof.
  unfold unix_feof, unix_getc. rewrite unix_fread_one.
  destruct (_ =? 1).
  - change (1 =? 1) with true. cbv iota.
    pose proof (guchar_to_gint_range (hd "000"%byte (sys_read (handle file) 1 w).1.2)).
    destruct (_ =? EOF) eqn:E; [unfold EOF in E; lia|].
    unfold unix_ungetc, unix_fseek.
    destruct (sys_lseek _ _ _ _) as [r w2]. cbn.
    destruct (r =? -1); cbn; reflexivity.
  - reflexivity.
Qed.

Lemma sys_read_got fd count w :
  0 <= count ->
  -1 <= (sys_read fd count w).1.1 <= count
  /\ Z.of_nat (length (sys_read fd count w).1.2)
     = Z.max (sys_read fd count w).1.1 0.
Proof.
  intros Hc. split; [by apply sys_read_result|]. unfold sys_read.
  destruct (resolve fd _) as [[o i]|]; [|reflexivity].
  destruct (negb _); [reflexivity|]. cbn.
  destruct (is_fault _); [reflexivity|]. cbn.
  match goal with |- context [allowed ?e ?x] =>
    pose proof (allowed_bounds e x ltac:(lia)) end.
  rewrite length_take. lia.
Qed.

(** The read loop: with fuel for the bytes still wanted it ends; it has
    then appended to the buffer exactly the bytes it counted, it has not
    passed the goal, and it stopped because the goal was reached or because
    the last read returned 0 or -1. *)
Lemma fread_loop_spec fuel : forall fd goal total buf w,
  0 <= total -> goal <= G_MAXINT ->
  (Z.to_nat (goal - total) <= fuel)%nat ->
  exists total' extra w',
    fread_loop fuel fd goal total buf w = Some (total', buf ++ extra, w')
    /\ total <= total' <= Z.max goal total
    /\ Z.of_nat (length extra) = total' - total
    /\ (goal <= total'
        \/ exists wl, (sys_read fd (goal - total') wl).2 = w'
                      /\ ((sys_read fd (goal - total') wl).1.1 = 0
                          \/ (sys_read fd (goal - total') wl).1.1 = -1)).
Proof.
  induction fuel as [|fuel IH]; intros fd goal total buf w Ht Hg Hf.
  - assert (goal <= total) by lia. cbn.
    destruct (total <? goal) eqn:E; [lia|].
    exists total, [], w. rewrite app_nil_r.
    split; [done|]. split; [lia|]. split; [cbn; lia|]. left. lia.
  - cbn [fread_loop]. destruct (total <? goal) eqn:E.
    2:{ exists total, [], w. rewrite app_nil_r.
        split; [done|]. split; [lia|]. split; [cbn; lia|]. left. lia. }
    assert (Hgt : total < goal) by lia.
    rewrite (to_gint_id (goal - total)) by fits.
    rewrite (to_size_t_id (goal - total)) by fits.
    destruct (sys_read_got fd (goal - total) w ltac:(lia)) as [Hb Hl].
    destruct (sys_read fd (goal - total) w) as [[r got] w1] eqn:Er.
    cbn in Hb, Hl.
    rewrite (to_gint_id r) by fits.
    destruct (r =? -1) eqn:E1.
    { exists total, [], w1. rewrite app_nil_r.
      split; [done|]. split; [lia|]. split; [cbn; lia|].
      right. exists w. rewrite Er. cbn. split; [done | lia]. }
    destruct (r =? 0) eqn:E0.
    { exists total, [], w1. rewrite app_nil_r.
      split; [done|]. split; [lia|]. split; [cbn; lia|].
      right. exists w. rewrite Er. cbn. split; [done | lia]. }
    rewrite (to_gint_id (total + r)) by fits.
    destruct (IH fd goal (total + r) (buf ++ got) w1 ltac:(lia) Hg ltac:(lia))
      as (t' & extra & w' & Hrun & Hrange & Hlen & Hstop).
    exists t', (got ++ extra), w'. rewrite app_assoc.
    split; [done|]. split; [lia|]. split; [rewrite length_app; lia|]. exact Hstop.
Qed.

(** unix_fread never runs its loop out of fuel: the result is that of the
    loop. *)
Lemma unix_fread_runs size nitems file w :
  exists total buf w',
    fread_loop (Z.to_nat (byte_goal size nitems)) (handle file)
      (byte_goal size nitems) 0 [] w = Some (total, buf, w')
    /\ unix_fread size nitems file w = (whole_items size total, buf, w')
    /\ 0 <= total <= Z.max (byte_goal size nitems) 0
    /\ Z.of_nat (length buf) = total.
Proof.
  pose proof (to_gint_range (to_size_t (size * nitems))) as Hg.
  fold (byte_goal size nitems) in Hg.
  destruct (fread_loop_spec (Z.to_nat (byte_goal size nitems)) (handle file)
              (byte_goal size nitems) 0 [] w ltac:(lia) ltac:(lia) ltac:(lia))
    as (t & extra & w' & Hrun & Hrange & Hlen & _).
  exists t, extra, w'. cbn in Hrun. unfold unix_fread. rewrite Hrun.
  repeat split; try lia; done.
Qed.

(** A read call stores nothing exactly when its first read returns 0 or
    fails. *)
Lemma unix_fread_nothing size nitems file w :
  0 < size * nitems <= G_MAXINT ->
  (unix_fread size nitems file w).1.2 = []
  <-> (sys_read (handle file) (size * nitems) w).1.1 <= 0.
Proof.
  intros Hg. unfold unix_fread. rewrite byte_goal_small by lia.
  set (g := size * nitems) in *.
  destruct (Z.to_nat g) as [|fuel] eqn:Ef; [lia|].
  cbn [fread_loop]. destruct (0 <? g) eqn:E; [|lia].
  rewrite (to_gint_id (g - 0)) by fits.
  rewrite (to_size_t_id (g - 0)) by fits.
  replace (g - 0) with g by lia.
  destruct (sys_read_got (handle file) g w ltac:(lia)) as [Hb Hl].
  destruct (sys_read (handle file) g w) as [[r got] w1]. cbn in Hb, Hl.
  cbn [fst snd].
  rewrite (to_gint_id r) by fits.
  destruct (r =? -1) eqn:E1; [cbn; split; [lia | done]|].
  destruct (r =? 0) eqn:E0; [cbn; split; [lia | done]|].
  rewrite (to_gint_id (0 + r)) by fits.
  destruct (fread_loop_spec fuel (handle file) g (0 + r) ([] ++ got) w1
              ltac:(lia) ltac:(lia) ltac:(lia))
    as (t' & extra & w' & Hrun & _).
  rewrite Hrun. cbn. split; [|lia].
  intros Hnil. destruct got; [cbn in Hl; lia | discriminate].
Qed.

(** ** unix_feof *)

(** In a quiet world a read of [count > 0] bytes returns all it can: -1
    without read access, otherwise what is left from the offset on, up to
    [count]. *)
Lemma sys_read_quiet fd count w o i :
  quiet w -> resolve fd w = Some (o, i) ->
  (sys_read fd count w).1.1
  = if can_read (o_flags o)
    then Z.min count
           (Z.of_nat (length (drop (Z.to_nat (o_pos o)) (i_data i))))
    else -1.
Proof.
  intros Hq Hr. unfold sys_read.
  change (resolve fd (log (SysRead fd count) w)) with (resolve fd w). rewrite Hr.
  destruct (can_read (o_flags o)); [|reflexivity]. cbn.
  rewrite (Hq (w_clock w)) by lia. reflexivity.
Qed.

(** The descriptor after unix_feof on a regular file: same file, same
    offset, same access mode; the oracle has moved on by at most the probe. *)
Lemma unix_feof_state file w o i :
  resolve (handle file) w = Some (o, i) -> i_kind i = Regular ->
  0 <= o_pos o ->
  exists o',
    resolve (handle file) (unix_feof file w).2 = Some (o', i)
    /\ o_pos o' = o_pos o /\ o_flags o' = o_flags o
    /\ w_oracle (unix_feof file w).2 = w_oracle w
    /\ (w_clock w <= w_clock (unix_feof file w).2)%nat.
Proof.
  intros Hr Hk Hp. rewrite unix_feof_unfold.
  destruct (sys_read_effect (handle file) 1 w o i Hr ltac:(lia) Hp)
    as (r & got & w1 & Hread & Hfs & Hor & Hcl & _ & Hcase).
  rewrite Hread. cbn [fst snd].
  destruct Hcase as [(-> & _ & Hr1) | (Hb & _ & _ & Hr1)].
  - cbn. exists o. by repeat split.
  - destruct (r =? 1) eqn:E1.
    + assert (r = 1) as -> by lia.
      rewrite (sys_lseek_regular (handle file) (-1) SEEK_CUR w1 _ i (o_pos o) Hr1 Hk);
        [|unfold seek_target; cbn; f_equal; lia | lia].
      cbn [fst snd]. eexists. split; [by apply resolve_set_pos|]. cbn.
      by repeat split.
    + assert (r = 0) as -> by lia. cbn [fst snd].
      eexists. split; [exact Hr1|]. cbn. repeat split; try done. lia.
Qed.

Lemma quiet_later w w' :
  quiet w -> w_oracle w' = w_oracle w -> (w_clock w <= w_clock w')%nat ->
  quiet w'.
Proof. intros Hq Ho Hc n Hn. rewrite Ho. apply Hq. lia. Qed.

(** A steady world stays steady as the clock moves on. *)
Lemma steady_later w w' :
  Observe.steady w -> w_oracle w' = w_oracle w ->
  (w_clock w <= w_clock w')%nat -> Observe.steady w'.
Proof. intros Hs Ho Hc n Hn. rewrite Ho. apply Hs. lia. Qed.

(** In a steady world a read of [count > 0] bytes comes back without a
    byte exactly when the descriptor has no read access or nothing is left
    from the offset on; a short read still hands over a byte. *)
Lemma sys_read_steady fd count w o i :
  Observe.steady w -> resolve fd w = Some (o, i) -> 0 < count ->
  (sys_read fd count w).1.1 <= 0
  <-> can_read (o_flags o) = false
      \/ drop (Z.to_nat (o_pos o)) (i_data i) = [].
Proof.
  intros Hst Hr Hc. unfold sys_read.
  change (resolve fd (log (SysRead fd count) w)) with (resolve fd w). rewrite Hr.
  destruct (can_read (o_flags o)); cbn; [|split; [by left | lia]].
  destruct (Hst (w_clock w) ltac:(lia)) as [Hnf Hns].
  destruct (drop (Z.to_nat (o_pos o)) (i_data i)) as [|b rest].
  - split; [by right|]. intros _.
    destruct (w_oracle w (w_clock w)) as [|k|]; cbn; try done; lia.
  - split; [|intros [H | H]; done]. intros H. exfalso.
    destruct (w_oracle w (w_clock w)) as [|k|]; cbn in H; try done.
    + cbn [length] in H. lia.
    + destruct k; [done|]. cbn [length] in H. lia.
Qed.

(** C1, as the code has it. On a seekable descriptor at offset [p],
    unix_feof leaves the offset at [p] and the file as it was, on every
    branch; it returns TRUE exactly when its one-byte probe read hands over
    no byte (end of file, or the read failed); and when no read fails and
    none comes back empty before the end of the file (short reads allowed)
    this is, for each read call on the handle afterwards with a positive
    byte total that fits a gint, exactly when that call would store no
    byte. *)
Theorem unix_feof_seekable file (p : Z) w :
  seekable (handle file) w -> position (handle file) w = Some p -> 0 <= p ->
  position (handle file) (unix_feof file w).2 = Some p
  /\ contents (handle file) (unix_feof file w).2 = contents (handle file) w
  /\ ((unix_feof file w).1 = true <-> (sys_read (handle file) 1 w).1.2 = [])
  /\ (Observe.steady w ->
      forall size nitems,
        0 < size * nitems <= G_MAXINT ->
        ((unix_feof file w).1 = true
         <-> (unix_fread size nitems file (unix_feof file w).2).1.2 = [])).
Proof.
  intros Hs Hpos Hp.
  destruct (position_resolve _ _ _ Hs Hpos) as (o & i & Hres & Hk & Ho).
  subst p.
  destruct (unix_feof_state file w o i Hres Hk Hp)
    as (o' & Hres' & Hpos' & Hfl' & Hor & Hcl).
  assert (Hprobe : (unix_feof file w).1 = true
                   <-> (sys_read (handle file) 1 w).1.1 <= 0).
  { rewrite unix_feof_unfold.
    pose proof (sys_read_result (handle file) 1 w ltac:(lia)).
    destruct (_ =? 1) eqn:E; cbn; split; intros; try done; lia. }
  split; [|split; [|split]].
  - rewrite (resolve_position _ _ _ _ Hres'). by f_equal.
  - unfold contents. by rewrite Hres', Hres.
  - rewrite Hprobe.
    destruct (sys_read_got (handle file) 1 w ltac:(lia)) as [Hb Hl].
    destruct ((sys_read (handle file) 1 w).1.2) as [|c l]; cbn in Hl; split;
      intros; try done; lia.
  - intros Hst size nitems Hg. rewrite Hprobe.
    rewrite (sys_read_steady _ 1 w o i Hst Hres) by lia.
    assert (Hst' : Observe.steady (unix_feof file w).2)
      by (eapply steady_later; eauto).
    rewrite (unix_fread_nothing size nitems file _ Hg).
    rewrite (sys_read_steady _ (size * nitems) _ o' i Hst' Hres') by lia.
    by rewrite Hfl', Hpos'.
Qed.

(** In the middle of the three bytes of /tmp/a, with every read cut to one
    byte: unix_feof answers FALSE, the offset stays at 1, and a read
    afterwards stores a byte. *)
Lemma unix_feof_seekable_witness :
  let w := Samples.one_file Regular Samples.abc O_RDONLY 1 MoreSamples.dribble in
  seekable 3 w
  /\ (unix_feof Samples.fd3 w).1 = false
  /\ position 3 (unix_feof Samples.fd3 w).2 = Some 1
  /\ (unix_fread 2 1 Samples.fd3 (unix_feof Samples.fd3 w).2).1.2 <> [].
Proof.
  cbv zeta.
  assert (Hs : seekable 3 (Samples.one_file Regular Samples.abc O_RDONLY 1
                             MoreSamples.dribble)).
  { eexists _, _. split; [vm_compute; reflexivity | reflexivity]. }
  assert (Hst : Observe.steady (Samples.one_file Regular Samples.abc O_RDONLY 1
                                  MoreSamples.dribble))
    by (intros n _; split; discriminate).
  destruct (unix_feof_seekable Samples.fd3 1 _ Hs eq_refl ltac:(lia))
    as (Hpos & _ & Hb & Hlater).
  assert (Hf : (unix_feof Samples.fd3
                  (Samples.one_file Regular Samples.abc O_RDONLY 1
                     MoreSamples.dribble)).1 = false).
  { destruct (unix_feof Samples.fd3 _).1 eqn:E; [|reflexivity].
    destruct Hb as [Hb _]. specialize (Hb eq_refl). vm_compute in Hb.
    discriminate Hb. }
  split; [exact Hs|]. split; [exact Hf|]. split; [exact Hpos|].
  intros Hnil.
  apply (Hlater Hst 2 1 ltac:(unfold G_MAXINT; lia)) in Hnil.
  rewrite Hf in Hnil. discriminate Hnil.
Defined.

(** C1 as the specification words it, on a FIFO holding one byte: the
    probe takes the byte, the seek back fails (ESPIPE), unix_feof answers
    FALSE with the byte gone; the next read gets nothing. *)
Lemma unix_feof_fifo_counterexample :
  let w := Samples.one_file Fifo ["a"%byte] O_RDONLY 0 Samples.calm in
  ~ ((unix_feof Samples.fd3 w).1 = true
     <-> (unix_fread 1 1 Samples.fd3 (unix_feof Samples.fd3 w).2).1.2 = [])
  /\ position 3 (unix_feof Samples.fd3 w).2 <> position 3 w.
Proof.
  cbv zeta. split.
  - intros [_ H]. assert (Hf : false = true) by (apply H; vm_compute; reflexivity).
    discriminate Hf.
  - vm_compute. discriminate.
Qed.

(** Elsewhere on the failing branches: a read that fails once makes
    unix_feof answer TRUE in front of three readable bytes. *)
Lemma unix_feof_transient_fault :
  let w := Samples.one_file Regular Samples.abc O_RDONLY 0
             (fun n => match n with O => Fault | _ => Normal end) in
  (unix_feof Samples.fd3 w).1 = true
  /\ (unix_fread 1 3 Samples.fd3 (unix_feof Samples.fd3 w).2).1.2 = Samples.abc.
Proof. cbv zeta. split; vm_compute; reflexivity. Qed.

(** On the FIFO the run in full: FALSE, the offset moved from 0 to 1, and
    nothing left to read. *)
Lemma unix_feof_fifo_run :
  let w := Samples.one_file Fifo ["a"%byte] O_RDONLY 0 Samples.calm in
  (unix_feof Samples.fd3 w).1 = false
  /\ position 3 w = Some 0
  /\ position 3 (unix_feof Samples.fd3 w).2 = Some 1
  /\ (unix_fread 1 1 Samples.fd3 (unix_feof Samples.fd3 w).2).1.2 = []
  /\ issued w (unix_feof Samples.fd3 w).2 = [SysRead 3 1; SysLseek 3 (-1) SEEK_CUR]
  /\ (sys_lseek 3 (-1) SEEK_CUR (sys_read 3 1 w).2).1 = -1.
Proof. cbv zeta. repeat split; vm_compute; reflexivity. Qed.

(** ** unix_fread and unix_fwrite: the count returned *)

Lemma whole_items_small size total :
  0 < size -> 0 <= total <= G_MAXINT -> whole_items size total = total / size.
Proof.
  intros Hs Ht. unfold whole_items. destruct (0 <? size) eqn:E; [|lia].
  rewrite to_size_t_id by fits. reflexivity.
Qed.

(** A positive goal is at most the product it was cut from. *)
Lemma byte_goal_le size nitems :
  0 <= size * nitems -> 0 < byte_goal size nitems ->
  byte_goal size nitems <= size * nitems.
Proof.
  intros Hp. unfold byte_goal, to_gint, to_size_t, wrap_signed, wrap_unsigned.
  change (2 ^ (32 - 1)) with 2147483648. change (2 ^ 32) with 4294967296.
  change (2 ^ 64) with 18446744073709551616.
  set (y := (size * nitems) mod 18446744073709551616).
  assert (0 <= y <= size * nitems).
  { subst y. split; [apply Z.mod_pos_bound; lia | apply Z.mod_le; lia]. }
  pose proof (Z.mod_le (y + 2147483648) 4294967296 ltac:(lia) ltac:(lia)).
  lia.
Qed.

(** For every size and count of type [size_t]: unix_fread returns, its
    value is the number of bytes it stored divided by the element size,
    rounded down, and never more than the count. *)
Lemma unix_fread_items size nitems file w :
  0 < size -> 0 <= nitems ->
  (unix_fread size nitems file w).1.1
    = Z.of_nat (length (unix_fread size nitems file w).1.2) / size
  /\ 0 <= (unix_fread size nitems file w).1.1 <= nitems.
Proof.
  intros Hs Hn.
  destruct (unix_fread_runs size nitems file w)
    as (total & buf & w' & _ & Hrun & Hrange & Hlen).
  rewrite Hrun. cbn [fst snd]. rewrite Hlen.
  pose proof (to_gint_range (to_size_t (size * nitems))) as Hg.
  fold (byte_goal size nitems) in Hg.
  unfold G_MININT, G_MAXINT in Hg.
  rewrite whole_items_small by fits. split; [done|].
  split; [apply Z.div_pos; lia|].
  destruct (Z.le_gt_cases (byte_goal size nitems) 0) as [Hle | Hgt].
  - assert (total = 0) as -> by lia. rewrite Z.div_0_l by lia. lia.
  - pose proof (byte_goal_le size nitems ltac:(nia) Hgt).
    transitivity ((size * nitems) / size).
    + apply Z.div_le_mono; lia.
    + rewrite Z.mul_comm, Z.div_mul by lia. lia.
Qed.

(** While the product fits a [gint] the read loop gives up early only on a
    read that returned 0 or -1. *)
Lemma unix_fread_stops size nitems file w :
  0 <= size * nitems <= G_MAXINT ->
  Z.of_nat (length (unix_fread size nitems file w).1.2) = size * nitems
  \/ exists wl,
       let left_ := size * nitems
                    - Z.of_nat (length (unix_fread size nitems file w).1.2) in
       (sys_read (handle file) left_ wl).2 = (unix_fread size nitems file w).2
       /\ ((sys_read (handle file) left_ wl).1.1 = 0
           \/ (sys_read (handle file) left_ wl).1.1 = -1).
Proof.
  intros Hg. unfold unix_fread. rewrite byte_goal_small by done.
  set (g := size * nitems) in *.
  destruct (fread_loop_spec (Z.to_nat g) (handle file) g 0 [] w
              ltac:(lia) ltac:(lia) ltac:(lia))
    as (t & extra & w' & Hrun & Hrange & Hlen & Hstop).
  rewrite Hrun. cbn [fst snd app]. cbn in Hlen. rewrite Hlen.
  replace (t - 0) with t by lia.
  destruct Hstop as [Hdone | Hlast]; [left; lia | right; exact Hlast].
Qed.

(** ** Writing *)




Lemma sys_write_stalled fd bs w :
  stalled fd w ->
  (sys_write fd bs w).1 = 0 /\ stalled fd (sys_write fd bs w).2.
Proof.
  intros [(o & i & Hr & Hw) Ho]. unfold sys_write.
  change (resolve fd (log (SysWrite fd (Z.of_nat (length bs))) w))
    with (resolve fd w).
  rewrite Hr, Hw. cbn. rewrite Ho. cbn.
  assert (Hz : Z.min (Z.of_nat (length bs)) (Z.of_nat 0) = 0) by lia.
  rewrite Hz.
  unfold resolve in Hr.
  destruct (w_fds w !! fd) as [o'|] eqn:Hfd; [|done].
  destruct (w_fs w !! o_path o') as [i'|]; [|done]. injection Hr as -> ->.
  destruct (i_kind i); cbn; (split; [reflexivity|]); split; try exact Ho.
  - eexists (set_pos _ o), _. split; [|exact Hw]. unfold resolve. cbn.
    rewrite lookup_insert_eq. cbn. rewrite lookup_insert_eq. reflexivity.
  - exists o. eexists. split; [|exact Hw]. unfold resolve. cbn.
    rewrite Hfd, lookup_insert_eq. reflexivity.
Qed.

(** On such a descriptor the write loop never ends: a write of 0 bytes is
    not among its exits. *)
Lemma fwrite_loop_stalled fuel : forall fd goal ptr w,
  stalled fd w -> 0 < goal <= G_MAXINT ->
  fwrite_loop fuel fd goal 0 ptr w = None.
Proof.
  induction fuel as [|fuel IH]; intros fd goal ptr w Hst Hg;
    cbn [fwrite_loop]; destruct (0 <? goal) eqn:E; try lia; [reflexivity|].
  set (bs := take _ _).
  destruct (sys_write_stalled fd bs w Hst) as [Hr Hst'].
  destruct (sys_write fd bs w) as [r w1]. cbn in Hr, Hst'. subst r.
  change (to_gint 0 =? -1) with false. cbv iota.
  change (to_gint (0 + to_gint 0)) with 0. by apply IH.
Qed.

(** C2, where the code leaves it. The byte goal is kept in a [gint]. Asked
    for 2^31 elements of size 1 from a file with three readable bytes,
    unix_fread computes a negative goal, issues no read at all and returns
    0, though a read would have delivered the three bytes; unix_fwrite
    likewise writes nothing and returns 0. Asked for 2^32 + 2 elements, the
    goal is 2: unix_fread stops after the two bytes of its first read, with
    a third byte there to read. *)
Theorem fread_fwrite_goal_truncated :
  let w := Samples.one_file Regular Samples.abc O_RDWR 0 Samples.calm in
  byte_goal 1 2147483648 = -2147483648
  /\ unix_fread 1 2147483648 Samples.fd3 w = (0, [], w)
  /\ (sys_read 3 2147483648 w).1 = (3, Samples.abc)
  /\ (forall fuel ptr,
        unix_fwrite fuel ptr 1 2147483648 Samples.fd3 w = Some (0, w))
  /\ byte_goal 1 4294967298 = 2
  /\ (unix_fread 1 4294967298 Samples.fd3 w).1 = (2, ["a"%byte; "b"%byte])
  /\ issued w (unix_fread 1 4294967298 Samples.fd3 w).2 = [SysRead 3 2]
  /\ (sys_read 3 1 (unix_fread 1 4294967298 Samples.fd3 w).2).1
     = (1, ["c"%byte]).
Proof.
  cbv zeta.
  split; [vm_compute; reflexivity|].
  split; [vm_compute; reflexivity|].
  split; [vm_compute; reflexivity|].
  split.
  { intros fuel ptr. unfold unix_fwrite.
    replace (byte_goal 1 2147483648) with (-2147483648)
      by (vm_compute; reflexivity).
    destruct fuel; reflexivity. }
  split; [vm_compute; reflexivity|].
  split; [vm_compute; reflexivity|].
  split; vm_compute; reflexivity.
Qed.

(** The write loop has no exit on a write of 0 bytes, which the read loop
    has: where every write transfers nothing, unix_fwrite returns for no
    amount of fuel. *)
Lemma unix_fwrite_stalled fuel :
  unix_fwrite fuel Samples.abc 1 3 Samples.fd3
    (Samples.one_file Regular [] O_WRONLY 0 (fun _ => Short 0)) = None.
Proof.
  unfold unix_fwrite. replace (byte_goal 1 3) with 3 by (vm_compute; reflexivity).
  rewrite fwrite_loop_stalled; [reflexivity | | unfold G_MAXINT; lia].
  split; [|reflexivity].
  eexists _, _. split; [vm_compute; reflexivity | reflexivity].
Qed.

(** ** The host playlist *)

Lemma to_gint_wrapped x :
  G_MAXINT < x <= G_MAXINT + 4294967296 -> to_gint x = x - 4294967296.
Proof.
  unfold to_gint, wrap_signed, G_MAXINT. intros H.
  change (2 ^ (32 - 1)) with 2147483648. change (2 ^ 32) with 4294967296.
  replace (x + 2147483648) with ((x - 2147483648) + 1 * 4294967296) by lia.
  rewrite Z_mod_plus_full, Z.mod_small; lia.
Qed.

Lemma at_index_Some {A} (l : list A) (i : Z) (x : A) :
  at_index l i = Some x -> 0 <= i /\ (Z.to_nat i < length l)%nat.
Proof.
  unfold at_index. destruct (i <? 0) eqn:E; [done|]. intros H.
  split; [lia|]. apply lookup_lt_is_Some. eauto.
Qed.

Lemma at_index_insert {A} (l : list A) (i j : Z) (x : A) :
  0 <= i ->
  at_index (<[Z.to_nat i := x]> l) j
  = if decide (i = j /\ (Z.to_nat i < length l)%nat) then Some x
    else at_index l j.
Proof.
  intros Hi. unfold at_index. destruct (j <? 0) eqn:E.
  - destruct (decide _) as [[-> _]|]; [lia | done].
  - rewrite list_lookup_insert.
    destruct (decide (Z.to_nat i = Z.to_nat j /\ _)) as [[He Hl]|Hn];
      destruct (decide (i = j /\ _)) as [[He' Hl']|Hn']; try done.
    + exfalso. apply Hn'. split; [lia | done].
    + exfalso. apply Hn. split; [by subst | done].
Qed.

Lemma entry_count_set_selected pl j b h :
  aud_playlist_entry_count pl (aud_playlist_entry_set_selected pl j b h)
  = aud_playlist_entry_count pl h.
Proof.
  unfold aud_playlist_entry_count, aud_playlist_entry_set_selected.
  destruct (at_index (h_playlists h) pl) as [es|] eqn:E; [|by rewrite E].
  destruct (j <? 0); [by rewrite E|]. cbn.
  destruct (at_index_Some _ _ _ E) as [Hl Hlt].
  rewrite at_index_insert by done. rewrite decide_True by done.
  by rewrite length_insert.
Qed.

Lemma entry_count_select_all pl b h :
  aud_playlist_entry_count pl (aud_playlist_select_all pl b h)
  = aud_playlist_entry_count pl h.
Proof.
  unfold aud_playlist_entry_count, aud_playlist_select_all.
  destruct (at_index (h_playlists h) pl) as [es|] eqn:E; [|by rewrite E]. cbn.
  destruct (at_index_Some _ _ _ E) as [Hl Hlt].
  rewrite at_index_insert by done. rewrite decide_True by done.
  by rewrite length_replicate.
Qed.

(** Reading a flag after setting one. *)
Lemma get_selected_set_selected pl i j h :
  aud_playlist_entry_get_selected pl i
    (aud_playlist_entry_set_selected pl j true h) = true
  <-> (i = j /\ 0 <= j < aud_playlist_entry_count pl h)
      \/ aud_playlist_entry_get_selected pl i h = true.
Proof.
  unfold aud_playlist_entry_get_selected, aud_playlist_entry_set_selected,
    aud_playlist_entry_count.
  destruct (at_index (h_playlists h) pl) as [es|] eqn:E.
  2:{ rewrite E. split; [done | intros [[_ ?]|?]; [lia | done]]. }
  destruct (j <? 0) eqn:Ej.
  { rewrite E. split; [by right | intros [[_ ?]|?]; [lia | done]]. }
  cbn. destruct (at_index_Some _ _ _ E) as [Hl Hlt].
  rewrite at_index_insert by done. rewrite decide_True by done.
  rewrite at_index_insert by lia.
  destruct (decide (j = i /\ _)) as [[-> Hlen]|Hn]; cbn.
  - split; [intros _; left; split; [done | lia] | done].
  - split; [by right|]. intros [[-> Hr]|H]; [|done].
    exfalso. apply Hn. split; [done | lia].
Qed.

Lemma get_selected_select_all_false pl i h :
  aud_playlist_entry_get_selected pl i (aud_playlist_select_all pl false h)
  = false.
Proof.
  unfold aud_playlist_entry_get_selected, aud_playlist_select_all.
  destruct (at_index (h_playlists h) pl) as [es|] eqn:E; [|by rewrite E]. cbn.
  destruct (at_index_Some _ _ _ E) as [Hl Hlt].
  rewrite at_index_insert by done. rewrite decide_True by done.
  unfold at_index. destruct (i <? 0); [done|].
  destruct (replicate (length es) false !! Z.to_nat i) as [b|] eqn:Er; [|done].
  apply lookup_replicate in Er as [-> _]. done.
Qed.

(** The selecting loop over any pl of counts. *)
Lemma select_fold pl top (cs : list Z) : forall h i,
  aud_playlist_entry_count pl
    (foldl (fun h count =>
              aud_playlist_entry_set_selected pl (to_gint (top + count)) true h)
           h cs)
  = aud_playlist_entry_count pl h
  /\ (aud_playlist_entry_get_selected pl i
        (foldl (fun h count =>
                  aud_playlist_entry_set_selected pl (to_gint (top + count)) true h)
               h cs) = true
      <-> aud_playlist_entry_get_selected pl i h = true
          \/ exists c, c ∈ cs /\ i = to_gint (top + c)
                       /\ 0 <= i < aud_playlist_entry_count pl h).
Proof.
  induction cs as [|c cs IH]; intros h i; cbn [foldl].
  - split; [done|]. split; [by left|]. intros [H|(c & Hc & _)]; [done|].
    by apply elem_of_nil in Hc.
  - destruct (IH (aud_playlist_entry_set_selected pl (to_gint (top + c)) true h) i)
      as [Hcount Hget].
    rewrite entry_count_set_selected in Hcount, Hget. split; [done|].
    rewrite Hget, get_selected_set_selected. split.
    + intros [[[-> Hr]|H]|(c' & Hc' & Hi & Hr)].
      * right. exists c. split; [apply elem_of_cons; by left | done].
      * by left.
      * right. exists c'. split; [apply elem_of_cons; by right | done].
    + intros [H|(c' & Hc' & Hi & Hr)]; [by left; right|].
      apply elem_of_cons in Hc' as [-> | Hc'].
      * left. left. by subst.
      * right. exists c'. done.
Qed.

(** The counting loop over counts that are all selected, or none. *)
Lemma count_fold_all pl top h (cs : list Z) : forall acc,
  (forall c, c ∈ cs ->
     aud_playlist_entry_get_selected pl (to_gint (top + c)) h = true) ->
  0 <= acc -> acc + Z.of_nat (length cs) <= G_MAXINT ->
  foldl (fun selected count =>
           if aud_playlist_entry_get_selected pl (to_gint (top + count)) h
           then to_gint (selected + 1) else selected) acc cs
  = acc + Z.of_nat (length cs).
Proof.
  induction cs as [|c cs IH]; intros acc Hall Ha Hm; cbn [foldl length].
  - cbn. lia.
  - rewrite Hall by (apply elem_of_cons; by left).
    cbn [length] in Hm.
    rewrite to_gint_id by fits.
    rewrite IH; [lia | | lia | lia].
    intros c' Hc'. apply Hall, elem_of_cons. by right.
Qed.

Lemma count_fold_none pl top h (cs : list Z) : forall acc,
  (forall c, c ∈ cs ->
     aud_playlist_entry_get_selected pl (to_gint (top + c)) h = false) ->
  foldl (fun selected count =>
           if aud_playlist_entry_get_selected pl (to_gint (top + count)) h
           then to_gint (selected + 1) else selected) acc cs
  = acc.
Proof.
  induction cs as [|c cs IH]; intros acc Hnone; cbn [foldl]; [done|].
  rewrite Hnone by (apply elem_of_cons; by left).
  apply IH. intros c' Hc'. apply Hnone, elem_of_cons. by right.
Qed.

(** ** playlist_select_range, playlist_count_selected_in_range *)

(** C8. When the rows [top .. top+length-1] exist in playlist [pl], after
    playlist_select_range a row of [pl] is selected exactly when its index
    lies in that range; counting the selected rows of the same range gives
    [length], and counting over a range that shares no index with it
    gives 0. *)
Theorem playlist_select_range_selects (pl top length : Z) (h : host) :
  0 <= top -> 0 <= length ->
  (forall i, top <= i < top + length ->
             0 <= i < aud_playlist_entry_count pl h) ->
  aud_playlist_entry_count pl h <= G_MAXINT ->
  let h' := playlist_select_range pl top length h in
  (forall i, aud_playlist_entry_get_selected pl i h' = true
             <-> top <= i < top + length)
  /\ playlist_count_selected_in_range pl top length h' = length
  /\ (forall top2 length2,
        G_MININT <= top2 <= G_MAXINT -> length2 <= G_MAXINT ->
        (forall j, top2 <= j < top2 + length2 -> ~ (top <= j < top + length)) ->
        playlist_count_selected_in_range pl top2 length2 h' = 0).
Proof.
  intros Htop Hlen Hrows Hmax h'.
  assert (Hsel : forall i, aud_playlist_entry_get_selected pl i h' = true
                           <-> top <= i < top + length).
  { intros i. subst h'. unfold playlist_select_range.
    destruct (select_fold pl top (seqZ 0 length)
                (aud_playlist_select_all pl false h) i) as [_ Hget].
    rewrite Hget, get_selected_select_all_false, entry_count_select_all.
    split.
    - intros [H|(c & Hc & Hi & Hr)]; [done|].
      apply elem_of_seqZ in Hc.
      specialize (Hrows (top + c) ltac:(lia)).
      rewrite to_gint_id in Hi by fits. lia.
    - intros Hi. right. exists (i - top). split; [apply elem_of_seqZ; lia|].
      specialize (Hrows i Hi). replace (top + (i - top)) with i by lia.
      rewrite to_gint_id by fits. done. }
  split; [exact Hsel|]. split.
  - unfold playlist_count_selected_in_range.
    assert (Hfit : length <= G_MAXINT).
    { destruct (Z.eq_dec length 0) as [->|Hnz]; [unfold G_MAXINT; lia|].
      specialize (Hrows (top + length - 1) ltac:(lia)). lia. }
    rewrite count_fold_all; rewrite ?length_seqZ; try lia.
    intros c Hc. apply elem_of_seqZ in Hc.
    specialize (Hrows (top + c) ltac:(lia)).
    rewrite to_gint_id by fits.
    apply Hsel. lia.
  - intros top2 length2 Ht2 Hl2 Hdisj.
    unfold playlist_count_selected_in_range. apply count_fold_none.
    intros c Hc. apply elem_of_seqZ in Hc.
    apply not_true_is_false. rewrite Hsel. intros Hin.
    unfold G_MININT, G_MAXINT in *.
    destruct (Z.le_gt_cases (top2 + c) 2147483647) as [Hle | Hgt].
    + rewrite to_gint_id in Hin by fits.
      apply (Hdisj (top2 + c)); lia.
    + rewrite to_gint_wrapped in Hin by fits. lia.
Qed.

(** Rows 1..3 of the six: exactly they are selected afterwards, three are
    counted in the range and none in rows 4..5. *)
Lemma playlist_select_range_selects_witness :
  let h' := playlist_select_range 0 1 3 Samples.six_rows in
  h_playlists h' = [[false; true; true; true; false; false]]
  /\ playlist_count_selected_in_range 0 1 3 h' = 3
  /\ playlist_count_selected_in_range 0 4 2 h' = 0.
Proof.
  cbv zeta.
  assert (Hrows : forall i, 1 <= i < 1 + 3 ->
            0 <= i < aud_playlist_entry_count 0 Samples.six_rows)
    by (intros i Hi; change (aud_playlist_entry_count 0 Samples.six_rows) with 6; lia).
  assert (Hmax : aud_playlist_entry_count 0 Samples.six_rows <= G_MAXINT)
    by (vm_compute; discriminate).
  destruct (playlist_select_range_selects 0 1 3 Samples.six_rows
              ltac:(lia) ltac:(lia) Hrows Hmax) as (_ & Hcount & Hother).
  split; [vm_compute; reflexivity|]. split; [exact Hcount|].
  apply Hother; [unfold G_MININT, G_MAXINT; lia | unfold G_MAXINT; lia |].
  intros j Hj. lia.
Defined.

(** ** treeview_refresh_selection_now *)

(** The loop of treeview_refresh_selection_now after [k] turns on a tree of
    at least [k] rows: the first [k] rows show the host's flags, the others
    are as before, and the iterator stands on row [k] if there is one. *)
Lemma refresh_fold h pl (t : tree_view) (k : nat) :
  (k <= length (tv_selected t))%nat ->
  let r := foldl (refresh_row h pl) (t, gtk_tree_model_get_iter_first t)
                 (seqZ 0 (Z.of_nat k)) in
  tv_selected r.1
    = ((fun row => aud_playlist_entry_get_selected pl row h)
         <$> seqZ 0 (Z.of_nat k)) ++ drop k (tv_selected t)
  /\ r.2 = (if row_exists t (Z.of_nat k) then Some (Z.of_nat k) else None)
  /\ tv_model r.1 = tv_model t /\ tv_cursor r.1 = tv_cursor t
  /\ tv_scrolled r.1 = tv_scrolled t /\ tv_blocked r.1 = tv_blocked t.
Proof.
  induction k as [|k IH]; intros Hk r.
  - subst r. cbn. by repeat split.
  - specialize (IH ltac:(lia)). cbv zeta in IH.
    destruct IH as (Hsel & Hit & Hm & Hc & Hs & Hb).
    subst r. rewrite seqZ_S, foldl_app. cbn [foldl].
    destruct (foldl _ _ (seqZ 0 (Z.of_nat k))) as [tk itk]. cbn in Hsel, Hit, Hm, Hc, Hs, Hb.
    assert (Hex : row_exists t (Z.of_nat k) = true)
      by (unfold row_exists; apply andb_true_iff; lia).
    rewrite Hex in Hit. subst itk.
    unfold refresh_row, gtk_tree_selection_set_iter. cbn.
    rewrite Nat2Z.id, Hsel.
    assert (Hl1 : length ((fun row => aud_playlist_entry_get_selected pl row h)
                            <$> seqZ 0 (Z.of_nat k)) = k)
      by (by rewrite length_fmap, length_seqZ, Nat2Z.id).
    destruct (lookup_lt_is_Some_2 (tv_selected t) k ltac:(lia)) as [x Hx].
    rewrite (drop_S _ _ _ Hx).
    rewrite insert_app_r_alt by lia. rewrite Hl1, Nat.sub_diag. cbn [insert list_insert].
    split; [|split; [|by repeat split]].
    + rewrite fmap_app, <- app_assoc. reflexivity.
    + unfold gtk_tree_model_iter_next, row_exists. cbn.
      rewrite length_app, Hl1. cbn [length]. rewrite length_drop.
      replace (Z.of_nat k + 1) with (Z.of_nat (S k)) by lia.
      replace (Z.of_nat (k + S (length (tv_selected t) - S k)))
        with (Z.of_nat (length (tv_selected t))) by lia.
      reflexivity.
Qed.

(** C6. On a tree whose model has one row per entry of its playlist,
    after treeview_refresh_selection_now the visual selected state of every
    row [i] of the [n] rows is the selected flag the host holds for row
    [i]: the selection is the list of those flags, whatever it was before
    (two trees over the same playlist end with the same selection). *)
Theorem treeview_refresh_selection_now_syncs (s : ui) :
  let pl := playlist (tv_model (ui_tree s)) in
  let n := aud_playlist_entry_count pl (ui_host s) in
  Z.of_nat (length (tv_selected (ui_tree s))) = n ->
  let s' := treeview_refresh_selection_now s in
  (forall i, 0 <= i < n ->
     at_index (tv_selected (ui_tree s')) i
     = Some (aud_playlist_entry_get_selected pl i (ui_host s)))
  /\ tv_selected (ui_tree s') = authoritative_flags pl (ui_host s)
  /\ ui_host s' = ui_host s
  /\ (forall s2 : ui,
        ui_host s2 = ui_host s ->
        playlist (tv_model (ui_tree s2)) = pl ->
        length (tv_selected (ui_tree s2)) = length (tv_selected (ui_tree s)) ->
        tv_selected (ui_tree (treeview_refresh_selection_now s2))
        = tv_selected (ui_tree s')).
Proof.
  assert (Hflags : forall s0 : ui,
    Z.of_nat (length (tv_selected (ui_tree s0)))
      = aud_playlist_entry_count (playlist (tv_model (ui_tree s0))) (ui_host s0) ->
    tv_selected (ui_tree (treeview_refresh_selection_now s0))
      = authoritative_flags (playlist (tv_model (ui_tree s0))) (ui_host s0)
    /\ ui_host (treeview_refresh_selection_now s0) = ui_host s0).
  { intros s0 Hrows. unfold treeview_refresh_selection_now, authoritative_flags.
    set (pl0 := playlist (tv_model (ui_tree s0))) in *.
    destruct (aud_playlist_entry_count pl0 (ui_host s0) =? 0) eqn:E.
    - apply Z.eqb_eq in E. rewrite E in *. cbn.
      destruct (tv_selected (ui_tree s0)); [done | cbn in Hrows; lia].
    - cbn. rewrite <- Hrows.
      destruct (refresh_fold (ui_host s0) pl0 (ui_tree s0)
                  (length (tv_selected (ui_tree s0))) ltac:(lia)) as (Hsel & _).
      rewrite Hsel, drop_all, app_nil_r. done. }
  intros pl n Hrows s'.
  destruct (Hflags s Hrows) as [Hsel Hhost]. fold pl in Hsel. fold s' in Hsel, Hhost.
  split; [|split; [exact Hsel | split; [exact Hhost|]]].
  - intros i Hi. rewrite Hsel. unfold authoritative_flags, at_index.
    destruct (i <? 0) eqn:E; [lia|]. fold n.
    rewrite list_lookup_fmap.
    assert (Hl : seqZ 0 n !! Z.to_nat i = Some i)
      by (apply lookup_seqZ; lia).
    rewrite Hl. reflexivity.
  - intros s2 Hh Hp Hl. destruct (Hflags s2) as [Hsel2 _].
    + rewrite Hp, Hh, Hl. exact Hrows.
    + rewrite Hsel2, Hsel, Hp, Hh. reflexivity.
Qed.

(** A tree of six rows showing rows 1 and 2 selected comes to show rows 0
    and 5, as the host has them. *)
Lemma treeview_refresh_selection_now_syncs_witness :
  let s := Samples.six_view [false; true; true; false; false; false] false in
  tv_selected (ui_tree (treeview_refresh_selection_now s))
  = [true; false; false; false; false; true].
Proof.
  cbv zeta.
  destruct (treeview_refresh_selection_now_syncs
              (Samples.six_view [false; true; true; false; false; false] false)
              eq_refl) as (_ & H & _).
  rewrite H. vm_compute. reflexivity.
Defined.

(** ** Deferring or applying: treeview_set_focus, treeview_refresh_selection *)

Lemma ui_log_rebase pre b e t :
  ui_log e (rebase pre b t) = rebase pre b (ui_log e t).
Proof. unfold ui_log, rebase. cbn. by rewrite app_assoc. Qed.

Lemma set_iter_rebase pre b sel iter t :
  gtk_tree_selection_set_iter sel iter (rebase pre b t)
  = rebase pre b (gtk_tree_selection_set_iter sel iter t).
Proof.
  unfold gtk_tree_selection_set_iter. destruct iter as [row|]; [|done].
  unfold with_selected, ui_log, rebase. cbn. by rewrite app_assoc.
Qed.

Lemma set_cursor_rebase pre b row t :
  gtk_tree_view_set_cursor row (rebase pre b t)
  = rebase pre b (gtk_tree_view_set_cursor row t).
Proof.
  unfold gtk_tree_view_set_cursor. rewrite ui_log_rebase.
  unfold row_exists. cbn. destruct (_ && _); [|done].
  unfold rebase. cbn. by rewrite app_assoc.
Qed.

Lemma scroll_to_cell_rebase pre b row t :
  gtk_tree_view_scroll_to_cell row (rebase pre b t)
  = rebase pre b (gtk_tree_view_scroll_to_cell row t).
Proof.
  unfold gtk_tree_view_scroll_to_cell. rewrite ui_log_rebase.
  unfold row_exists. cbn. destruct (_ && _); [|done].
  unfold rebase. cbn. by rewrite app_assoc.
Qed.

Lemma refresh_fold_rebase pre b h pl (cs : list Z) : forall t iter,
  foldl (refresh_row h pl) (rebase pre b t, iter) cs
  = (rebase pre b (foldl (refresh_row h pl) (t, iter) cs).1,
     (foldl (refresh_row h pl) (t, iter) cs).2).
Proof.
  induction cs as [|c cs IH]; intros t iter; cbn [foldl]; [done|].
  assert (Hrow : refresh_row h pl (rebase pre b t, iter) c
                 = (rebase pre b (refresh_row h pl (t, iter) c).1,
                    (refresh_row h pl (t, iter) c).2)).
  { unfold refresh_row. by rewrite set_iter_rebase. }
  rewrite Hrow. destruct (refresh_row h pl (t, iter) c) as [t1 it1]. apply IH.
Qed.

Lemma refresh_selection_now_rebase pre b s :
  treeview_refresh_selection_now (on_tree (rebase pre b) s)
  = on_tree (rebase pre b) (treeview_refresh_selection_now s).
Proof.
  unfold treeview_refresh_selection_now. cbn.
  destruct (_ =? 0); [done|].
  unfold on_tree. cbn. f_equal.
  change (gtk_tree_model_get_iter_first (rebase pre b (ui_tree s)))
    with (gtk_tree_model_get_iter_first (ui_tree s)).
  by rewrite refresh_fold_rebase.
Qed.

Lemma set_focus_now_rebase pre b focus s :
  treeview_set_focus_now focus (on_tree (rebase pre b) s)
  = on_tree (rebase pre b) (treeview_set_focus_now focus s).
Proof.
  assert (Hgo : forall f,
    treeview_refresh_selection_now
      (on_tree (gtk_tree_view_scroll_to_cell f)
         (on_tree (gtk_tree_view_set_cursor f) (on_tree (rebase pre b) s)))
    = on_tree (rebase pre b)
        (treeview_refresh_selection_now
           (on_tree (gtk_tree_view_scroll_to_cell f)
              (on_tree (gtk_tree_view_set_cursor f) s)))).
  { intros f. rewrite <- refresh_selection_now_rebase. f_equal.
    unfold on_tree. cbn. f_equal.
    by rewrite set_cursor_rebase, scroll_to_cell_rebase. }
  unfold treeview_set_focus_now. cbn [on_tree ui_tree ui_host rebase tv_model].
  destruct (focus <? 0); [destruct (_ =? 0); [done|]|]; apply Hgo.
Qed.

Lemma rebase_clear_log s :
  on_tree (rebase (tv_log (ui_tree s)) (tv_blocked (ui_tree s)))
    (on_tree clear_log s) = s.
Proof.
  destruct s as [h t]. destruct t. unfold on_tree, rebase, clear_log. cbn.
  by rewrite app_nil_r.
Qed.

Lemma ui_issued_app s s' evs :
  tv_log (ui_tree s') = tv_log (ui_tree s) ++ evs -> ui_issued s s' = evs.
Proof. intros H. unfold ui_issued. rewrite H. apply drop_app_length. Qed.

(** An operation that commutes with [rebase] only appends to the log, and
    appends the same events whatever the log and the blocked flag are. *)
Section Bracket.
Variable F : ui -> ui.
Hypothesis F_rebase : forall pre b s,
  F (on_tree (rebase pre b) s) = on_tree (rebase pre b) (F s).

Lemma rebase_issued s :
  ui_issued s (F s) = tv_log (ui_tree (F (on_tree clear_log s))).
Proof.
  assert (Hs : F s = on_tree (rebase (tv_log (ui_tree s)) (tv_blocked (ui_tree s)))
                       (F (on_tree clear_log s)))
    by (by rewrite <- F_rebase, rebase_clear_log).
  apply ui_issued_app. rewrite Hs at 1. reflexivity.
Qed.

(** Blocking, applying, unblocking: the events of the apply between the
    two block events, and what shows is what the apply alone shows. *)
Lemma bracket_apply s :
  let s' := on_tree (ui_playlist_widget_block_updates false)
              (F (on_tree (ui_playlist_widget_block_updates true) s)) in
  ui_issued s s'
    = EvBlockUpdates true :: ui_issued s (F s) ++ [EvBlockUpdates false]
  /\ visible s' = visible (F s)
  /\ tv_blocked (ui_tree s') = false.
Proof.
  intros s'. rewrite rebase_issued.
  set (s0 := on_tree clear_log s).
  assert (Hb : on_tree (ui_playlist_widget_block_updates true) s
               = on_tree (rebase (tv_log (ui_tree s) ++ [EvBlockUpdates true]) true) s0).
  { destruct s as [h t]. destruct t. unfold on_tree, rebase. cbn.
    by rewrite app_nil_r. }
  assert (Hs : F s = on_tree (rebase (tv_log (ui_tree s)) (tv_blocked (ui_tree s)))
                       (F s0)).
  { rewrite <- F_rebase. subst s0. by rewrite rebase_clear_log. }
  subst s'. rewrite Hb, F_rebase, Hs. split; [|split].
  - apply ui_issued_app. cbn. by rewrite <- !app_assoc.
  - reflexivity.
  - reflexivity.
Qed.
End Bracket.

Lemma quiet_log_refresh_fold h pl (cs : list Z) : forall t iter,
  quiet_log t -> quiet_log (foldl (refresh_row h pl) (t, iter) cs).1.
Proof.
  induction cs as [|c cs IH]; intros t iter Hq; cbn [foldl]; [done|].
  unfold refresh_row at 2. apply IH.
  unfold gtk_tree_selection_set_iter. destruct iter as [row|]; [|done].
  unfold quiet_log. cbn. apply Forall_app. split; [exact Hq|].
  apply Forall_singleton. by destruct (aud_playlist_entry_get_selected _ _ _).
Qed.

Lemma quiet_log_refresh_selection_now s :
  quiet_log (ui_tree s) -> quiet_log (ui_tree (treeview_refresh_selection_now s)).
Proof.
  intros Hq. unfold treeview_refresh_selection_now.
  destruct (_ =? 0); [done|]. cbn. by apply quiet_log_refresh_fold.
Qed.

Lemma quiet_log_set_focus_now row s :
  quiet_log (ui_tree s) -> quiet_log (ui_tree (treeview_set_focus_now row s)).
Proof.
  intros Hq.
  assert (Hgo : forall f,
    quiet_log (ui_tree (treeview_refresh_selection_now
      (on_tree (gtk_tree_view_scroll_to_cell f)
         (on_tree (gtk_tree_view_set_cursor f) s))))).
  { intros f. apply quiet_log_refresh_selection_now. cbn.
    unfold gtk_tree_view_scroll_to_cell.
    assert (Hc : quiet_log (gtk_tree_view_set_cursor f (ui_tree s))).
    { unfold gtk_tree_view_set_cursor.
      assert (quiet_log (ui_log (EvSetCursor f) (ui_tree s)))
        by (apply Forall_app; split; [exact Hq | by apply Forall_singleton]).
      by destruct (row_exists _ _). }
    assert (quiet_log (ui_log (EvScrollToCell f) (gtk_tree_view_set_cursor f (ui_tree s))))
      by (apply Forall_app; split; [exact Hc | by apply Forall_singleton]).
    by destruct (row_exists _ _). }
  unfold treeview_set_focus_now.
  destruct (row <? 0); [destruct (_ =? 0); [done|]|]; apply Hgo.
Qed.

(** C7. With an update pending, treeview_set_focus only sets
    [focus_changed] and records the row in the model, and
    treeview_refresh_selection only sets [selection_changed]: nothing is
    asked of the toolkit, and the selection, the cursor and the scroll
    position stay. With no update pending, each asks the widget to block
    updates, applies at once through treeview_set_focus_now or
    treeview_refresh_selection_now, and unblocks: the events are those of
    the apply, none of them a block event, between the block and the
    unblock, and what shows is what the apply alone gives. *)
Theorem treeview_defer_or_apply (row : Z) (s : ui) :
  let m := tv_model (ui_tree s) in
  (aud_playlist_update_pending (ui_host s) = true ->
     visible (treeview_set_focus row s)
       = (ui_host s,
          {| playlist := playlist m; focus_changed := true;
             selection_changed := selection_changed m; focus := row |},
          tv_selected (ui_tree s), tv_cursor (ui_tree s),
          tv_scrolled (ui_tree s))
     /\ ui_issued s (treeview_set_focus row s) = []
     /\ visible (treeview_refresh_selection s)
        = (ui_host s,
           {| playlist := playlist m; focus_changed := focus_changed m;
              selection_changed := true; focus := focus m |},
           tv_selected (ui_tree s), tv_cursor (ui_tree s),
           tv_scrolled (ui_tree s))
     /\ ui_issued s (treeview_refresh_selection s) = [])
  /\ (aud_playlist_update_pending (ui_host s) = false ->
       (ui_issued s (treeview_set_focus row s)
          = EvBlockUpdates true
            :: ui_issued s (treeview_set_focus_now row s)
            ++ [EvBlockUpdates false]
        /\ Forall (fun e => is_block_event e = false)
                  (ui_issued s (treeview_set_focus_now row s))
        /\ visible (treeview_set_focus row s)
           = visible (treeview_set_focus_now row s))
       /\ (ui_issued s (treeview_refresh_selection s)
             = EvBlockUpdates true
               :: ui_issued s (treeview_refresh_selection_now s)
               ++ [EvBlockUpdates false]
           /\ Forall (fun e => is_block_event e = false)
                     (ui_issued s (treeview_refresh_selection_now s))
           /\ visible (treeview_refresh_selection s)
              = visible (treeview_refresh_selection_now s))).
Proof.
  intros m. split.
  - intros Hp. unfold treeview_set_focus, treeview_refresh_selection.
    rewrite Hp. split; [reflexivity|]. split; [apply ui_issued_app; cbn; by rewrite app_nil_r|].
    split; [reflexivity|]. apply ui_issued_app. cbn. by rewrite app_nil_r.
  - intros Hp. unfold treeview_set_focus, treeview_refresh_selection.
    assert (Hp' : aud_playlist_update_pending (ui_host s) = false) by exact Hp.
    rewrite Hp'. split.
    + destruct (bracket_apply (treeview_set_focus_now row)
                  (fun pre b s0 => set_focus_now_rebase pre b row s0) s)
        as (Hev & Hvis & _).
      split; [exact Hev|]. split; [|exact Hvis].
      rewrite (rebase_issued (treeview_set_focus_now row)
                 (fun pre b s0 => set_focus_now_rebase pre b row s0)).
      apply quiet_log_set_focus_now. constructor.
    + destruct (bracket_apply treeview_refresh_selection_now
                  refresh_selection_now_rebase s) as (Hev & Hvis & _).
      split; [exact Hev|]. split; [|exact Hvis].
      rewrite (rebase_issued treeview_refresh_selection_now
                 refresh_selection_now_rebase).
      apply quiet_log_refresh_selection_now. constructor.
Qed.

(** Focus on row 4 of the six rows: deferred while an update is pending,
    applied between block and unblock otherwise (set_cursor selects row 4
    and the refresh puts the host's selection back, the cursor stays). *)
Lemma treeview_defer_or_apply_witness :
  let sel := [false; true; true; false; false; false] in
  (focus (tv_model (ui_tree (treeview_set_focus 4 (Samples.six_view sel true)))) = 4
   /\ focus_changed
        (tv_model (ui_tree (treeview_set_focus 4 (Samples.six_view sel true))))
      = true
   /\ tv_cursor (ui_tree (treeview_set_focus 4 (Samples.six_view sel true))) = None)
  /\ (head (ui_issued (Samples.six_view sel false)
                      (treeview_set_focus 4 (Samples.six_view sel false)))
      = Some (EvBlockUpdates true)
      /\ last (ui_issued (Samples.six_view sel false)
                         (treeview_set_focus 4 (Samples.six_view sel false)))
         = Some (EvBlockUpdates false)
      /\ tv_cursor (ui_tree (treeview_set_focus 4 (Samples.six_view sel false)))
         = Some 4
      /\ tv_selected (ui_tree (treeview_set_focus 4 (Samples.six_view sel false)))
         = [true; false; false; false; false; true]).
Proof.
  cbv zeta. split.
  - destruct (treeview_defer_or_apply 4
                (Samples.six_view [false; true; true; false; false; false] true))
      as [Hdefer _].
    destruct (Hdefer eq_refl) as (Hvis & _).
    pose proof (f_equal (fun v => v.1.1.1.2) Hvis) as Hm.
    pose proof (f_equal (fun v => v.1.2) Hvis) as Hc.
    unfold visible in Hm, Hc. cbn [fst snd] in Hm, Hc.
    rewrite Hm, Hc. split; [reflexivity|]. split; reflexivity.
  - destruct (treeview_defer_or_apply 4
                (Samples.six_view [false; true; true; false; false; false] false))
      as [_ Happly].
    destruct (Happly eq_refl) as ((Hev & _ & Hvis) & _).
    pose proof (f_equal (fun v => v.1.1.2) Hvis) as Hs.
    pose proof (f_equal (fun v => v.1.2) Hvis) as Hc.
    unfold visible in Hs, Hc. cbn [fst snd] in Hs, Hc.
    rewrite Hev, Hs, Hc. split; [reflexivity|].
    split; [rewrite app_comm_cons, last_snoc; reflexivity|].
    split; vm_compute; reflexivity.
Defined.

(** * Further properties of unix-io.c *)

Import Observe.

(** ** The read loop *)

Lemma sys_read_ok fd count w o i :
  resolve fd w = Some (o, i) -> can_read (o_flags o) = true ->
  w_oracle w (w_clock w) <> Fault ->
  let n := allowed (w_oracle w (w_clock w))
             (Z.min count (Z.of_nat (length (unread o i)))) in
  sys_read fd count w
  = (n, take (Z.to_nat n) (unread o i),
     set_fds (<[fd := set_pos (o_pos o + n) o]> (w_fds w))
       (next_event (log (SysRead fd count) w)).2).
Proof.
  intros Hr Hc Hf n. unfold sys_read.
  change (resolve fd (log (SysRead fd count) w)) with (resolve fd w).
  rewrite Hr, Hc. cbn.
  destruct (w_oracle w (w_clock w)) eqn:E; try done.
Qed.

(** Whatever the oracle does, what the loop has appended to the buffer is
    the run of file bytes the offset has moved over. *)
Lemma fread_loop_data fuel : forall fd goal total buf w o i t' buf' w',
  resolve fd w = Some (o, i) -> 0 <= o_pos o -> 0 <= total ->
  goal <= G_MAXINT ->
  fread_loop fuel fd goal total buf w = Some (t', buf', w') ->
  exists extra o',
    buf' = buf ++ extra
    /\ t' = total + Z.of_nat (length extra)
    /\ extra = take (length extra) (unread o i)
    /\ resolve fd w' = Some (o', i)
    /\ o_pos o' = o_pos o + Z.of_nat (length extra)
    /\ o_flags o' = o_flags o
    /\ w_fs w' = w_fs w /\ w_oracle w' = w_oracle w
    /\ (w_clock w <= w_clock w')%nat.
Proof.
  induction fuel as [|fuel IH];
    intros fd goal total buf w o i t' buf' w' Hr Hp Ht Hg;
    cbn [fread_loop]; destruct (total <? goal) eqn:E; try discriminate.
  1,3: intros [= <- <- <-]; exists [], o; rewrite app_nil_r; cbn;
       repeat split; try done; lia.
  assert (Hgt : total < goal) by lia.
  rewrite (to_gint_id (goal - total)) by fits.
  rewrite (to_size_t_id (goal - total)) by fits.
  destruct (sys_read_effect fd (goal - total) w o i Hr ltac:(lia) Hp)
    as (r & got & w1 & Hread & Hfs & Hor & Hcl & _ & Hcase).
  rewrite Hread.
  destruct Hcase as [(-> & -> & Hr1) | (Hb & Hgot & Hlen & Hr1)].
  { change (to_gint (-1) =? -1) with true. cbv iota.
    intros [= <- <- <-]. exists [], o. rewrite app_nil_r. cbn.
    repeat split; try done; lia. }
  rewrite (to_gint_id r) by fits.
  destruct (r =? -1) eqn:E1; [lia|].
  destruct (r =? 0) eqn:E0.
  { assert (r = 0) as -> by lia.
    intros [= <- <- <-]. exists [], (set_pos (o_pos o + 0) o).
    rewrite app_nil_r. cbn. repeat split; try done; lia. }
  rewrite (to_gint_id (total + r)) by fits.
  intros Hrun.
  apply (IH _ _ _ _ _ (set_pos (o_pos o + r) o) i) in Hrun;
    [|exact Hr1 | cbn; lia | lia | done].
  destruct Hrun as (extra & o' & -> & -> & Hex & Hr' & Hpos' & Hfl' & Hfs' & Hor' & Hcl').
  cbn in Hpos', Hfl'.
  exists (got ++ extra), o'. rewrite app_assoc, length_app.
  split; [done|]. split; [lia|]. split.
  - replace (length got + length extra)%nat
      with (Z.to_nat r + length extra)%nat by lia.
    rewrite <- take_take_drop. f_equal; [exact Hgot|].
    rewrite Hex at 1. f_equal. unfold unread. cbn. rewrite drop_drop.
    f_equal. lia.
  - repeat split; try done; try lia; congruence.
Qed.

(** With a steady oracle and read access the loop goes on until the goal
    is met or the file ends. *)
Lemma fread_loop_steady fuel : forall fd goal total buf w o i t' buf' w',
  steady w -> can_read (o_flags o) = true ->
  resolve fd w = Some (o, i) -> 0 <= o_pos o -> 0 <= total <= goal ->
  goal <= G_MAXINT ->
  fread_loop fuel fd goal total buf w = Some (t', buf', w') ->
  t' - total = Z.min (goal - total) (Z.of_nat (length (unread o i))).
Proof.
  induction fuel as [|fuel IH];
    intros fd goal total buf w o i t' buf' w' Hst Hc Hr Hp Ht Hg;
    cbn [fread_loop]; destruct (total <? goal) eqn:E; try discriminate.
  1,3: intros [= <- <- <-]; lia.
  assert (Hgt : total < goal) by lia.
  rewrite (to_gint_id (goal - total)) by fits.
  rewrite (to_size_t_id (goal - total)) by fits.
  destruct (Hst (w_clock w) ltac:(lia)) as [Hnf Hns].
  rewrite (sys_read_ok fd (goal - total) w o i Hr Hc Hnf). cbv zeta.
  set (left_ := Z.of_nat (length (unread o i))).
  set (m := Z.min (goal - total) left_).
  set (n := allowed _ m).
  assert (Hn : (m = 0 -> n = 0) /\ (0 < m -> 1 <= n <= m)).
  { subst n. destruct (w_oracle w (w_clock w)) as [|k|]; cbn; try done.
    - lia.
    - destruct k; [done | lia]. }
  assert (0 <= m) by lia.
  rewrite (to_gint_id n) by fits.
  destruct (n =? -1) eqn:E1; [lia|].
  destruct (n =? 0) eqn:E0; [intros [= <- <- <-]; lia|].
  rewrite (to_gint_id (total + n)) by fits.
  intros Hrun.
  eapply (IH _ _ _ _ _ (set_pos (o_pos o + n) o) i) in Hrun; try done.
  - subst m left_. unfold unread in *. cbn in Hrun.
    rewrite length_drop in *. lia.
  - intros k Hk. apply Hst. cbn in Hk. lia.
  - by apply resolve_set_pos.
  - cbn. lia.
  - lia.
Qed.

Lemma resolve_of_view fd w p data :
  position fd w = Some p -> contents fd w = Some data ->
  exists o i, resolve fd w = Some (o, i) /\ o_pos o = p /\ i_data i = data.
Proof.
  unfold position, contents, resolve.
  destruct (w_fds w !! fd) as [o|]; [|done].
  destruct (w_fs w !! o_path o) as [i|]; [|done]. cbn.
  intros [= <-] [= <-]. by exists o, i.
Qed.

Lemma resolve_contents fd w o i :
  resolve fd w = Some (o, i) -> contents fd w = Some (i_data i).
Proof. unfold contents. by intros ->. Qed.

Lemma resolve_open_flags fd w o i :
  resolve fd w = Some (o, i) -> open_flags fd w = Some (o_flags o).
Proof.
  unfold resolve, open_flags. destruct (w_fds w !! fd) as [o'|]; [|done].
  destruct (w_fs w !! o_path o'); [|done]. by intros [= <- <-].
Qed.

(** unix_fread on a resolved descriptor, whatever the oracle does. *)
Lemma unix_fread_data size nitems file w o i :
  resolve (handle file) w = Some (o, i) -> 0 <= o_pos o ->
  let r := unix_fread size nitems file w in
  r.1.2 = take (length r.1.2) (unread o i)
  /\ exists o', resolve (handle file) r.2 = Some (o', i)
                /\ o_pos o' = o_pos o + Z.of_nat (length r.1.2)
                /\ o_flags o' = o_flags o
                /\ w_oracle r.2 = w_oracle w
                /\ (w_clock w <= w_clock r.2)%nat.
Proof.
  intros Hr Hp r.
  destruct (unix_fread_runs size nitems file w)
    as (total & buf & w' & Hloop & Hrun & _ & _).
  pose proof (to_gint_range (to_size_t (size * nitems))) as Hg.
  fold (byte_goal size nitems) in Hg.
  apply (fread_loop_data _ _ _ _ _ _ o i) in Hloop; try done; [|lia].
  destruct Hloop as (extra & o' & Hbuf & _ & Hex & Hr' & Hpos & Hfl & _ & Hor & Hcl).
  cbn in Hbuf. subst buf. subst r. rewrite Hrun. cbn [fst snd].
  split; [exact Hex|]. by exists o'.
Qed.

(** unix_fread with a steady oracle and read access: all the bytes asked
    for, or all that are left. *)
Lemma unix_fread_steady size nitems file w o i :
  steady w -> can_read (o_flags o) = true ->
  resolve (handle file) w = Some (o, i) -> 0 <= o_pos o ->
  0 <= size * nitems <= G_MAXINT ->
  (unix_fread size nitems file w).1.2
  = take (Z.to_nat (size * nitems)) (unread o i).
Proof.
  intros Hst Hc Hr Hp Hg.
  destruct (unix_fread_data size nitems file w o i Hr Hp) as (Hbuf & _).
  destruct (unix_fread_runs size nitems file w)
    as (total & buf & w' & Hloop & Hrun & _ & Hlen).
  rewrite byte_goal_small in Hloop by done.
  apply (fread_loop_steady _ _ _ _ _ _ o i) in Hloop; try done; [|lia|lia].
  rewrite Hrun in Hbuf |- *. cbn [fst snd] in *.
  rewrite Hbuf.
  assert (Hn : length buf
               = Nat.min (Z.to_nat (size * nitems)) (length (unread o i)))
    by lia.
  rewrite Hn.
  destruct (Nat.le_gt_cases (Z.to_nat (size * nitems)) (length (unread o i))).
  - by rewrite Nat.min_l by lia.
  - rewrite Nat.min_r by lia. by rewrite !take_ge by lia.
Qed.

(** X1. For an element size above 0 and any count, unix_fread returns the
    number of bytes it stored divided by the element size, rounded down;
    the value is never negative and never more than the count. *)
Theorem unix_fread_whole_items (size nitems : Z) (file : VFSFile) (w : world) :
  0 < size -> 0 <= nitems ->
  (unix_fread size nitems file w).1.1
    = Z.of_nat (length (unix_fread size nitems file w).1.2) / size
  /\ 0 <= (unix_fread size nitems file w).1.1 <= nitems.
Proof. apply unix_fread_items. Qed.

(** Two elements of two bytes asked from the three bytes of /tmp/a: three
    bytes are stored and one whole element is counted. *)
Lemma unix_fread_whole_items_witness :
  let w := Samples.one_file Regular Samples.abc O_RDONLY 0 Samples.calm in
  (unix_fread 2 2 Samples.fd3 w).1.2 = Samples.abc
  /\ (unix_fread 2 2 Samples.fd3 w).1.1 = 1.
Proof.
  cbv zeta. split; [vm_compute; reflexivity|].
  destruct (unix_fread_whole_items 2 2 Samples.fd3
              (Samples.one_file Regular Samples.abc O_RDONLY 0 Samples.calm)
              ltac:(lia) ltac:(lia)) as [H _].
  rewrite H. vm_compute. reflexivity.
Defined.

(** X2. Whatever the reads do (short, empty, failing), what unix_fread has
    stored is the run of file bytes starting at the old offset, the offset
    has advanced by exactly the bytes stored, and the file is untouched: a
    failed read in the middle loses no byte and skips none. *)
Theorem unix_fread_stores_what_it_passes (size nitems p : Z) (data : list byte)
    (file : VFSFile) (w : world) :
  position (handle file) w = Some p -> contents (handle file) w = Some data ->
  0 <= p ->
  let r := unix_fread size nitems file w in
  r.1.2 = take (length r.1.2) (drop (Z.to_nat p) data)
  /\ position (handle file) r.2 = Some (p + Z.of_nat (length r.1.2))
  /\ contents (handle file) r.2 = Some data.
Proof.
  intros Hpos Hcon Hp r.
  destruct (resolve_of_view _ _ _ _ Hpos Hcon) as (o & i & Hr & <- & <-).
  destruct (unix_fread_data size nitems file w o i Hr Hp)
    as (Hbuf & o' & Hr' & Hpos' & _).
  fold r in Hbuf, Hr', Hpos'. split; [exact Hbuf|]. split.
  - rewrite (resolve_position _ _ _ _ Hr'). by f_equal.
  - exact (resolve_contents _ _ _ _ Hr').
Qed.

(** Five bytes asked of "hello" when the second read fails: "h" is stored
    and the offset stands at 1. *)
Lemma unix_fread_stores_what_it_passes_witness :
  let w := Samples.one_file Regular MoreSamples.hello O_RDONLY 0
             (fun n => match n with O => Short 1 | _ => Fault end) in
  (unix_fread 1 5 Samples.fd3 w).1.2 = ["h"%byte]
  /\ position 3 (unix_fread 1 5 Samples.fd3 w).2 = Some 1.
Proof.
  cbv zeta.
  destruct (unix_fread_stores_what_it_passes 1 5 0 MoreSamples.hello Samples.fd3
              (Samples.one_file Regular MoreSamples.hello O_RDONLY 0
                 (fun n => match n with O => Short 1 | _ => Fault end))
              eq_refl eq_refl ltac:(lia)) as (_ & Hpos & _).
  split; [vm_compute; reflexivity|].
  refine (eq_trans Hpos _). vm_compute. reflexivity.
Defined.

(** X3. Short reads are made up for: on a descriptor open for reading,
    for a byte total [size * nitems] that fits a gint (at most G_MAXINT),
    when no read fails and none comes back empty before the end of the
    file, unix_fread stores all [size * nitems] bytes from the offset on, or
    all that are left of the file if that is less, however the reads split
    them. *)
Theorem unix_fread_makes_up_short_reads (size nitems p flags : Z)
    (data : list byte) (file : VFSFile) (w : world) :
  steady w ->
  position (handle file) w = Some p -> contents (handle file) w = Some data ->
  open_flags (handle file) w = Some flags -> can_read flags = true ->
  0 <= p -> 0 <= size * nitems <= G_MAXINT ->
  (unix_fread size nitems file w).1.2
  = take (Z.to_nat (size * nitems)) (drop (Z.to_nat p) data).
Proof.
  intros Hst Hpos Hcon Hfl Hc Hp Hg.
  destruct (resolve_of_view _ _ _ _ Hpos Hcon) as (o & i & Hr & <- & <-).
  rewrite (resolve_open_flags _ _ _ _ Hr) in Hfl. injection Hfl as <-.
  by apply unix_fread_steady.
Qed.

(** Four bytes of "hello" from offset 1, one byte per read: "ello", in four
    reads. *)
Lemma unix_fread_makes_up_short_reads_witness :
  let w := Samples.one_file Regular MoreSamples.hello O_RDONLY 1
             MoreSamples.dribble in
  steady w
  /\ (unix_fread 2 2 Samples.fd3 w).1.2 = ["e"%byte; "l"%byte; "l"%byte; "o"%byte]
  /\ length (issued w (unix_fread 2 2 Samples.fd3 w).2) = 4%nat.
Proof.
  cbv zeta.
  assert (Hst : steady (Samples.one_file Regular MoreSamples.hello O_RDONLY 1
                          MoreSamples.dribble)).
  { intros n _. split; discriminate. }
  split; [exact Hst|]. split; [|vm_compute; reflexivity].
  refine (eq_trans
            (unix_fread_makes_up_short_reads 2 2 1 O_RDONLY MoreSamples.hello
               Samples.fd3 _ Hst eq_refl eq_refl eq_refl eq_refl ltac:(lia) _) _);
    [unfold G_MAXINT; lia | vm_compute; reflexivity].
Defined.

(** ** The write loop *)







(** X5. The write loop has no exit for a write that returns 0: on a
    descriptor open for writing on which every transfer, read or write,
    moves 0 bytes, unix_fwrite with a byte total [size * nitems] above 0
    that fits a gint (at most G_MAXINT) never returns, whatever fuel it is
    given. unix_fread with the same total leaves its loop on the read of 0
    bytes and returns 0. *)
Theorem unix_fwrite_spins_on_empty_writes (fuel : nat) (ptr : list byte)
    (size nitems : Z) (file : VFSFile) (w : world) :
  stalled (handle file) w -> 0 < size * nitems <= G_MAXINT ->
  unix_fwrite fuel ptr size nitems file w = None
  /\ (unix_fread size nitems file w).1.1 = 0.
Proof.
  intros Hst Hg. split.
  - unfold unix_fwrite. rewrite byte_goal_small by lia.
    by rewrite fwrite_loop_stalled.
  - destruct (unix_fread_runs size nitems file w)
      as (total & buf & w' & _ & Hrun & _ & Hlen).
    rewrite Hrun. cbn [fst].
    assert (Hnil : (unix_fread size nitems file w).1.2 = []).
    { apply unix_fread_nothing; [done|].
      destruct Hst as [(o & i & Hr & Hw) Ho].
      unfold sys_read.
      change (resolve (handle file) (log (SysRead (handle file) (size * nitems)) w))
        with (resolve (handle file) w).
      rewrite Hr. destruct (negb (can_read (o_flags o))); [cbn; lia|].
      cbn. rewrite Ho. cbn. lia. }
    rewrite Hrun in Hnil. cbn in Hnil. subst buf. cbn in Hlen. subst total.
    unfold whole_items. destruct (0 <? size); [|done].
    change (to_size_t 0) with 0. apply Z.div_0_l. nia.
Qed.

Lemma unix_fwrite_spins_on_empty_writes_witness :
  let w := Samples.one_file Regular [] O_RDWR 0 (fun _ => Short 0) in
  stalled 3 w
  /\ unix_fwrite 1000 Samples.abc 1 3 Samples.fd3 w = None
  /\ (unix_fread 1 3 Samples.fd3 w).1.1 = 0.
Proof.
  cbv zeta.
  assert (Hst : stalled 3 (Samples.one_file Regular [] O_RDWR 0 (fun _ => Short 0))).
  { split; [|reflexivity].
    eexists _, _. split; [vm_compute; reflexivity | reflexivity]. }
  split; [exact Hst|].
  exact (unix_fwrite_spins_on_empty_writes 1000 Samples.abc 1 3 Samples.fd3 _ Hst
           ltac:(unfold G_MAXINT; lia)).
Defined.






(** ** Seeking and telling *)


Lemma sys_lseek_closed fd offset whence w :
  resolve fd w = None ->
  sys_lseek fd offset whence w = (-1, log (SysLseek fd offset whence) w).
Proof.
  intros Hr. unfold sys_lseek.
  change (resolve fd (log (SysLseek fd offset whence) w)) with (resolve fd w).
  by rewrite Hr.
Qed.



(** X8. unix_rewind followed by unix_fread reads the file from its first
    byte: on a seekable descriptor open for reading, for a byte total
    [size * nitems] that fits a gint (at most G_MAXINT), with no read
    failing or coming back empty early, the offset is 0 after the rewind
    and the buffer then holds the first [size * nitems] bytes of the file
    (or the whole file if it is shorter), wherever the offset was. *)
Theorem unix_rewind_then_fread (size nitems p flags : Z) (data : list byte)
    (file : VFSFile) (w : world) :
  steady w -> seekable (handle file) w ->
  position (handle file) w = Some p -> contents (handle file) w = Some data ->
  open_flags (handle file) w = Some flags -> can_read flags = true ->
  0 <= size * nitems <= G_MAXINT ->
  position (handle file) (unix_rewind file w) = Some 0
  /\ (unix_fread size nitems file (unix_rewind file w)).1.2
     = take (Z.to_nat (size * nitems)) data.
Proof.
  intros Hst Hs Hpos Hcon Hfl Hc Hg.
  destruct (position_resolve _ _ _ Hs Hpos) as (o & i & Hr & Hk & Ho).
  rewrite (resolve_contents _ _ _ _ Hr) in Hcon. injection Hcon as Hd.
  rewrite (resolve_open_flags _ _ _ _ Hr) in Hfl. injection Hfl as Hfl.
  unfold unix_rewind, unix_fseek.
  rewrite (sys_lseek_regular _ 0 SEEK_SET w o i 0 Hr Hk eq_refl ltac:(lia)).
  change (0 =? -1) with false. cbv iota. cbn [snd].
  set (w1 := set_fds _ _).
  assert (Hr1 : resolve (handle file) w1 = Some (set_pos 0 o, i))
    by (by apply resolve_set_pos).
  split; [by rewrite (resolve_position _ _ _ _ Hr1)|].
  rewrite (unix_fread_steady size nitems file w1 (set_pos 0 o) i); try done.
  - unfold unread. cbn. by rewrite Hd.
  - cbn. by rewrite Hfl.
Qed.

Lemma unix_rewind_then_fread_witness :
  let w := Samples.one_file Regular MoreSamples.hello O_RDONLY 4
             MoreSamples.dribble in
  (unix_fread 1 2 Samples.fd3 (unix_rewind Samples.fd3 w)).1.2
  = ["h"%byte; "e"%byte].
Proof.
  cbv zeta.
  assert (Hst : steady (Samples.one_file Regular MoreSamples.hello O_RDONLY 4
                          MoreSamples.dribble))
    by (intros n _; split; discriminate).
  assert (Hs : seekable 3 (Samples.one_file Regular MoreSamples.hello O_RDONLY 4
                             MoreSamples.dribble)).
  { eexists _, _. split; [vm_compute; reflexivity | reflexivity]. }
  destruct (unix_rewind_then_fread 1 2 4 O_RDONLY MoreSamples.hello Samples.fd3 _
              Hst Hs eq_refl eq_refl eq_refl eq_refl
              ltac:(unfold G_MAXINT; lia)) as [_ H].
  exact H.
Defined.

(** ** Single characters *)

(** unix_getc on a resolved descriptor: EOF with the offset where it was,
    or the byte at the offset with the offset one further. *)
Lemma unix_getc_cases file w o i :
  resolve (handle file) w = Some (o, i) -> 0 <= o_pos o ->
  let r := unix_getc file w in
  (w_oracle r.2 = w_oracle w /\ (w_clock w <= w_clock r.2)%nat)
  /\ ((r.1 = EOF
       /\ exists o', resolve (handle file) r.2 = Some (o', i)
                     /\ o_pos o' = o_pos o /\ o_flags o' = o_flags o)
      \/ (exists b, i_data i !! Z.to_nat (o_pos o) = Some b
                    /\ r.1 = guchar_to_gint b
                    /\ resolve (handle file) r.2
                       = Some (set_pos (o_pos o + 1) o, i))).
Proof.
  intros Hr Hp r. subst r. unfold unix_getc. rewrite unix_fread_one.
  destruct (sys_read_effect (handle file) 1 w o i Hr ltac:(lia) Hp)
    as (n & got & w1 & Hread & _ & Hor & Hcl & _ & Hcase).
  rewrite Hread. cbn [fst snd].
  destruct Hcase as [(-> & _ & Hr1) | (Hb & Hgot & Hlen & Hr1)].
  { cbn. split; [done|]. left. split; [done|]. by exists o. }
  destruct (n =? 1) eqn:E.
  - assert (n = 1) as -> by lia. change (1 =? 1) with true. cbv iota.
    cbn [fst snd]. split; [done|]. right.
    change (Z.to_nat 1) with 1%nat in Hgot.
    destruct (drop (Z.to_nat (o_pos o)) (i_data i)) as [|b rest] eqn:Ed;
      [subst got; cbn in Hlen; lia|].
    exists b. split; [|split; [by subst got | exact Hr1]].
    pose proof (lookup_drop (i_data i) (Z.to_nat (o_pos o)) 0) as Hl.
    rewrite Ed, Nat.add_0_r in Hl. by rewrite <- Hl.
  - assert (n = 0) as -> by lia. change (0 =? 1) with false. cbv iota.
    cbn [fst snd]. split; [done|]. left. split; [done|].
    eexists. split; [exact Hr1|]. cbn. split; [lia | done].
Qed.


(** X9. unix_getc returns EOF and leaves the offset, or returns the byte
    at the offset as a number from 0 to 255 and moves the offset one
    further; the byte 255 is returned as 255 and so is told apart from EOF,
    which is -1. The file is never changed. *)
Theorem unix_getc_byte_or_EOF (file : VFSFile) (p : Z) (data : list byte)
    (w : world) :
  position (handle file) w = Some p -> contents (handle file) w = Some data ->
  0 <= p ->
  let r := unix_getc file w in
  ((r.1 = EOF /\ position (handle file) r.2 = Some p)
   \/ (exists b, data !! Z.to_nat p = Some b
                 /\ r.1 = Z.of_N (Byte.to_N b) /\ 0 <= r.1 <= 255
                 /\ position (handle file) r.2 = Some (p + 1)))
  /\ contents (handle file) r.2 = Some data.
Proof.
  intros Hpos Hcon Hp r. subst r.
  destruct (resolve_of_view _ _ _ _ Hpos Hcon) as (o & i & Hr & <- & <-).
  destruct (unix_getc_cases file w o i Hr Hp)
    as [_ [[He (o' & Hr' & Hpos' & _)] | (b & Hb & Hv & Hr')]].
  - split; [left; split; [done|] | exact (resolve_contents _ _ _ _ Hr')].
    rewrite (resolve_position _ _ _ _ Hr'). by f_equal.
  - split; [right | exact (resolve_contents _ _ _ _ Hr')].
    exists b. split; [done|]. split; [done|].
    split; [rewrite Hv; apply guchar_to_gint_range|].
    by rewrite (resolve_position _ _ _ _ Hr').
Qed.

(** At the byte 255, unix_getc returns 255, not EOF. *)
Lemma unix_getc_byte_or_EOF_witness :
  let w := Samples.one_file Regular ["a"%byte; xff] O_RDONLY 1 Samples.calm in
  (unix_getc Samples.fd3 w).1 = 255
  /\ position 3 (unix_getc Samples.fd3 w).2 = Some 2.
Proof.
  cbv zeta.
  set (w := Samples.one_file Regular ["a"%byte; xff] O_RDONLY 1 Samples.calm).
  destruct (unix_getc_byte_or_EOF Samples.fd3 1 ["a"%byte; xff] w
              eq_refl eq_refl ltac:(lia)) as [[[He _] | (b & Hb & Hv & _ & Hpos)] _].
  - vm_compute in He. discriminate He.
  - cbn in Hb. injection Hb as <-. split; [exact Hv | exact Hpos].
Defined.



(** ** The size of what cannot seek *)



(** ** After the close *)

Lemma resolve_closed fd w : w_fds w !! fd = None -> resolve fd w = None.
Proof. unfold resolve. by intros ->. Qed.

(** Every operation on a descriptor that is not open fails with its
    sentinel. *)
Lemma closed_descriptor_fails file w :
  w_fds w !! handle file = None ->
  (forall size nitems, (unix_fread size nitems file w).1 = (0, []))
  /\ (forall fuel ptr size nitems,
        fst <$> unix_fwrite (S fuel) ptr size nitems file w = Some 0)
  /\ (forall offset whence, (unix_fseek file offset whence w).1 = -1)
  /\ (unix_ftell file w).1 = -1
  /\ (unix_getc file w).1 = EOF
  /\ (forall c, (unix_ungetc c file w).1 = EOF)
  /\ (unix_feof file w).1 = true
  /\ (forall len, (unix_truncate file len w).1 = false)
  /\ (unix_fsize file w).1 = -1
  /\ (unix_fclose file w).1 = EOF.
Proof.
  intros Hfd. pose proof (resolve_closed _ _ Hfd) as Hr.
  assert (Hread : forall count,
            sys_read (handle file) count w
            = (-1, [], log (SysRead (handle file) count) w)).
  { intros count. unfold sys_read.
    change (resolve (handle file) (log (SysRead (handle file) count) w))
      with (resolve (handle file) w). by rewrite Hr. }
  assert (Hwrite : forall bs,
            sys_write (handle file) bs w
            = (-1, log (SysWrite (handle file) (Z.of_nat (length bs))) w)).
  { intros bs. unfold sys_write.
    change (resolve (handle file) (log _ w)) with (resolve (handle file) w).
    by rewrite Hr. }
  assert (Hzero : forall size, whole_items size 0 = 0).
  { intros size. unfold whole_items. destruct (0 <? size) eqn:E; [|done].
    change (to_size_t 0) with 0. apply Z.div_0_l. lia. }
  assert (Hfread : forall size nitems, (unix_fread size nitems file w).1 = (0, [])).
  { intros size nitems. unfold unix_fread.
    destruct (Z.to_nat (byte_goal size nitems)) as [|fuel] eqn:Ef; cbn [fread_loop].
    - destruct (0 <? byte_goal size nitems) eqn:E; [lia|]. cbn. by rewrite Hzero.
    - destruct (0 <? byte_goal size nitems); [|cbn; by rewrite Hzero].
      rewrite Hread. change (to_gint (-1) =? -1) with true. cbn.
      by rewrite Hzero. }
  split; [exact Hfread|]. split.
  { intros fuel ptr size nitems. unfold unix_fwrite. cbn [fwrite_loop].
    destruct (0 <? byte_goal size nitems); [|cbn; by rewrite Hzero].
    rewrite Hwrite. change (to_gint (-1) =? -1) with true. cbn.
    by rewrite Hzero. }
  split.
  { intros offset whence. unfold unix_fseek. by rewrite sys_lseek_closed. }
  split; [unfold unix_ftell; by rewrite sys_lseek_closed|].
  assert (Hgetc : (unix_getc file w).1 = EOF).
  { unfold unix_getc. rewrite unix_fread_one, Hread. reflexivity. }
  split; [exact Hgetc|]. split.
  { intros c. unfold unix_ungetc, unix_fseek. by rewrite sys_lseek_closed. }
  split.
  { rewrite unix_feof_unfold, Hread. reflexivity. }
  split.
  { intros len. unfold unix_truncate, sys_ftruncate.
    change (resolve (handle file) (log _ w)) with (resolve (handle file) w).
    by rewrite Hr. }
  split.
  { unfold unix_fsize, unix_ftell. by rewrite sys_lseek_closed. }
  unfold unix_fclose, sys_fsync.
  change (resolve (handle file) (log _ w)) with (resolve (handle file) w).
  rewrite Hr. by destruct (sys_close _ _).
Qed.

(** X12. Once unix_fclose has run, whether the sync went well or not, every
    operation on the handle fails with its sentinel: reads and writes
    transfer 0 elements, seek and tell give -1, getc and ungetc give EOF,
    eof is TRUE, truncate is FALSE, size is -1, and a second close gives
    EOF. *)
Theorem after_fclose_all_fail (file : VFSFile) (w : world)
    (size nitems offset whence c len : Z) (fuel : nat) (ptr : list byte) :
  let w' := (unix_fclose file w).2 in
  (unix_fread size nitems file w').1 = (0, [])
  /\ fst <$> unix_fwrite (S fuel) ptr size nitems file w' = Some 0
  /\ (unix_fseek file offset whence w').1 = -1
  /\ (unix_ftell file w').1 = -1
  /\ (unix_getc file w').1 = EOF
  /\ (unix_ungetc c file w').1 = EOF
  /\ (unix_feof file w').1 = true
  /\ (unix_truncate file len w').1 = false
  /\ (unix_fsize file w').1 = -1
  /\ (unix_fclose file w').1 = EOF.
Proof.
  intros w'.
  assert (Hfd : w_fds w' !! handle file = None).
  { subst w'. unfold unix_fclose.
    destruct (sys_fsync (handle file) w) as [r w1].
    pose proof (sys_close_closed (handle file) w1) as Hc.
    by destruct (sys_close (handle file) w1). }
  destruct (closed_descriptor_fails file w' Hfd)
    as (H1 & H2 & H3 & H4 & H5 & H6 & H7 & H8 & H9 & H10).
  repeat (split; [done|]). done.
Qed.

(** ** Opening *)

Lemma lowest_free_free fds fd :
  lowest_free fds = Some fd -> fds !! fd = None /\ 0 <= fd.
Proof.
  unfold lowest_free. intros H. apply find_some in H as [Hin Hf].
  apply bool_decide_eq_true in Hf. split; [done|].
  apply list_elem_of_In, elem_of_seqZ in Hin. lia.
Qed.

(** An open that succeeded: the descriptor was free, and the world has
    the new description and the file. *)
Lemma sys_open_ok path flags perm w fd w' :
  sys_open path flags perm w = (fd, w') -> fd <> -1 ->
  w_fds w !! fd = None
  /\ exists i, opened_file flags (w_fs w !! path) = Some i
               /\ w_fds w' = <[fd := {| o_path := path; o_pos := 0;
                                        o_flags := flags; o_cloexec := false |}]>
                               (w_fds w)
               /\ w_fs w' = <[path := i]> (w_fs w).
Proof.
  unfold sys_open, opened_file. cbn.
  destruct (is_fault _); [intros [= <- _]; lia|].
  destruct (w_fs w !! path) as [i|] eqn:Ef.
  - destruct (lowest_free (w_fds w)) as [fd0|] eqn:El; [|intros [= <- _]; done].
    intros [= <- <-] _. apply lowest_free_free in El as [Hfree _].
    split; [done|]. eexists. split; [reflexivity|]. by destruct (i_kind i).
  - destruct (has_flag flags O_CREAT); [|intros [= <- _]; done].
    destruct (lowest_free (w_fds w)) as [fd0|] eqn:El; [|intros [= <- _]; done].
    intros [= <- <-] _. apply lowest_free_free in El as [Hfree _].
    split; [done|]. eexists. split; [reflexivity|]. cbn.
    by destruct (_ && _).
Qed.

(** unix_fopen that returned a handle, taken apart. *)
Lemma unix_fopen_ok conv uri mode w file w' :
  unix_fopen conv uri mode w = (Some file, w') ->
  exists flags filename i,
    mode_flag mode = Some flags /\ conv uri = Some filename
    /\ w_fds w !! handle file = None
    /\ opened_file flags (w_fs w !! filename) = Some i
    /\ w_fds w' = <[handle file := {| o_path := filename; o_pos := 0;
                                      o_flags := flags; o_cloexec := true |}]>
                    (w_fds w)
    /\ w_fs w' = <[filename := i]> (w_fs w).
Proof.
  intros Hrun.
  destruct (mode_flag mode) as [flags|] eqn:Hm;
    [|unfold unix_fopen in Hrun; by rewrite Hm in Hrun].
  destruct (conv uri) as [filename|] eqn:Hc;
    [|unfold unix_fopen in Hrun; by rewrite Hm, Hc in Hrun].
  rewrite (unix_fopen_call _ _ _ _ _ _ Hm Hc) in Hrun.
  destruct (sys_open filename flags (open_perm flags) w) as [fd w1] eqn:Ho.
  destruct (fd =? -1) eqn:E; [done|].
  injection Hrun as <- <-.
  destruct (sys_open_ok _ _ _ _ _ _ Ho ltac:(lia)) as (Hfree & i & Hi & Hfds & Hfs).
  exists flags, filename, i. cbn [handle]. repeat split; try done.
  - unfold sys_fcntl_cloexec. cbn. rewrite Hfds, lookup_insert_eq. cbn.
    by rewrite insert_insert_eq.
  - unfold sys_fcntl_cloexec. cbn. rewrite Hfds, lookup_insert_eq. cbn. exact Hfs.
Qed.

(** X13. A handle unix_fopen returns is on a descriptor that was not open
    before; it is open afterwards at offset 0, marked close-on-exec, with
    the flags of the mode and on the path the URI converts to; the
    descriptors that were open are as they were. *)
Theorem unix_fopen_fresh_handle (conv : string -> option string)
    (uri mode : string) (w w' : world) (file : VFSFile) :
  unix_fopen conv uri mode w = (Some file, w') ->
  ~ is_open (handle file) w
  /\ position (handle file) w' = Some 0
  /\ close_on_exec (handle file) w' = Some true
  /\ open_flags (handle file) w' = mode_flag mode
  /\ open_path (handle file) w' = conv uri
  /\ (forall fd, fd <> handle file -> w_fds w' !! fd = w_fds w !! fd).
Proof.
  intros Hrun.
  destruct (unix_fopen_ok _ _ _ _ _ _ Hrun)
    as (flags & filename & i & Hm & Hc & Hfree & _ & Hfds & _).
  unfold is_open, position, close_on_exec, open_flags, open_path.
  rewrite Hfds, lookup_insert_eq, Hfree, Hm, Hc. cbn.
  split; [by intros [x Hx]|]. repeat (split; [done|]).
  intros fd Hne. by rewrite lookup_insert_ne.
Qed.

(** With descriptor 3 open, "r+" on /tmp/a gets descriptor 0. *)
Lemma unix_fopen_fresh_handle_witness :
  let w := Samples.one_file Regular Samples.abc O_RDONLY 2 Samples.calm in
  exists w',
    unix_fopen Samples.strip_scheme "file:///tmp/a" "r+" w
    = (Some {| handle := 0 |}, w')
    /\ position 0 w' = Some 0 /\ open_flags 0 w' = Some O_RDWR
    /\ position 3 w' = Some 2.
Proof.
  cbv zeta.
  set (w := Samples.one_file Regular Samples.abc O_RDONLY 2 Samples.calm).
  destruct (unix_fopen Samples.strip_scheme "file:///tmp/a" "r+" w)
    as [f w'] eqn:Hrun.
  assert (Hf : f = Some {| handle := 0 |}).
  { pose proof (f_equal fst Hrun) as H. vm_compute in H. symmetry. exact H. }
  subst f. exists w'. split; [reflexivity|].
  destruct (unix_fopen_fresh_handle _ _ _ _ _ _ Hrun)
    as (_ & Hpos & _ & Hfl & _ & Hother).
  split; [exact Hpos|]. split; [exact Hfl|].
  unfold position. rewrite (Hother 3) by (cbn; lia). reflexivity.
Defined.

Lemma sys_fsync_fds fd w : w_fds (sys_fsync fd w).2 = w_fds w.
Proof.
  unfold sys_fsync. destruct (resolve fd _) as [[o i]|]; [|done].
  destruct (i_kind i); [|done]. cbn. by destruct (is_fault _).
Qed.

(** X14. Opening and closing leaves no descriptor behind: after unix_fopen
    has returned a handle and unix_fclose has run on it, the table of open
    descriptors is the one from before the open, whether or not the sync
    failed. *)
Theorem unix_fopen_fclose_restores (conv : string -> option string)
    (uri mode : string) (w w' : world) (file : VFSFile) :
  unix_fopen conv uri mode w = (Some file, w') ->
  w_fds (unix_fclose file w').2 = w_fds w.
Proof.
  intros Hrun.
  destruct (unix_fopen_ok _ _ _ _ _ _ Hrun)
    as (flags & filename & i & _ & _ & Hfree & _ & Hfds & _).
  unfold unix_fclose.
  pose proof (sys_fsync_fds (handle file) w') as Hs.
  destruct (sys_fsync (handle file) w') as [r w1]. cbn in Hs.
  unfold sys_close. cbn. rewrite Hs, Hfds, lookup_insert_eq. cbn.
  by apply delete_insert_id.
Qed.

Lemma unix_fopen_fclose_restores_witness :
  let w := Samples.closed_world MoreSamples.dribble in
  exists file w',
    unix_fopen Samples.strip_scheme "file:///tmp/b" "w" w = (Some file, w')
    /\ w_fds (unix_fclose file w').2 = ∅.
Proof.
  cbv zeta.
  set (w := Samples.closed_world MoreSamples.dribble).
  destruct (unix_fopen Samples.strip_scheme "file:///tmp/b" "w" w)
    as [f w'] eqn:Hrun.
  destruct f as [file|];
    [|pose proof (f_equal fst Hrun) as H; vm_compute in H; discriminate H].
  exists file, w'. split; [reflexivity|].
  exact (unix_fopen_fclose_restores _ _ _ _ _ _ Hrun).
Defined.




(** * Further properties of playlist_util.c *)

Import PlaylistPaths.

(** ** The range helpers on any range *)

Lemma at_index_insert_other {A} (l : list A) (i j : Z) (x : A) :
  0 <= i -> i <> j -> at_index (<[Z.to_nat i := x]> l) j = at_index l j.
Proof.
  intros Hi Hne. unfold at_index. destruct (j <? 0) eqn:E; [done|].
  apply list_lookup_insert_ne. lia.
Qed.

Lemma other_playlist_set_selected pl pl' j b h :
  pl' <> pl ->
  (forall i, aud_playlist_entry_get_selected pl' i
               (aud_playlist_entry_set_selected pl j b h)
             = aud_playlist_entry_get_selected pl' i h)
  /\ aud_playlist_entry_count pl'
       (aud_playlist_entry_set_selected pl j b h)
     = aud_playlist_entry_count pl' h.
Proof.
  intros Hne.
  unfold aud_playlist_entry_get_selected, aud_playlist_entry_count,
    aud_playlist_entry_set_selected.
  destruct (at_index (h_playlists h) pl) as [es|] eqn:E; [|done].
  destruct (j <? 0); [done|]. cbn.
  destruct (at_index_Some _ _ _ E) as [Hl _].
  by rewrite at_index_insert_other by done.
Qed.

Lemma other_playlist_select_all pl pl' b h :
  pl' <> pl ->
  (forall i, aud_playlist_entry_get_selected pl' i (aud_playlist_select_all pl b h)
             = aud_playlist_entry_get_selected pl' i h)
  /\ aud_playlist_entry_count pl' (aud_playlist_select_all pl b h)
     = aud_playlist_entry_count pl' h.
Proof.
  intros Hne.
  unfold aud_playlist_entry_get_selected, aud_playlist_entry_count,
    aud_playlist_select_all.
  destruct (at_index (h_playlists h) pl) as [es|] eqn:E; [|done]. cbn.
  destruct (at_index_Some _ _ _ E) as [Hl _].
  by rewrite at_index_insert_other by done.
Qed.

Lemma other_playlist_select_fold pl pl' top (cs : list Z) : forall h,
  pl' <> pl ->
  let h' := foldl (fun h count =>
                     aud_playlist_entry_set_selected pl (to_gint (top + count)) true h)
                  h cs in
  (forall i, aud_playlist_entry_get_selected pl' i h'
             = aud_playlist_entry_get_selected pl' i h)
  /\ aud_playlist_entry_count pl' h' = aud_playlist_entry_count pl' h.
Proof.
  induction cs as [|c cs IH]; intros h Hne; cbn [foldl]; [done|].
  destruct (IH (aud_playlist_entry_set_selected pl (to_gint (top + c)) true h) Hne)
    as (Hg & Hc).
  destruct (other_playlist_set_selected pl pl' (to_gint (top + c)) true h Hne)
    as (Hg1 & Hc1).
  cbv zeta. split.
  - intros i. by rewrite Hg, Hg1.
  - by rewrite Hc, Hc1.
Qed.

(** X16. playlist_select_range clips to the playlist: for a gint [top]
    and a range that does not run past G_MAXINT, afterwards a row of the
    playlist is selected exactly when its index lies in [top, top+length)
    and the row exists, whatever was selected before (so a length of 0 or
    less leaves nothing selected); the number of entries is the same, and
    the selection of the other playlists is untouched. *)
Theorem playlist_select_range_clips (pl top length : Z) (h : host) :
  G_MININT <= top -> top + length <= G_MAXINT + 1 ->
  let h' := playlist_select_range pl top length h in
  (forall i, aud_playlist_entry_get_selected pl i h' = true
             <-> top <= i < top + length
                 /\ 0 <= i < aud_playlist_entry_count pl h)
  /\ aud_playlist_entry_count pl h' = aud_playlist_entry_count pl h
  /\ (forall pl' i, pl' <> pl ->
        aud_playlist_entry_get_selected pl' i h'
        = aud_playlist_entry_get_selected pl' i h).
Proof.
  intros Htop Hfit h'. subst h'. unfold playlist_select_range.
  split; [|split].
  - intros i.
    destruct (select_fold pl top (seqZ 0 length)
                (aud_playlist_select_all pl false h) i) as [_ Hget].
    rewrite Hget, get_selected_select_all_false, entry_count_select_all.
    split.
    + intros [H|(c & Hc & Hi & Hr)]; [done|].
      apply elem_of_seqZ in Hc.
      rewrite to_gint_id in Hi by fits. lia.
    + intros [Hi Hr]. right. exists (i - top).
      split; [apply elem_of_seqZ; lia|].
      replace (top + (i - top)) with i by lia.
      rewrite to_gint_id by fits. done.
  - destruct (select_fold pl top (seqZ 0 length)
                (aud_playlist_select_all pl false h) 0) as [Hc _].
    by rewrite Hc, entry_count_select_all.
  - intros pl' i Hne.
    destruct (other_playlist_select_fold pl pl' top (seqZ 0 length)
                (aud_playlist_select_all pl false h) Hne) as (Hg & _).
    destruct (other_playlist_select_all pl pl' false h Hne) as (Hg0 & _).
    by rewrite Hg, Hg0.
Qed.

(** Rows 4..8 asked of the six rows: row 5 is selected, a row 6 is not
    there. *)
Lemma playlist_select_range_clips_witness :
  let h' := playlist_select_range 0 4 5 Samples.six_rows in
  aud_playlist_entry_get_selected 0 5 h' = true
  /\ aud_playlist_entry_get_selected 0 6 h' = false
  /\ aud_playlist_entry_get_selected 0 0 h' = false.
Proof.
  cbv zeta.
  destruct (playlist_select_range_clips 0 4 5 Samples.six_rows
              ltac:(unfold G_MININT; lia) ltac:(unfold G_MAXINT; lia))
    as (Hsel & _).
  change (aud_playlist_entry_count 0 Samples.six_rows) with 6 in Hsel.
  split; [apply Hsel; lia|]. split.
  - apply not_true_is_false. rewrite Hsel. lia.
  - apply not_true_is_false. rewrite Hsel. lia.
Defined.

(** The counting loop counts the selected rows it visits. *)
Lemma count_fold_filter pl top h (cs : list Z) : forall acc,
  0 <= acc -> acc + Z.of_nat (length cs) <= G_MAXINT ->
  foldl (fun selected count =>
           if aud_playlist_entry_get_selected pl (to_gint (top + count)) h
           then to_gint (selected + 1) else selected) acc cs
  = acc + Z.of_nat
            (length (List.filter
                       (fun count =>
                          aud_playlist_entry_get_selected pl (to_gint (top + count)) h)
                       cs)).
Proof.
  induction cs as [|c cs IH]; intros acc Ha Hm; cbn [foldl List.filter].
  - cbn. lia.
  - cbn [length] in Hm.
    destruct (aud_playlist_entry_get_selected pl (to_gint (top + c)) h).
    + rewrite to_gint_id by fits. rewrite IH by lia. cbn [length]. lia.
    + apply IH; lia.
Qed.

Lemma filter_length_le {A} (f : A -> bool) (l : list A) :
  (length (List.filter f l) <= length l)%nat.
Proof.
  induction l as [|x l IH]; cbn; [lia|]. destruct (f x); cbn; lia.
Qed.

Lemma filter_fmap_length {A B} (f : B -> bool) (g : A -> B) (l : list A) :
  length (List.filter f (g <$> l)) = length (List.filter (fun x => f (g x)) l).
Proof.
  induction l as [|x l IH]; cbn; [done|]. destruct (f (g x)); cbn; lia.
Qed.

(** X17. playlist_count_selected_in_range returns 0 for a length of 0 or
    less and, for a length from 0 to G_MAXINT, a count between 0 and the
    length, and counting over a range is counting over its two parts: for
    lengths [a] and [b] that are
    not negative and sum to at most G_MAXINT, the count over
    [top, top+a+b) is the count over [top, top+a) plus the count over
    [top+a, top+a+b). *)
Theorem playlist_count_selected_splits (pl top : Z) (h : host) :
  (forall len, len <= 0 -> playlist_count_selected_in_range pl top len h = 0)
  /\ (forall len, 0 <= len <= G_MAXINT ->
        0 <= playlist_count_selected_in_range pl top len h <= len)
  /\ (forall a b, 0 <= a -> 0 <= b -> a + b <= G_MAXINT ->
        playlist_count_selected_in_range pl top (a + b) h
        = playlist_count_selected_in_range pl top a h
          + playlist_count_selected_in_range pl (top + a) b h).
Proof.
  split; [|split].
  - intros len Hlen. unfold playlist_count_selected_in_range.
    by rewrite seqZ_nil by lia.
  - intros len Hlen. unfold playlist_count_selected_in_range.
    rewrite count_fold_filter; rewrite ?length_seqZ; try lia.
    pose proof (filter_length_le
                  (fun count => aud_playlist_entry_get_selected pl
                                  (to_gint (top + count)) h)
                  (seqZ 0 len)) as Hle.
    rewrite length_seqZ in Hle. lia.
  - intros a b Ha Hb Hfit. unfold playlist_count_selected_in_range.
    rewrite !count_fold_filter; rewrite ?length_seqZ; try lia; try fits.
    rewrite seqZ_app by lia. rewrite List.filter_app, length_app.
    replace (0 + a) with (a + 0) by lia.
    rewrite <- (fmap_add_seqZ a 0 b), filter_fmap_length.
    assert (Hext : forall l : list Z,
              List.filter (fun x => aud_playlist_entry_get_selected pl
                                      (to_gint (top + (a + x))) h) l
              = List.filter (fun count => aud_playlist_entry_get_selected pl
                                            (to_gint (top + a + count)) h) l).
    { intros l. apply List.filter_ext. intros x. by rewrite Z.add_assoc. }
    rewrite Hext. lia.
Qed.

(** Over the six rows with rows 0 and 5 selected: 2 in all, 1 in rows
    0..2 and 1 in rows 3..5; nothing for a length of -4. *)
Lemma playlist_count_selected_splits_witness :
  playlist_count_selected_in_range 0 0 (3 + 3) Samples.six_rows = 2
  /\ playlist_count_selected_in_range 0 0 3 Samples.six_rows = 1
  /\ playlist_count_selected_in_range 0 (0 + 3) 3 Samples.six_rows = 1
  /\ playlist_count_selected_in_range 0 0 (-4) Samples.six_rows = 0.
Proof.
  destruct (playlist_count_selected_splits 0 0 Samples.six_rows)
    as (Hnone & _ & Hsplit).
  assert (H1 : playlist_count_selected_in_range 0 0 3 Samples.six_rows = 1)
    by (vm_compute; reflexivity).
  assert (H2 : playlist_count_selected_in_range 0 (0 + 3) 3 Samples.six_rows = 1)
    by (vm_compute; reflexivity).
  split; [|split; [exact H1 | split; [exact H2 | apply Hnone; lia]]].
  rewrite (Hsplit 3 3 ltac:(lia) ltac:(lia) ltac:(unfold G_MAXINT; lia)), H1, H2.
  reflexivity.
Defined.

(** ** Focus *)

(** treeview_refresh_selection_now on a tree with one row per entry: the
    selection becomes the host's flags, the rest of the view stays. *)
Lemma refresh_selection_now_view (s : ui) :
  Z.of_nat (length (tv_selected (ui_tree s)))
    = aud_playlist_entry_count (playlist (tv_model (ui_tree s))) (ui_host s) ->
  let s' := treeview_refresh_selection_now s in
  tv_selected (ui_tree s')
    = authoritative_flags (playlist (tv_model (ui_tree s))) (ui_host s)
  /\ tv_cursor (ui_tree s') = tv_cursor (ui_tree s)
  /\ tv_scrolled (ui_tree s') = tv_scrolled (ui_tree s)
  /\ tv_model (ui_tree s') = tv_model (ui_tree s)
  /\ ui_host s' = ui_host s.
Proof.
  intros Hrows s'. subst s'.
  unfold treeview_refresh_selection_now, authoritative_flags.
  set (pl := playlist (tv_model (ui_tree s))) in *.
  destruct (aud_playlist_entry_count pl (ui_host s) =? 0) eqn:E.
  - apply Z.eqb_eq in E. rewrite E in *. cbn.
    destruct (tv_selected (ui_tree s)); [done | cbn in Hrows; lia].
  - cbn. rewrite <- Hrows.
    destruct (refresh_fold (ui_host s) pl (ui_tree s)
                (length (tv_selected (ui_tree s))) ltac:(lia))
      as (Hsel & _ & Hm & Hc & Hsc & _).
    rewrite Hsel, drop_all, app_nil_r. done.
Qed.

Lemma at_index_authoritative_flags pl h i :
  at_index (authoritative_flags pl h) i
  = if (0 <=? i) && (i <? aud_playlist_entry_count pl h)
    then Some (aud_playlist_entry_get_selected pl i h) else None.
Proof.
  unfold authoritative_flags, at_index.
  destruct (i <? 0) eqn:E.
  { replace (0 <=? i) with false by lia. done. }
  replace (0 <=? i) with true by lia. cbn.
  rewrite list_lookup_fmap.
  destruct (i <? aud_playlist_entry_count pl h) eqn:E2.
  - assert (Hl : seqZ 0 (aud_playlist_entry_count pl h) !! Z.to_nat i = Some i)
      by (apply lookup_seqZ; lia).
    by rewrite Hl.
  - assert (Hl : seqZ 0 (aud_playlist_entry_count pl h) !! Z.to_nat i = None).
    { apply lookup_ge_None. rewrite length_seqZ. lia. }
    by rewrite Hl.
Qed.

Lemma set_cursor_at row t :
  row_exists t row = true ->
  gtk_tree_view_set_cursor row t
  = {| tv_model := tv_model t;
       tv_selected :=
         <[Z.to_nat row := true]> (replicate (length (tv_selected t)) false);
       tv_cursor := Some row; tv_scrolled := tv_scrolled t;
       tv_blocked := tv_blocked t; tv_log := tv_log t ++ [EvSetCursor row] |}.
Proof.
  intros Hex. unfold gtk_tree_view_set_cursor.
  change (row_exists (ui_log (EvSetCursor row) t) row) with (row_exists t row).
  by rewrite Hex.
Qed.

Lemma scroll_to_cell_at row t :
  row_exists t row = true ->
  gtk_tree_view_scroll_to_cell row t
  = {| tv_model := tv_model t; tv_selected := tv_selected t;
       tv_cursor := tv_cursor t; tv_scrolled := Some row;
       tv_blocked := tv_blocked t; tv_log := tv_log t ++ [EvScrollToCell row] |}.
Proof.
  intros Hex. unfold gtk_tree_view_scroll_to_cell.
  change (row_exists (ui_log (EvScrollToCell row) t) row) with (row_exists t row).
  by rewrite Hex.
Qed.

(** treeview_set_focus_now at an existing row of a tree with one row per
    entry. *)
Lemma set_focus_now_view (row : Z) (s : ui) :
  Z.of_nat (length (tv_selected (ui_tree s)))
    = aud_playlist_entry_count (playlist (tv_model (ui_tree s))) (ui_host s) ->
  0 <= row < aud_playlist_entry_count (playlist (tv_model (ui_tree s))) (ui_host s) ->
  let s' := treeview_set_focus_now row s in
  tv_selected (ui_tree s')
    = authoritative_flags (playlist (tv_model (ui_tree s))) (ui_host s)
  /\ tv_cursor (ui_tree s') = Some row
  /\ tv_scrolled (ui_tree s') = Some row
  /\ tv_model (ui_tree s') = tv_model (ui_tree s)
  /\ ui_host s' = ui_host s.
Proof.
  intros Hrows Hrow s'. subst s'. unfold treeview_set_focus_now.
  destruct (row <? 0) eqn:E; [lia|].
  set (s2 := on_tree (gtk_tree_view_scroll_to_cell row)
               (on_tree (gtk_tree_view_set_cursor row) s)).
  assert (Hex : row_exists (ui_tree s) row = true)
    by (unfold row_exists; apply andb_true_iff; lia).
  assert (Hs2 : ui_host s2 = ui_host s
                /\ tv_model (ui_tree s2) = tv_model (ui_tree s)
                /\ length (tv_selected (ui_tree s2)) = length (tv_selected (ui_tree s))
                /\ tv_cursor (ui_tree s2) = Some row
                /\ tv_scrolled (ui_tree s2) = Some row).
  { subst s2. unfold on_tree. cbn [ui_host ui_tree].
    rewrite (set_cursor_at row _ Hex).
    rewrite scroll_to_cell_at.
    - cbn. by rewrite length_insert, length_replicate.
    - revert Hex. unfold row_exists. cbn.
      by rewrite length_insert, length_replicate. }
  destruct Hs2 as (Hh & Hm & Hl & Hc & Hsc).
  destruct (refresh_selection_now_view s2) as (Hsel & Hc' & Hsc' & Hm' & Hh').
  { by rewrite Hl, Hm, Hh. }
  rewrite Hsel, Hc', Hsc', Hm', Hh', Hm, Hh. done.
Qed.

(** X18. treeview_set_focus_now undoes what set_cursor does to the
    selection: on a tree with one row per entry, focusing an existing row
    puts the cursor and the scroll position on it (treeview_get_focus
    returns it) and leaves the selection equal to the host's flags, not to
    the focused row. A negative row means row 0, and does nothing at all
    when the playlist is empty. *)
Theorem treeview_set_focus_now_keeps_selection (row : Z) (s : ui) :
  let pl := playlist (tv_model (ui_tree s)) in
  let n := aud_playlist_entry_count pl (ui_host s) in
  Z.of_nat (length (tv_selected (ui_tree s))) = n ->
  (0 <= row < n ->
     treeview_get_focus (treeview_set_focus_now row s) = row
     /\ tv_scrolled (ui_tree (treeview_set_focus_now row s)) = Some row
     /\ tv_selected (ui_tree (treeview_set_focus_now row s))
        = authoritative_flags pl (ui_host s))
  /\ (row < 0 -> 0 < n ->
      treeview_set_focus_now row s = treeview_set_focus_now 0 s
      /\ treeview_get_focus (treeview_set_focus_now row s) = 0)
  /\ (row < 0 -> n = 0 -> treeview_set_focus_now row s = s).
Proof.
  intros pl n Hrows. split; [|split].
  - intros Hrow.
    destruct (set_focus_now_view row s Hrows Hrow) as (Hsel & Hc & Hsc & _).
    unfold treeview_get_focus. by rewrite Hc, Hsc, Hsel.
  - intros Hneg Hn.
    assert (He : treeview_set_focus_now row s = treeview_set_focus_now 0 s).
    { unfold treeview_set_focus_now. fold pl. fold n.
      destruct (row <? 0) eqn:E; [|lia].
      destruct (n =? 0) eqn:E0; [lia|]. reflexivity. }
    split; [exact He|]. rewrite He.
    destruct (set_focus_now_view 0 s Hrows ltac:(fold pl; fold n; lia))
      as (_ & Hc & _).
    unfold treeview_get_focus. by rewrite Hc.
  - intros Hneg Hn. unfold treeview_set_focus_now. fold pl. fold n.
    destruct (row <? 0) eqn:E; [|lia]. by rewrite Hn.
Qed.

(** Focus on row 3 of the six rows showing rows 1 and 2: the cursor is on
    row 3, the selection is rows 0 and 5 as the host has it. *)
Lemma treeview_set_focus_now_keeps_selection_witness :
  let s := Samples.six_view [false; true; true; false; false; false] false in
  treeview_get_focus (treeview_set_focus_now 3 s) = 3
  /\ tv_selected (ui_tree (treeview_set_focus_now 3 s))
     = [true; false; false; false; false; true]
  /\ treeview_get_focus (treeview_set_focus_now (-1) s) = 0.
Proof.
  cbv zeta.
  destruct (treeview_set_focus_now_keeps_selection 3
              (Samples.six_view [false; true; true; false; false; false] false)
              eq_refl) as (H & _).
  destruct (treeview_set_focus_now_keeps_selection (-1)
              (Samples.six_view [false; true; true; false; false; false] false)
              eq_refl) as (_ & Hneg & _).
  destruct (H ltac:(change (0 <= 3 < 6); lia)) as (Hf & _ & Hsel).
  split; [exact Hf|]. split; [rewrite Hsel; vm_compute; reflexivity|].
  apply Hneg; [lia | change (0 < 6); lia].
Defined.

(** X19. playlist_scroll_to_row on an existing row of a tree with one row
    per entry: the host is left as its two selection calls leave it, with
    that row and no other selected in the playlist of the tree. What the
    view does is decided by the pending flag the host reports after those
    two calls, when treeview_set_focus asks for it. If it reports none, the
    view follows at once: the cursor is on the row and the row is the only
    one shown selected. If it reports one, the view is left alone and the
    row is recorded in the model with [focus_changed] set. *)
Theorem playlist_scroll_to_row_selects_one (row : Z) (s : ui) :
  let pl := playlist (tv_model (ui_tree s)) in
  let n := aud_playlist_entry_count pl (ui_host s) in
  Z.of_nat (length (tv_selected (ui_tree s))) = n -> 0 <= row < n ->
  let h1 := aud_playlist_entry_set_selected pl row true
              (aud_playlist_select_all pl false (ui_host s)) in
  let s' := playlist_scroll_to_row row s in
  ui_host s' = h1
  /\ (forall i, aud_playlist_entry_get_selected pl i (ui_host s') = true <-> i = row)
  /\ (aud_playlist_update_pending h1 = false ->
      treeview_get_focus s' = row
      /\ forall i, row_selected s' i = true <-> i = row)
  /\ (aud_playlist_update_pending h1 = true ->
      focus (tv_model (ui_tree s')) = row
      /\ focus_changed (tv_model (ui_tree s')) = true
      /\ tv_selected (ui_tree s') = tv_selected (ui_tree s)
      /\ tv_cursor (ui_tree s') = tv_cursor (ui_tree s)).
Proof.
  intros pl n Hrows Hrow h1 s'.
  set (s1 := on_host (aud_playlist_entry_set_selected pl row true)
               (on_host (aud_playlist_select_all pl false) s)).
  assert (Hs' : s' = treeview_set_focus row s1) by reflexivity.
  assert (Hcount : aud_playlist_entry_count pl h1 = n).
  { subst h1. by rewrite entry_count_set_selected, entry_count_select_all. }
  assert (Hget : forall i, aud_playlist_entry_get_selected pl i h1 = true <-> i = row).
  { intros i. subst h1.
    rewrite get_selected_set_selected, get_selected_select_all_false,
      entry_count_select_all.
    split; [intros [[-> _]|H]; done|].
    intros Hi. subst i. left. split; [done | exact Hrow]. }
  assert (Hhost : ui_host s' = h1).
  { rewrite Hs'. unfold treeview_set_focus.
    destruct (aud_playlist_update_pending (ui_host s1)); [done|].
    cbn [on_tree ui_host].
    set (sb := on_tree (ui_playlist_widget_block_updates true) s1).
    destruct (Z_lt_le_dec row 0) as [|_]; [lia|].
    destruct (set_focus_now_view row sb) as (_ & _ & _ & _ & Hh).
    - change (Z.of_nat (length (tv_selected (ui_tree s)))
              = aud_playlist_entry_count pl h1). by rewrite Hcount.
    - change (0 <= row < aud_playlist_entry_count pl h1). by rewrite Hcount.
    - exact Hh. }
  split; [exact Hhost|].
  split; [intros i; rewrite Hhost; apply Hget|]. split.
  - intros Hp. rewrite Hs'. unfold treeview_set_focus.
    change (ui_host s1) with h1. rewrite Hp.
    set (sb := on_tree (ui_playlist_widget_block_updates true) s1).
    destruct (set_focus_now_view row sb) as (Hsel & Hc & _).
    { change (Z.of_nat (length (tv_selected (ui_tree s)))
              = aud_playlist_entry_count pl h1). by rewrite Hcount. }
    { change (0 <= row < aud_playlist_entry_count pl h1). by rewrite Hcount. }
    change (playlist (tv_model (ui_tree sb))) with pl in Hsel.
    change (ui_host sb) with h1 in Hsel.
    split.
    + unfold treeview_get_focus. cbn. by rewrite Hc.
    + intros i. unfold row_selected. cbn. rewrite Hsel.
      rewrite at_index_authoritative_flags, Hcount.
      destruct ((0 <=? i) && (i <? n)) eqn:Ein; cbn.
      * apply Hget.
      * split; [done|]. intros ->.
        apply andb_false_iff in Ein as [Ein | Ein]; lia.
  - intros Hp. rewrite Hs'. unfold treeview_set_focus.
    change (ui_host s1) with h1. rewrite Hp.
    by cbn.
Qed.

(** Row 2 of the six rows, the host reporting no update pending after the
    two calls: only row 2 is selected, in the host and on the screen, and
    the cursor is there. *)
Lemma playlist_scroll_to_row_selects_one_witness :
  let s := Samples.six_view [false; true; true; false; false; false] false in
  h_playlists (ui_host (playlist_scroll_to_row 2 s))
  = [[false; false; true; false; false; false]]
  /\ treeview_get_focus (playlist_scroll_to_row 2 s) = 2
  /\ row_selected (playlist_scroll_to_row 2 s) 2 = true
  /\ row_selected (playlist_scroll_to_row 2 s) 1 = false.
Proof.
  cbv zeta.
  destruct (playlist_scroll_to_row_selects_one 2
              (Samples.six_view [false; true; true; false; false; false] false)
              eq_refl ltac:(change (0 <= 2 < 6); lia)) as (_ & _ & Hnow & _).
  destruct (Hnow eq_refl) as [Hf Hsel].
  split; [vm_compute; reflexivity|]. split; [exact Hf|]. split.
  - by apply Hsel.
  - apply not_true_is_false. rewrite Hsel. lia.
Defined.

(** ** The selection as a list of paths *)

Lemma rows_from_cons k x l :
  rows_from k (x :: l)
  = (if x : bool then [Some [Z.of_nat k]] else []) ++ rows_from (S k) l.
Proof.
  unfold rows_from. rewrite imap_cons. cbn [omap list_omap].
  rewrite Nat.add_0_r.
  assert (He : imap ((fun row sel => ((k + row)%nat, sel)) ∘ S) l
               = imap (fun row (sel : bool) => ((S k + row)%nat, sel)) l).
  { apply imap_ext. intros i y _. cbn. f_equal. lia. }
  rewrite He. by destruct x.
Qed.

Lemma selected_rows_from (t : tree_view) :
  gtk_tree_selection_get_selected_rows t = rows_from 0 (tv_selected t).
Proof. reflexivity. Qed.

Lemma rows_from_elem l : forall k d,
  d ∈ rows_from k l
  <-> exists j, d = Some [Z.of_nat (k + j)] /\ l !! j = Some true.
Proof.
  induction l as [|x l IH]; intros k d.
  - split; [intros H; by apply elem_of_nil in H | intros (j & _ & H); done].
  - rewrite rows_from_cons, elem_of_app, IH. split.
    + intros [H | (j & -> & Hj)].
      * destruct x; [|by apply elem_of_nil in H].
        apply list_elem_of_singleton in H as ->. exists 0%nat.
        by rewrite Nat.add_0_r.
      * exists (S j). split; [do 3 f_equal; lia | done].
    + intros (j & -> & Hj). destruct j as [|j].
      * left. cbn in Hj. injection Hj as ->. rewrite Nat.add_0_r.
        apply list_elem_of_singleton. done.
      * right. exists j. split; [do 3 f_equal; lia | done].
Qed.

Lemma rows_from_head l : forall k,
  match rows_from k l with
  | [] => forall j, l !! j <> Some true
  | d :: _ => exists j, d = Some [Z.of_nat (k + j)] /\ l !! j = Some true
                        /\ forall j', (j' < j)%nat -> l !! j' <> Some true
  end.
Proof.
  induction l as [|x l IH]; intros k.
  - cbn. by intros j.
  - rewrite rows_from_cons. destruct x; cbn [app].
    + exists 0%nat. rewrite Nat.add_0_r. split; [done|]. split; [done|]. lia.
    + specialize (IH (S k)). destruct (rows_from (S k) l) as [|d r].
      * intros [|j]; [done | apply IH].
      * destruct IH as (j & -> & Hj & Hleast). exists (S j).
        split; [do 3 f_equal; lia|]. split; [done|].
        intros [|j'] Hlt; [done|]. apply Hleast. lia.
Qed.

Lemma rows_from_length l : forall k,
  length (rows_from k l) = length (List.filter (fun b : bool => b) l).
Proof.
  induction l as [|x l IH]; intros k; [done|].
  rewrite rows_from_cons, length_app, IH. by destruct x.
Qed.

Lemma row_selected_lookup (s : ui) (row : Z) :
  row_selected s row = true
  <-> 0 <= row /\ tv_selected (ui_tree s) !! Z.to_nat row = Some true.
Proof.
  unfold row_selected, at_index. destruct (row <? 0) eqn:E.
  - split; [done | lia].
  - destruct (tv_selected (ui_tree s) !! Z.to_nat row) as [[|]|]; cbn;
      split; try done; try (intros [_ H]; done). intros _. split; [lia | done].
Qed.

(** X20. playlist_get_first_selected_index returns -1 exactly when no row
    is shown selected; otherwise it returns the topmost selected row: that
    row is selected and no row above it is. playlist_get_selected_length is
    the number of rows shown selected, and is 0 exactly when the index is
    -1. *)
Theorem playlist_first_selected_is_topmost (s : ui) :
  Z.of_nat (length (tv_selected (ui_tree s))) <= G_MAXINT ->
  let k := playlist_get_first_selected_index s in
  (k = -1 <-> forall i, row_selected s i = false)
  /\ (k <> -1 ->
      row_selected s k = true /\ forall i, i < k -> row_selected s i = false)
  /\ playlist_get_selected_length s
     = Z.of_nat (length (List.filter (fun b : bool => b) (tv_selected (ui_tree s))))
  /\ (playlist_get_selected_length s = 0 <-> k = -1).
Proof.
  intros Hfit k. subst k.
  unfold playlist_get_first_selected_index, playlist_get_first_selected_path,
    playlist_get_selected_length, playlist_get_selected_list.
  rewrite selected_rows_from.
  pose proof (rows_from_head (tv_selected (ui_tree s)) 0) as Hhead.
  pose proof (rows_from_length (tv_selected (ui_tree s)) 0) as Hlen.
  pose proof (filter_length_le (fun b : bool => b) (tv_selected (ui_tree s))) as Hle.
  rewrite to_gint_id by (rewrite Hlen; fits).
  destruct (rows_from 0 (tv_selected (ui_tree s))) as [|d r].
  - cbn in Hlen. rewrite <- Hlen. cbn.
    assert (Hnone : forall i, row_selected s i = false).
    { intros i. apply not_true_is_false. rewrite row_selected_lookup.
      intros [_ H]. by apply (Hhead (Z.to_nat i)). }
    repeat split; try done.
  - destruct Hhead as (j & -> & Hj & Hleast). cbn [hd playlist_get_index_from_path
      gtk_tree_path_get_indices]. rewrite Nat.add_0_l.
    assert (Hsel : row_selected s (Z.of_nat j) = true).
    { apply row_selected_lookup. rewrite Nat2Z.id. split; [lia | done]. }
    split; [|split; [|split]].
    + split; [lia|]. intros Hnone. rewrite Hnone in Hsel. done.
    + intros _. split; [exact Hsel|]. intros i Hi.
      apply not_true_is_false. rewrite row_selected_lookup.
      intros [Hi0 H]. apply (Hleast (Z.to_nat i)); [lia | done].
    + by rewrite <- Hlen.
    + cbn [length]. split; lia.
Qed.

(** Rows 2 and 4 of six shown selected: the first index is 2, the length
    2. *)
Lemma playlist_first_selected_is_topmost_witness :
  let s := Samples.six_view [false; false; true; false; true; false] false in
  playlist_get_first_selected_index s = 2
  /\ row_selected s 2 = true
  /\ playlist_get_selected_length s = 2.
Proof.
  cbv zeta.
  destruct (playlist_first_selected_is_topmost
              (Samples.six_view [false; false; true; false; true; false] false)
              ltac:(cbn; unfold G_MAXINT; lia)) as (_ & Htop & Hlen & _).
  assert (Hk : playlist_get_first_selected_index
                 (Samples.six_view [false; false; true; false; true; false] false)
               = 2) by (vm_compute; reflexivity).
  rewrite Hk in Htop. destruct (Htop ltac:(lia)) as [Hsel _].
  split; [exact Hk|]. split; [exact Hsel|]. rewrite Hlen. reflexivity.
Defined.

(** ** Selecting by path *)

Lemma row_exists_nat (t : tree_view) (row : Z) :
  row_exists t row = true
  <-> 0 <= row /\ (Z.to_nat row < length (tv_selected t))%nat.
Proof. unfold row_exists. rewrite andb_true_iff. lia. Qed.

Lemma path_row_Some t path row :
  path_row t path = Some row <-> path = Some [row] /\ row_exists t row = true.
Proof.
  unfold path_row. destruct path as [[|r [|]]|]; try (split; [done | by intros [? _]]).
  destruct (row_exists t r) eqn:E.
  - split; [by intros [= ->] | by intros [[= ->] _]].
  - split; [done | intros [[= ->] H]; congruence].
Qed.

Lemma path_row_length t t' path :
  length (tv_selected t') = length (tv_selected t) ->
  path_row t' path = path_row t path.
Proof.
  intros H. unfold path_row, row_exists. by rewrite H.
Qed.

Lemma select_path_facts path t :
  length (tv_selected (gtk_tree_selection_select_path path t))
  = length (tv_selected t)
  /\ tv_cursor (gtk_tree_selection_select_path path t) = tv_cursor t
  /\ forall j, tv_selected (gtk_tree_selection_select_path path t) !! j = Some true
       <-> tv_selected t !! j = Some true
           \/ (path = Some [Z.of_nat j] /\ (j < length (tv_selected t))%nat).
Proof.
  assert (Hid : forall p, (forall j, p = Some [Z.of_nat j] ->
                             ~ (j < length (tv_selected t))%nat) ->
    length (tv_selected t) = length (tv_selected t)
    /\ tv_cursor t = tv_cursor t
    /\ forall j, tv_selected t !! j = Some true
       <-> tv_selected t !! j = Some true
           \/ (p = Some [Z.of_nat j] /\ (j < length (tv_selected t))%nat)).
  { intros p Hp. split; [done|]. split; [done|]. intros j.
    split; [tauto|]. intros [H | [H Hj]]; [done|]. by destruct (Hp j H). }
  unfold gtk_tree_selection_select_path, path_row.
  destruct path as [[|row [|]]|]; try (apply Hid; by intros j).
  destruct (row_exists t row) eqn:E.
  - apply row_exists_nat in E as [E0 E1]. cbn.
    split; [apply length_insert|]. split; [done|]. intros j.
    rewrite list_lookup_insert_Some. split.
    + intros [(<- & _ & Hj) | [_ H]]; [right | by left].
      split; [do 2 f_equal; lia | done].
    + intros [H | [H Hj]].
      * destruct (decide (Z.to_nat row = j)) as [<- | Hne]; [left | by right].
        done.
      * injection H as ->. left. rewrite Nat2Z.id. done.
  - apply Hid. intros j [= ->] Hj.
    assert (row_exists t (Z.of_nat j) = true); [|congruence].
    apply row_exists_nat. lia.
Qed.

Lemma select_paths_facts l : forall t,
  length (tv_selected (foldl (fun t path => gtk_tree_selection_select_path path t) t l))
  = length (tv_selected t)
  /\ tv_cursor (foldl (fun t path => gtk_tree_selection_select_path path t) t l)
     = tv_cursor t
  /\ forall j,
       tv_selected (foldl (fun t path => gtk_tree_selection_select_path path t) t l)
         !! j = Some true
       <-> tv_selected t !! j = Some true
           \/ (Some [Z.of_nat j] ∈ l /\ (j < length (tv_selected t))%nat).
Proof.
  induction l as [|p l IH]; intros t; cbn [foldl].
  - split; [done|]. split; [done|]. intros j. split; [tauto|].
    intros [H | [H _]]; [done | by apply elem_of_nil in H].
  - destruct (IH (gtk_tree_selection_select_path p t)) as (Hlen & Hcur & Hsel).
    destruct (select_path_facts p t) as (Hlen1 & Hcur1 & Hsel1).
    split; [congruence|]. split; [congruence|]. intros j.
    rewrite Hsel, Hsel1, Hlen1, elem_of_cons. split.
    + intros [[H | [-> Hj]] | [H Hj]]; [by left | right | right]; split; auto.
    + intros [H | [[<- | H] Hj]]; [left; by left | left; by right | right; done].
Qed.

Lemma unselect_all_facts t :
  length (tv_selected (gtk_tree_selection_unselect_all t)) = length (tv_selected t)
  /\ tv_cursor (gtk_tree_selection_unselect_all t) = tv_cursor t
  /\ forall j, tv_selected (gtk_tree_selection_unselect_all t) !! j <> Some true.
Proof.
  cbn. split; [apply length_replicate|]. split; [done|].
  intros j H. apply lookup_replicate in H as [H _]. done.
Qed.

Lemma set_cursor_path_facts path t :
  length (tv_selected (gtk_tree_view_set_cursor_path path t))
  = length (tv_selected t)
  /\ tv_cursor (gtk_tree_view_set_cursor_path path t)
     = match path_row t path with Some row => Some row | None => tv_cursor t end
  /\ forall j, tv_selected (gtk_tree_view_set_cursor_path path t) !! j = Some true
       <-> match path_row t path with
           | Some row => Z.of_nat j = row
           | None => tv_selected t !! j = Some true
           end.
Proof.
  unfold gtk_tree_view_set_cursor_path.
  destruct path as [[|row [|]]|]; try done.
  unfold gtk_tree_view_set_cursor. cbn [path_row].
  change (row_exists (ui_log (EvSetCursor row) t) row) with (row_exists t row).
  destruct (row_exists t row) eqn:E; [|done].
  apply row_exists_nat in E as [E0 E1]. cbn.
  split; [by rewrite length_insert, length_replicate|]. split; [done|].
  intros j. rewrite list_lookup_insert_Some, length_replicate, lookup_replicate.
  split.
  - intros [(<- & _ & Hj) | (_ & H & _)]; [lia | done].
  - intros <-. left. rewrite Nat2Z.id in E1 |- *. done.
Qed.

(** Selecting a path and putting the cursor on it. *)
Lemma select_and_cursor_facts path t :
  length (tv_selected (gtk_tree_view_set_cursor_path path
                         (gtk_tree_selection_select_path path t)))
  = length (tv_selected t)
  /\ tv_cursor (gtk_tree_view_set_cursor_path path
                  (gtk_tree_selection_select_path path t))
     = match path_row t path with Some row => Some row | None => tv_cursor t end
  /\ forall j, tv_selected (gtk_tree_view_set_cursor_path path
                              (gtk_tree_selection_select_path path t)) !! j
               = Some true
       <-> match path_row t path with
           | Some row => Z.of_nat j = row
           | None => tv_selected t !! j = Some true
           end.
Proof.
  destruct (select_path_facts path t) as (Hlen & Hcur & Hsel).
  destruct (set_cursor_path_facts path (gtk_tree_selection_select_path path t))
    as (Hlen' & Hcur' & Hsel').
  rewrite (path_row_length t _ path Hlen) in Hcur', Hsel'.
  split; [congruence|]. split; [by rewrite Hcur', Hcur|].
  intros j. rewrite Hsel'. destruct (path_row t path) as [row|] eqn:E; [done|].
  rewrite Hsel. split; [intros [H | [-> Hj]]; [done|] | tauto].
  exfalso. assert (path_row t (Some [Z.of_nat j]) = Some (Z.of_nat j)); [|congruence].
  apply path_row_Some. split; [done|]. apply row_exists_nat. lia.
Qed.

Lemma select_shifted_first distance data t :
  select_shifted distance true data t
  = gtk_tree_view_set_cursor_path (shifted_path distance data)
      (gtk_tree_selection_select_path (shifted_path distance data) t).
Proof. by destruct data. Qed.

Lemma select_shifted_rest distance l : forall t,
  foldl (fun t path => select_shifted distance false path t) t l
  = foldl (fun t path => gtk_tree_selection_select_path path t) t
          (shifted_path distance <$> l).
Proof.
  induction l as [|data l IH]; intros t; [done|]. cbn [foldl fmap list_fmap].
  rewrite IH. by destruct data.
Qed.

Lemma shifted_path_names distance data (row : Z) :
  shifted_path distance data = Some [row]
  <-> exists p, data = Some p /\ 0 <= row
      /\ to_gint (playlist_get_index_from_path (Some p) + distance) = row.
Proof.
  unfold shifted_path, gtk_tree_path_new_from_indices. destruct data as [p|].
  - destruct (_ <? 0) eqn:E.
    + apply Z.ltb_lt in E. split; [done|]. intros (q & [= <-] & H0 & H). exfalso. lia.
    + apply Z.ltb_ge in E. split.
      * intros [= H]. exists p. split; [done|]. rewrite <- H.
        split; [exact E | reflexivity].
      * intros (q & [= <-] & _ & ->). done.
  - split; [done | by intros (q & H & _)].
Qed.

Lemma shifted_paths_elem distance (l : list (option GtkTreePath)) (row : Z) :
  Some [row] ∈ shifted_path distance <$> l
  <-> 0 <= row /\ exists p, Some p ∈ l
      /\ to_gint (playlist_get_index_from_path (Some p) + distance) = row.
Proof.
  rewrite list_elem_of_fmap. split.
  - intros (data & Heq & Hin). symmetry in Heq.
    apply shifted_path_names in Heq as (p & -> & H0 & H). eauto.
  - intros (H0 & p & Hin & H). exists (Some p). split; [|done].
    symmetry. apply shifted_path_names. eauto.
Qed.

Lemma row_selected_nat (s : ui) (row : Z) :
  0 <= row ->
  row_selected s row = true
  <-> tv_selected (ui_tree s) !! Z.to_nat row = Some true.
Proof. intros H. rewrite row_selected_lookup. tauto. Qed.

(** X21. playlist_set_selected with a path that names a row of the view
    leaves exactly that row selected and puts the cursor on it. Handed a
    path that names no row of the view (NULL included) it leaves nothing
    selected; handed NULL it leaves the cursor where it was. The host
    playlist is not touched. *)
Theorem playlist_set_selected_only_that_row (path : option GtkTreePath) (s : ui) :
  ui_host (playlist_set_selected path s) = ui_host s
  /\ length (tv_selected (ui_tree (playlist_set_selected path s)))
     = length (tv_selected (ui_tree s))
  /\ (forall row, path = Some [row] -> row_exists (ui_tree s) row = true ->
        (forall j, row_selected (playlist_set_selected path s) j = true <-> j = row)
        /\ treeview_get_focus (playlist_set_selected path s) = row)
  /\ (path_row (ui_tree s) path = None ->
        forall j, row_selected (playlist_set_selected path s) j = false)
  /\ (path = None ->
        treeview_get_focus (playlist_set_selected path s) = treeview_get_focus s).
Proof.
  unfold playlist_set_selected, treeview_get_focus. cbn [on_tree ui_host ui_tree].
  destruct (unselect_all_facts (ui_tree s)) as (Hlen0 & Hcur0 & Hnone).
  destruct (select_and_cursor_facts path (gtk_tree_selection_unselect_all (ui_tree s)))
    as (Hlen & Hcur & Hsel).
  rewrite (path_row_length (ui_tree s) _ path Hlen0) in Hcur, Hsel.
  split; [done|]. split; [congruence|]. split; [|split].
  - intros row -> Hrow.
    assert (Hp : path_row (ui_tree s) (Some [row]) = Some row)
      by (by apply path_row_Some).
    rewrite Hp in Hcur, Hsel. rewrite Hcur. split; [|done].
    intros j. rewrite row_selected_lookup. cbn [ui_tree]. rewrite Hsel.
    apply row_exists_nat in Hrow. lia.
  - intros Hp. rewrite Hp in Hsel.
    intros j. apply not_true_is_false. rewrite row_selected_lookup.
    cbn [ui_tree]. rewrite Hsel. intros [_ H]. by apply Hnone in H.
  - intros ->. cbn [path_row] in Hcur. by rewrite Hcur, Hcur0.
Qed.

(** Row 3 of six, rows 0 and 5 shown selected before. *)
Lemma playlist_set_selected_only_that_row_witness :
  let s := Samples.six_view [true; false; false; false; false; true] false in
  (forall j, row_selected (playlist_set_selected (Some [3]) s) j = true <-> j = 3)
  /\ treeview_get_focus (playlist_set_selected (Some [3]) s) = 3.
Proof.
  cbv zeta.
  destruct (playlist_set_selected_only_that_row (Some [3])
              (Samples.six_view [true; false; false; false; false; true] false))
    as (_ & _ & Hrow & _).
  apply (Hrow 3); reflexivity.
Defined.

(** ** playlist_set_selected_list *)

Lemma set_selected_list_shift (pl : list (option GtkTreePath)) distance s :
  distance <> 0 ->
  exists s', playlist_set_selected_list pl distance s = Some s'
  /\ ui_host s' = ui_host s
  /\ length (tv_selected (ui_tree s')) = length (tv_selected (ui_tree s))
  /\ (forall J, tv_selected (ui_tree s') !! J = Some true
        <-> (J < length (tv_selected (ui_tree s)))%nat
            /\ Some [Z.of_nat J] ∈ shifted_path distance <$> pl)
  /\ tv_cursor (ui_tree s')
     = match pl with
       | data :: _ =>
           match path_row (ui_tree s) (shifted_path distance data) with
           | Some row => Some row
           | None => tv_cursor (ui_tree s)
           end
       | [] => tv_cursor (ui_tree s)
       end.
Proof.
  intros Hd. unfold playlist_set_selected_list.
  apply Z.eqb_neq in Hd. rewrite Hd.
  destruct (unselect_all_facts (ui_tree s)) as (Hlen0 & Hcur0 & Hnone).
  destruct pl as [|data rest]; eexists; (split; [reflexivity|]);
    cbn [on_tree ui_host ui_tree]; (split; [reflexivity|]).
  - split; [exact Hlen0|]. split; [|exact Hcur0]. intros J. split.
    + intros H. by apply Hnone in H.
    + intros [_ H]. by apply elem_of_nil in H.
  - rewrite select_shifted_rest, select_shifted_first.
    set (t0 := gtk_tree_selection_unselect_all (ui_tree s)) in *.
    set (p0 := shifted_path distance data).
    destruct (select_and_cursor_facts p0 t0) as (Hlen1 & Hcur1 & Hsel1).
    set (t1 := gtk_tree_view_set_cursor_path p0
                 (gtk_tree_selection_select_path p0 t0)) in *.
    destruct (select_paths_facts (shifted_path distance <$> rest) t1)
      as (Hlen2 & Hcur2 & Hsel2).
    rewrite (path_row_length (ui_tree s) t0 p0 Hlen0) in Hcur1, Hsel1.
    split; [congruence|]. split; [|by rewrite Hcur2, Hcur1, Hcur0].
    intros J. rewrite Hsel2, Hsel1, Hlen1, Hlen0. cbn [fmap list_fmap].
    fold p0. rewrite elem_of_cons. split.
    + intros [H | [H HJ]].
      * destruct (path_row (ui_tree s) p0) as [row|] eqn:E;
          [|by apply Hnone in H].
        subst row. apply path_row_Some in E as [E Hrow].
        apply row_exists_nat in Hrow. split; [lia | by left].
      * split; [done | by right].
    + intros [HJ [H | H]]; [left | right; done].
      assert (E : path_row (ui_tree s) p0 = Some (Z.of_nat J)).
      { apply path_row_Some. split; [done|]. apply row_exists_nat. lia. }
      by rewrite E.
Qed.

Lemma set_selected_list_same (data : option GtkTreePath) rest s :
  exists s', playlist_set_selected_list (data :: rest) 0 s = Some s'
  /\ ui_host s' = ui_host s
  /\ length (tv_selected (ui_tree s')) = length (tv_selected (ui_tree s))
  /\ (forall J, tv_selected (ui_tree s') !! J = Some true
        <-> (J < length (tv_selected (ui_tree s)))%nat
            /\ Some [Z.of_nat J] ∈ data :: rest)
  /\ tv_cursor (ui_tree s')
     = match path_row (ui_tree s) data with
       | Some row => Some row
       | None => tv_cursor (ui_tree s)
       end.
Proof.
  unfold playlist_set_selected_list. cbn [Z.eqb].
  destruct (unselect_all_facts (ui_tree s)) as (Hlen0 & Hcur0 & Hnone).
  eexists. split; [reflexivity|]. cbn [on_tree ui_host ui_tree].
  split; [reflexivity|].
  set (t0 := gtk_tree_selection_unselect_all (ui_tree s)) in *.
  destruct (set_cursor_path_facts data t0) as (Hlen1 & Hcur1 & Hsel1).
  set (t1 := gtk_tree_view_set_cursor_path data t0) in *.
  destruct (select_paths_facts (data :: rest) t1) as (Hlen2 & Hcur2 & Hsel2).
  rewrite (path_row_length (ui_tree s) t0 data Hlen0) in Hcur1, Hsel1.
  split; [congruence|]. split; [|by rewrite Hcur2, Hcur1, Hcur0].
  intros J. rewrite Hsel2, Hsel1, Hlen1, Hlen0. split.
  - intros [H | [H HJ]]; [|done].
    destruct (path_row (ui_tree s) data) as [row|] eqn:E;
      [|by apply Hnone in H].
    subst row. apply path_row_Some in E as [E Hrow].
    apply row_exists_nat in Hrow. split; [lia|]. rewrite E. by left.
  - intros [HJ H]. by right.
Qed.

Lemma rows_from_self (sel : list bool) (J : nat) :
  Some [Z.of_nat J] ∈ rows_from 0 sel <-> sel !! J = Some true.
Proof.
  rewrite rows_from_elem. split.
  - intros (j & [= H] & Hj). apply Nat2Z.inj in H. by subst j.
  - intros H. by exists J.
Qed.

(** X22. playlist_set_selected_list with a distance other than 0 never
    fails and leaves selected exactly the rows of the view that are an entry
    of the list moved by the distance (the sum taken as a gint); NULL
    entries and entries moved out of the view are passed over. The cursor
    goes to the moved first entry when that is a row of the view. The host
    playlist is not touched. *)
Theorem playlist_set_selected_list_shifts
    (pl : list (option GtkTreePath)) (distance : Z) (s : ui) :
  distance <> 0 ->
  exists s', playlist_set_selected_list pl distance s = Some s'
  /\ ui_host s' = ui_host s
  /\ length (tv_selected (ui_tree s')) = length (tv_selected (ui_tree s))
  /\ (forall j, row_selected s' j = true
        <-> row_exists (ui_tree s) j = true
            /\ exists p, Some p ∈ pl
               /\ to_gint (playlist_get_index_from_path (Some p) + distance) = j)
  /\ (forall p rest, pl = Some p :: rest ->
        row_exists (ui_tree s)
          (to_gint (playlist_get_index_from_path (Some p) + distance)) = true ->
        treeview_get_focus s'
        = to_gint (playlist_get_index_from_path (Some p) + distance))
  /\ (forall rest, pl = None :: rest ->
        treeview_get_focus s' = treeview_get_focus s).
Proof.
  intros Hd.
  destruct (set_selected_list_shift pl distance s Hd)
    as (s' & Hrun & Hhost & Hlen & Hsel & Hcur).
  exists s'. split; [exact Hrun|]. split; [exact Hhost|]. split; [exact Hlen|].
  split; [|split].
  - intros j. rewrite row_selected_lookup, Hsel, row_exists_nat. split.
    + intros (H0 & HJ & H). rewrite Z2Nat.id in H by done.
      apply shifted_paths_elem in H as [_ H]. done.
    + intros ([H0 HJ] & H). split; [done|]. split; [done|].
      rewrite Z2Nat.id by done. by apply shifted_paths_elem.
  - intros p rest -> Hrow. unfold treeview_get_focus. rewrite Hcur.
    assert (E : path_row (ui_tree s) (shifted_path distance (Some p))
                = Some (to_gint (playlist_get_index_from_path (Some p) + distance))).
    { apply path_row_Some. split; [|done]. apply shifted_path_names.
      exists p. split; [done|]. split; [|done].
      apply row_exists_nat in Hrow. lia. }
    by rewrite E.
  - intros rest ->. unfold treeview_get_focus. by rewrite Hcur.
Qed.

(** Rows 1 and 4 moved down by 2 in a view of six rows: row 3 is selected
    and has the cursor, row 6 is not there. *)
Lemma playlist_set_selected_list_shifts_witness :
  exists s',
    playlist_set_selected_list [Some [1]; Some [4]] 2
      (Samples.six_view [true; false; false; false; false; true] false) = Some s'
    /\ (forall j, row_selected s' j = true <-> j = 3)
    /\ treeview_get_focus s' = 3.
Proof.
  destruct (playlist_set_selected_list_shifts [Some [1]; Some [4]] 2
              (Samples.six_view [true; false; false; false; false; true] false)
              ltac:(lia))
    as (s' & Hrun & _ & _ & Hsel & Hcur & _).
  exists s'. split; [exact Hrun|]. split.
  - intros j. rewrite Hsel. split.
    + intros (Hrow & p & Hin & Hj).
      apply row_exists_nat in Hrow. cbn in Hrow.
      apply elem_of_cons in Hin as [[= ->] | Hin]; [vm_compute in Hj; lia|].
      apply list_elem_of_singleton in Hin as [= ->]. vm_compute in Hj. lia.
    + intros ->. split; [reflexivity|]. exists [1]. split; [by left | reflexivity].
  - apply (Hcur [1] [Some [4]]); reflexivity.
Defined.

(** X23. playlist_set_selected_list with distance 0 reads the data of the
    first entry: handed an empty list it dereferences NULL. Handed a list
    with an entry, it leaves selected exactly the rows of the view that the
    list names, and the cursor on the row of the first entry when that names
    one. *)
Theorem playlist_set_selected_list_in_place
    (pl : list (option GtkTreePath)) (s : ui) :
  match playlist_set_selected_list pl 0 s with
  | None => pl = []
  | Some s' =>
      pl <> []
      /\ ui_host s' = ui_host s
      /\ length (tv_selected (ui_tree s')) = length (tv_selected (ui_tree s))
      /\ (forall j, row_selected s' j = true
            <-> row_exists (ui_tree s) j = true /\ Some [j] ∈ pl)
      /\ (forall row rest, pl = Some [row] :: rest ->
            row_exists (ui_tree s) row = true -> treeview_get_focus s' = row)
  end.
Proof.
  destruct pl as [|data rest]; [reflexivity|].
  destruct (set_selected_list_same data rest s)
    as (s' & Hrun & Hhost & Hlen & Hsel & Hcur).
  rewrite Hrun. split; [done|]. split; [exact Hhost|]. split; [exact Hlen|].
  split.
  - intros j. rewrite row_selected_lookup, Hsel, row_exists_nat. split.
    + intros (H0 & HJ & H). rewrite Z2Nat.id in H by done. done.
    + intros ([H0 HJ] & H). rewrite Z2Nat.id by done. done.
  - intros row rest' [= -> ->] Hrow. unfold treeview_get_focus. rewrite Hcur.
    assert (E : path_row (ui_tree s) (Some [row]) = Some row)
      by (by apply path_row_Some).
    by rewrite E.
Qed.

(** Rows 2 and 4 of six named, rows 0 and 5 shown selected before. *)
Lemma playlist_set_selected_list_in_place_witness :
  match playlist_set_selected_list [Some [2]; Some [4]] 0
          (Samples.six_view [true; false; false; false; false; true] false) with
  | None => False
  | Some s' =>
      (row_selected s' 2 = true /\ row_selected s' 0 = false)
      /\ treeview_get_focus s' = 2
  end.
Proof.
  pose proof (playlist_set_selected_list_in_place [Some [2]; Some [4]]
                (Samples.six_view [true; false; false; false; false; true] false))
    as H.
  destruct (playlist_set_selected_list _ _ _) as [s'|]; [|discriminate H].
  destruct H as (_ & _ & _ & Hsel & Hcur). split; [split|].
  - apply Hsel. split; [reflexivity | by left].
  - apply not_true_is_false. rewrite Hsel. intros [_ Hin].
    apply elem_of_cons in Hin as [[=] | Hin].
    by apply list_elem_of_singleton in Hin.
  - apply (Hcur 2 [Some [4]]); reflexivity.
Defined.

Lemma rows_from_paths (sel : list bool) (p : GtkTreePath) :
  Some p ∈ rows_from 0 sel
  <-> exists i, p = [Z.of_nat i] /\ sel !! i = Some true.
Proof.
  rewrite rows_from_elem. split.
  - intros (j & [= ->] & Hj). by exists j.
  - intros (i & -> & Hi). by exists i.
Qed.

(** X24. Handing the view's own selection (playlist_get_selected_list) to
    playlist_set_selected_list moves the selection by the distance: a row is
    selected afterwards exactly when it is a row of the view and the row
    [distance] above it was selected before, so rows moved past either end
    are dropped. The cursor goes to the moved topmost selected row when that
    is a row of the view. The call fails (NULL is dereferenced) exactly when
    the distance is 0 and nothing is selected. *)
Theorem playlist_set_selected_list_moves_selection (distance : Z) (s : ui) :
  G_MININT <= distance <= G_MAXINT ->
  Z.of_nat (length (tv_selected (ui_tree s))) <= G_MAXINT ->
  match playlist_set_selected_list (playlist_get_selected_list s) distance s with
  | None => distance = 0 /\ forall i, row_selected s i = false
  | Some s' =>
      (distance = 0 -> exists i, row_selected s i = true)
      /\ ui_host s' = ui_host s
      /\ (forall j, row_selected s' j = true
            <-> row_exists (ui_tree s) j = true
                /\ row_selected s (j - distance) = true)
      /\ (playlist_get_first_selected_index s <> -1 ->
          row_exists (ui_tree s) (playlist_get_first_selected_index s + distance)
          = true ->
          treeview_get_focus s' = playlist_get_first_selected_index s + distance)
  end.
Proof.
  intros Hd Hfit. unfold playlist_get_first_selected_index,
    playlist_get_first_selected_path, playlist_get_selected_list.
  rewrite selected_rows_from.
  pose proof (rows_from_head (tv_selected (ui_tree s)) 0) as Hhead.
  assert (Hmoved : forall i j : Z, 0 <= i <= G_MAXINT -> 0 <= j <= G_MAXINT ->
            to_gint (i + distance) = j <-> i = j - distance).
  { intros i j Hi Hj. destruct (Z_le_gt_dec (i + distance) G_MAXINT).
    - rewrite to_gint_id by fits. lia.
    - rewrite to_gint_wrapped by fits. fits. }
  destruct (decide (distance = 0)) as [-> | Hne].
  - destruct (rows_from 0 (tv_selected (ui_tree s))) as [|data rest] eqn:Hrows.
    + cbn. split; [done|]. intros i. apply not_true_is_false.
      rewrite row_selected_lookup. intros [_ H]. by apply Hhead in H.
    + destruct (set_selected_list_same data rest s)
        as (s' & Hrun & Hhost & Hlen & Hsel & Hcur).
      rewrite Hrun. destruct Hhead as (k & -> & Hk & _). rewrite Nat.add_0_l in *.
      assert (Hrow : row_exists (ui_tree s) (Z.of_nat k) = true).
      { apply row_exists_nat. rewrite Nat2Z.id. split; [lia|].
        apply lookup_lt_is_Some. eauto. }
      split; [|split; [exact Hhost | split]].
      * intros _. exists (Z.of_nat k). apply row_selected_lookup.
        rewrite Nat2Z.id. split; [lia | done].
      * intros j. rewrite Z.sub_0_r, !row_selected_lookup, Hsel, <- Hrows.
        rewrite row_exists_nat. split.
        -- intros (H0 & HJ & H). rewrite Z2Nat.id in H by done.
           apply rows_from_paths in H as (i & [= Hi] & H).
           assert (i = Z.to_nat j) as -> by lia. done.
        -- intros ([H0 HJ] & _ & H). split; [done|]. split; [done|].
           apply rows_from_paths. exists (Z.to_nat j). split; [|done].
           by rewrite Z2Nat.id.
      * intros _ _. cbn [hd playlist_get_index_from_path gtk_tree_path_get_indices].
        unfold treeview_get_focus. rewrite Hcur.
        assert (E : path_row (ui_tree s) (Some [Z.of_nat k]) = Some (Z.of_nat k))
          by (by apply path_row_Some).
        rewrite E. lia.
  - destruct (set_selected_list_shift (rows_from 0 (tv_selected (ui_tree s)))
                distance s Hne) as (s' & Hrun & Hhost & Hlen & Hsel & Hcur).
    rewrite Hrun. split; [done|]. split; [exact Hhost|]. split.
    + intros j. rewrite !row_selected_lookup, Hsel, row_exists_nat. split.
      * intros (H0 & HJ & H). rewrite Z2Nat.id in H by done.
        apply shifted_paths_elem in H as (_ & p & Hin & Hj).
        apply rows_from_paths in Hin as (i & -> & Hi).
        cbn [hd playlist_get_index_from_path gtk_tree_path_get_indices] in Hj.
        pose proof (lookup_lt_Some _ _ _ Hi) as Hlt.
        apply Hmoved in Hj; [|lia..]. split; [done|].
        rewrite <- Hj, Nat2Z.id. split; [lia | done].
      * intros ([H0 HJ] & H1 & H). split; [done|]. split; [done|].
        rewrite Z2Nat.id by done. apply shifted_paths_elem. split; [done|].
        exists [j - distance]. split.
        -- apply rows_from_paths. exists (Z.to_nat (j - distance)).
           split; [by rewrite Z2Nat.id | done].
        -- cbn [hd playlist_get_index_from_path gtk_tree_path_get_indices].
           pose proof (lookup_lt_Some _ _ _ H) as Hlt.
           apply Hmoved; lia.
    + destruct (rows_from 0 (tv_selected (ui_tree s))) as [|data rest] eqn:Hrows;
        [done|].
      destruct Hhead as (k & -> & Hk & _). rewrite Nat.add_0_l in *.
      cbn [hd playlist_get_index_from_path gtk_tree_path_get_indices].
      intros _ Hrow. unfold treeview_get_focus. rewrite Hcur.
      assert (E : path_row (ui_tree s) (shifted_path distance (Some [Z.of_nat k]))
                  = Some (Z.of_nat k + distance)).
      { apply path_row_Some. split; [|done]. apply shifted_path_names.
        exists [Z.of_nat k]. apply row_exists_nat in Hrow.
        pose proof (lookup_lt_Some _ _ _ Hk) as Hlt.
        split; [done|]. split; [lia|].
        cbn [hd playlist_get_index_from_path gtk_tree_path_get_indices].
        apply Hmoved; lia. }
      by rewrite E.
Qed.

(** Rows 0 and 5 of six shown selected, moved down by 2: row 2 is selected
    and has the cursor, row 7 is not there. *)
Lemma playlist_set_selected_list_moves_selection_witness :
  let s := Samples.six_view [true; false; false; false; false; true] false in
  match playlist_set_selected_list (playlist_get_selected_list s) 2 s with
  | None => False
  | Some s' =>
      (row_selected s' 2 = true /\ row_selected s' 5 = false)
      /\ treeview_get_focus s' = 2
  end.
Proof.
  cbv zeta.
  pose proof (playlist_set_selected_list_moves_selection 2
                (Samples.six_view [true; false; false; false; false; true] false)
                ltac:(unfold G_MININT, G_MAXINT; lia)
                ltac:(cbn; unfold G_MAXINT; lia)) as H.
  destruct (playlist_set_selected_list _ _ _) as [s'|]; [|destruct H; lia].
  destruct H as (_ & _ & Hsel & Hcur). split; [split|].
  - apply Hsel. split; reflexivity.
  - apply not_true_is_false. rewrite Hsel. intros [_ H]. discriminate H.
  - apply Hcur; [vm_compute; lia | reflexivity].
Defined.
